(** * fabric-helper: a shallow embedding of [index.ts]

    The installer script is a linear pipeline over three pieces of ambient
    state: the file system, the terminal and the package registry reached
    over HTTP.  The embedding keeps the source's names.  JavaScript strings
    are modelled as [string] (one [ascii] per character, so the string
    primitives below are the ASCII fragment of the JavaScript ones),
    counters as [nat], the file system as a finite map from directory paths
    to directory listings, and the script's statements as computations of a
    small monad [M] that threads the file system and the terminal and
    propagates exceptions and [process.exit]. *)

From Stdlib Require Import Ascii String.
From stdpp Require Import base option list strings pretty gmap fin_maps.

Local Open Scope string_scope.

(** ** String primitives of the host language *)

Module JsString.

(** [String.prototype.toLowerCase], ASCII fragment: only [A]..[Z] move. *)
Definition lower_ascii (c : ascii) : ascii :=
  let n := nat_of_ascii c in
  if (65 <=? n)%nat && (n <=? 90)%nat then ascii_of_nat (n + 32) else c.

Fixpoint toLowerCase (s : string) : string :=
  match s with
  | EmptyString => EmptyString
  | String c s' => String (lower_ascii c) (toLowerCase s')
  end.

(** [s.replace(/-/g, "_")]: every hyphen becomes an underscore. *)
Fixpoint replace_hyphens (s : string) : string :=
  match s with
  | EmptyString => EmptyString
  | String c s' =>
      String (if Ascii.eqb c "-" then "_"%char else c) (replace_hyphens s')
  end.

(** [s.replace(/[:.]/g, "-")]: every colon and every dot becomes a hyphen. *)
Fixpoint replace_colon_dot (s : string) : string :=
  match s with
  | EmptyString => EmptyString
  | String c s' =>
      String (if Ascii.eqb c ":" || Ascii.eqb c "." then "-"%char else c)
             (replace_colon_dot s')
  end.

(** [s.split(d)[0]]: the part of [s] before the first occurrence of the
    one-character delimiter [d], all of [s] when there is none. *)
Fixpoint split_head (d : ascii) (s : string) : string :=
  match s with
  | EmptyString => EmptyString
  | String c s' => if Ascii.eqb c d then EmptyString else String c (split_head d s')
  end.

(** [s.startsWith(p)] *)
Fixpoint startsWith (s p : string) {struct p} : bool :=
  match p, s with
  | EmptyString, _ => true
  | String _ _, EmptyString => false
  | String a p', String b s' => Ascii.eqb a b && startsWith s' p'
  end.

(** [s.includes(needle)]: [needle] starts at some position of [s]. *)
Fixpoint includes (s needle : string) : bool :=
  startsWith s needle
  || match s with
     | EmptyString => false
     | String _ s' => includes s' needle
     end.

(** [s.endsWith(suffix)]: some tail of [s] is exactly [suffix]. *)
Fixpoint endsWith (s suffix : string) : bool :=
  String.eqb s suffix
  || match s with
     | EmptyString => false
     | String _ s' => endsWith s' suffix
     end.

(** White space of [String.prototype.trim], ASCII fragment: tab, line
    feed, vertical tab, form feed, carriage return and space. *)
Definition is_space (c : ascii) : bool :=
  let n := nat_of_ascii c in
  ((9 <=? n)%nat && (n <=? 13)%nat) || (n =? 32)%nat.

Fixpoint trimStart (s : string) : string :=
  match s with
  | EmptyString => EmptyString
  | String c s' => if is_space c then trimStart s' else s
  end.

(** [trimEnd] drops the trailing white space: a character stays when it
    is not a space or when something stays after it. *)
Fixpoint trimEnd (s : string) : string :=
  match s with
  | EmptyString => EmptyString
  | String c s' =>
      match trimEnd s' with
      | EmptyString => if is_space c then EmptyString else String c EmptyString
      | String d r => String c (String d r)
      end
  end.

Definition trim (s : string) : string := trimEnd (trimStart s).

(** [encodeURIComponent] on a byte string: the unreserved characters stay,
    every other byte becomes [%XX] with upper-case hexadecimal digits. *)
Definition is_unreserved (c : ascii) : bool :=
  let n := nat_of_ascii c in
  ((48 <=? n)%nat && (n <=? 57)%nat)
  || ((65 <=? n)%nat && (n <=? 90)%nat)
  || ((97 <=? n)%nat && (n <=? 122)%nat)
  || includes "-_.!~*'()" (String c EmptyString).

Definition hex_digit (n : nat) : ascii :=
  if (n <? 10)%nat then ascii_of_nat (48 + n) else ascii_of_nat (55 + n).

Fixpoint encodeURIComponent (s : string) : string :=
  match s with
  | EmptyString => EmptyString
  | String c s' =>
      if is_unreserved c then String c (encodeURIComponent s')
      else
        let n := nat_of_ascii c in
        String "%" (String (hex_digit (n / 16)) (String (hex_digit (n mod 16))
          (encodeURIComponent s')))
  end.

(** The propositional reading of "contains as a substring" and of "ends
    with". *)
Definition Substring (needle s : string) : Prop :=
  ∃ pre post : string, s = pre +:+ needle +:+ post.

Definition Suffix (suffix s : string) : Prop :=
  ∃ pre : string, s = pre +:+ suffix.

End JsString.

Import JsString.

(** ** Outcomes, host environment and paths *)

(** A JavaScript computation returns, throws, or ends the process with
    [process.exit(code)].  [Throw] carries the text that [`${error}`]
    prints. *)
Inductive result (A : Type) : Type :=
  | Ok (a : A)
  | Throw (error : string)
  | Exit (code : nat).
Arguments Ok {A} a.
Arguments Throw {A} error.
Arguments Exit {A} code.

(** [new Error(message)] as [`${error}`] prints it. *)
Definition Error (message : string) : string := "Error: " +:+ message.

(** What the process reads from its host: [process.platform], [homedir()],
    [process.env.APPDATA], [import.meta.dir] and the working directory;
    and what a path made with a name that comes from outside designates on
    this host.  [path.join] normalises its result, so [join(dir, name)] is
    the entry [name] of [dir] only for a plain name: with [..] or a
    separator in it the path designates an entry of another directory, and
    the empty name gives [dir] itself.  [path_entry dir name] is the
    directory and the entry name that [join(dir, name)] designates, [None]
    when it designates no entry (the root, a path that ends with a
    separator). *)
Record Host := {
  platform : string;
  homedir : string;
  APPDATA : option string;
  SCRIPT_DIR : string;
  cwd : string;
  path_entry : string → string → option (string * string);
}.

(** [path.join] on segments that are already in normal form: the segments
    separated by the platform's separator. *)
Definition sep (h : Host) : string :=
  if String.eqb (platform h) "win32" then "\" else "/".

Definition join (h : Host) (a b : string) : string := a +:+ sep h +:+ b.

(** [getMinecraftDir] (index.ts, lines 43-58).  [!appData] holds for an
    unset variable and for the empty string. *)
Definition getMinecraftDir (h : Host) : result string :=
  if String.eqb (platform h) "darwin" then
    Ok (join h (homedir h) "Library/Application Support/minecraft")
  else if String.eqb (platform h) "win32" then
    match APPDATA h with
    | None => Throw (Error "APPDATA environment variable not found on Windows")
    | Some appData =>
        if String.eqb appData EmptyString
        then Throw (Error "APPDATA environment variable not found on Windows")
        else Ok (join h appData ".minecraft")
    end
  else Ok (join h (homedir h) ".minecraft").

(** Configuration (index.ts, lines 61-70). *)
Definition INSTALLER : string := "fabric-installer-1.1.0.jar".
Definition INSTALLER_URL : string :=
  "https://maven.fabricmc.net/net/fabricmc/fabric-installer/1.1.0/fabric-installer-1.1.0.jar".
Definition API_BASE : string := "https://api.modrinth.com/v2".

Record Paths := {
  MINECRAFT_DIR : string;
  MODS_DIR : string;
  SHADERPACKS_DIR : string;
  LOCAL_MODS_DIR : string;
  LOCAL_SHADERS_DIR : string;
}.

Definition paths_of (h : Host) (minecraftDir : string) : Paths :=
  {| MINECRAFT_DIR := minecraftDir;
     MODS_DIR := join h minecraftDir "mods";
     SHADERPACKS_DIR := join h minecraftDir "shaderpacks";
     LOCAL_MODS_DIR := join h (join h (SCRIPT_DIR h) "minecraft") "mods";
     LOCAL_SHADERS_DIR := join h (join h (SCRIPT_DIR h) "minecraft") "shaderpacks" |}.

(** Types (index.ts, lines 15-26) and the mod list (lines 73-80). *)
Record ModEntry := { slug : string; name : string }.

Record RegistryFile := { url : string; filename : string }.

Record ModrinthVersion := {
  version_number : string;
  files : list RegistryFile;
}.

Definition MODS : list ModEntry :=
  [ {| slug := "fabric-api"; name := "Fabric API" |};
    {| slug := "lambdynamiclights"; name := "Lamb Dynamic Lights" |};
    {| slug := "modmenu"; name := "Mod Menu" |};
    {| slug := "sodium"; name := "Sodium" |};
    {| slug := "xaeros-minimap"; name := "Xaero's Minimap" |};
    {| slug := "xaeros-world-map"; name := "Xaero's World Map" |} ].

(** ** The clock *)

(** A [Date] through the UTC fields that [toISOString] prints. *)
Record Date := {
  year : nat; month : nat; day : nat;
  hours : nat; minutes : nat; seconds : nat; milliseconds : nat;
}.

Definition digit (n : nat) : ascii := ascii_of_nat (48 + n mod 10).

Definition pad2 (n : nat) : string :=
  String (digit (n / 10)) (String (digit n) EmptyString).

Definition pad3 (n : nat) : string := String (digit (n / 100)) (pad2 n).

Definition pad4 (n : nat) : string := String (digit (n / 1000)) (pad3 n).

(** [Date.prototype.toISOString] for the years 0 to 9999:
    [YYYY-MM-DDTHH:mm:ss.sssZ], always in UTC. *)
Definition toISOString (d : Date) : string :=
  pad4 (year d) +:+ "-" +:+ pad2 (month d) +:+ "-" +:+ pad2 (day d)
  +:+ "T" +:+ pad2 (hours d) +:+ ":" +:+ pad2 (minutes d) +:+ ":"
  +:+ pad2 (seconds d) +:+ "." +:+ pad3 (milliseconds d) +:+ "Z".

(** The backup name of the cleanup stage (index.ts, lines 282-292). *)
Definition timestamp (now : Date) : string :=
  split_head "T" (replace_colon_dot (toISOString now)).

Definition backupDir (h : Host) (now : Date) : string :=
  join h (join h (homedir h)
            (if String.eqb (platform h) "win32" then "Desktop" else "Desktop"))
       ("minecraft_mods_backup_" +:+ timestamp now).

Definition backupModsDir (h : Host) (now : Date) : string :=
  join h (backupDir h now) "mods".

Definition backupShadersDir (h : Host) (now : Date) : string :=
  join h (backupDir h now) "shaderpacks".

(** ** The world: file system, terminal, registry *)

(** A directory entry is a regular file with its bytes or a sub-directory.
    The file system maps a directory path to its listing; an entry is
    addressed by its directory and its name, which is how the script
    addresses files ([join(dir, name)]).  A sub-directory is known to its
    parent as a [Dir] entry. *)
Inductive node : Type :=
  | File (bytes : string)
  | Dir.

Abbreviation FS := (gmap string (gmap string node)).

(** Terminal output: [log(color, message)] and plain [console.log]. *)
Inductive color : Type := green | blue | yellow | red | cyan.

Inductive line : Type :=
  | Log (c : color) (message : string)
  | Plain (text : string).

Record World := {
  fs : FS;
  out : list line;
}.

(** An HTTP response, through the members the script reads: [ok],
    [status], [statusText], the outcome of [json()] and the bytes of
    [arrayBuffer()].  The registry's answer is typed as the script types it,
    [ModrinthVersion[]]; it may be [null], and an element may be [null]. *)
Inductive Body : Type :=
  | BodyInvalid
  | BodyNull
  | BodyVersions (versions : list (option ModrinthVersion)).

Record Response := {
  ok : bool;
  status : nat;
  statusText : string;
  json : Body;
  arrayBuffer : string;
}.

(** Everything a run consumes from outside: the host, the answers to the
    two prompts ([None] is [null]), the clock, the network ([None] is a
    rejected [fetch]) and the two external programs. *)
Record Inputs := {
  host : Host;
  mcVersionPrompt : option string;
  cleanupPrompt : option string;
  now : Date;
  network : string → option Response;
  java_version : bool;
  fabric_installer : string → string → bool;
}.

(** ** The monad of the script's statements *)

Definition M (A : Type) : Type := World → result A * World.

Global Instance M_ret : MRet M := λ A a w, (Ok a, w).

Global Instance M_bind : MBind M := λ A B k m w,
  match m w with
  | (Ok a, w') => k a w'
  | (Throw e, w') => (Throw e, w')
  | (Exit c, w') => (Exit c, w')
  end.

Definition throw {A} (error : string) : M A := λ w, (Throw error, w).

Definition process_exit {A} (code : nat) : M A := λ w, (Exit code, w).

(** [try { body } catch (error) { handler }]; [process.exit] is not an
    exception and passes through. *)
Definition try_catch {A} (body : M A) (handler : string → M A) : M A := λ w,
  match body w with
  | (Throw e, w') => handler e w'
  | r => r
  end.

(** [for (const x of l) body], threading the variables the body updates. *)
Fixpoint for_of {A S} (l : list A) (body : A → S → M S) (s : S) : M S :=
  match l with
  | [] => mret s
  | x :: l' => s' ← body x s; for_of l' body s'
  end.

Definition log (c : color) (message : string) : M unit := λ w,
  (Ok tt, {| fs := fs w; out := out w ++ [Log c message] |}).

Definition console_log (text : string) : M unit := λ w,
  (Ok tt, {| fs := fs w; out := out w ++ [Plain text] |}).

Definition sleep (ms : nat) : M unit := mret tt.

(** *** [node:fs] *)

Definition ENOENT : string := Error "ENOENT: no such file or directory".
Definition EISDIR : string := Error "EISDIR: illegal operation on a directory".

Definition lookup_entry (f : FS) (dir file : string) : option node :=
  f !! dir ≫= λ listing, listing !! file.

(** [existsSync(dir)] for a directory path. *)
Definition existsSync (dir : string) : M bool := λ w,
  (Ok (bool_decide (is_Some (fs w !! dir))), w).

(** [existsSync(join(dir, file))]. *)
Definition existsSync_entry (dir file : string) : M bool := λ w,
  (Ok (bool_decide (is_Some (lookup_entry (fs w) dir file))), w).

(** [readdirSync(dir)]: the entry names, regular files and sub-directories
    alike. *)
Definition readdirSync (dir : string) : M (list string) := λ w,
  match fs w !! dir with
  | Some listing => (Ok (map_to_list listing).*1, w)
  | None => (Throw ENOENT, w)
  end.

(** [mkdirSync(dir, { recursive: true })]: no error when [dir] exists. *)
Definition ensure_dir (dir : string) (f : FS) : FS :=
  match f !! dir with
  | Some _ => f
  | None => <[dir := ∅]> f
  end.

Definition mkdirSync (dir : string) : M unit := λ w,
  (Ok tt, {| fs := ensure_dir dir (fs w); out := out w |}).

Definition write_entry (f : FS) (dir file : string) (bytes : string) : FS :=
  <[dir := <[file := File bytes]> (default ∅ (f !! dir))]> f.

(** [copyFileSync(join(srcDir, src), join(dstDir, dst))]: the source must
    be a regular file, the destination directory must exist and the
    destination must not be a directory. *)
Definition copyFileSync (srcDir src dstDir dst : string) : M unit := λ w,
  match lookup_entry (fs w) srcDir src with
  | Some (File bytes) =>
      match fs w !! dstDir with
      | Some listing =>
          match listing !! dst with
          | Some Dir => (Throw EISDIR, w)
          | _ => (Ok tt, {| fs := write_entry (fs w) dstDir dst bytes;
                            out := out w |})
          end
      | None => (Throw ENOENT, w)
      end
  | Some Dir => (Throw EISDIR, w)
  | None => (Throw ENOENT, w)
  end.

(** [rmSync(join(dir, file))] without options: the entry must exist and
    must not be a directory. *)
Definition rmSync (dir file : string) : M unit := λ w,
  match fs w !! dir with
  | Some listing =>
      match listing !! file with
      | Some (File _) =>
          (Ok tt, {| fs := <[dir := delete file listing]> (fs w); out := out w |})
      | Some Dir => (Throw EISDIR, w)
      | None => (Throw ENOENT, w)
      end
  | None => (Throw ENOENT, w)
  end.

(** [Bun.write] to the entry [file] of [dir], for a plain [file] name such
    as the fixed name of the installer artifact: creates the directory when
    it is missing; the destination must not be a directory. *)
Definition Bun_write (dir file : string) (bytes : string) : M unit := λ w,
  match lookup_entry (fs w) dir file with
  | Some Dir => (Throw EISDIR, w)
  | _ => (Ok tt, {| fs := write_entry (fs w) dir file bytes; out := out w |})
  end.

(** A path is a directory of the file system when it has a listing or lies
    above a path that has one. *)
Definition is_directory (h : Host) (f : FS) (path : string) : bool :=
  existsb (λ dir, String.eqb dir path || startsWith dir (path +:+ sep h))
          (map_to_list f).*1.

(** [Bun.write(join(dir, name), bytes)] for a name that comes from outside:
    the write goes to the entry the joined path designates on the host,
    which need not be in [dir]; it fails when the path designates no entry
    or a directory. *)
Definition Bun_write_path (h : Host) (dir name : string) (bytes : string)
  : M unit := λ w,
  match path_entry h dir name with
  | Some (parent, entry) =>
      if is_directory h (fs w) (join h parent entry)
      then (Throw EISDIR, w)
      else Bun_write parent entry bytes w
  | None => (Throw EISDIR, w)
  end.

(** ** The script *)

(** JavaScript's [!x] for [x : string | null]. *)
Definition falsy (x : option string) : bool :=
  match x with
  | None => true
  | Some s => String.eqb s EmptyString
  end.

Record RunConfiguration := {
  mcVersion : string;
  shouldCleanup : bool;
}.

(** The four counters of the summary. *)
Record Counters := {
  localCopyCount : nat;
  successCount : nat;
  failCount : nat;
  skipCount : nat;
}.

(** The three branches of the final summary (index.ts, lines 453-471). *)
Inductive Verdict : Type := AllReady | PartialSuccess | TotalFailure.

Definition dquote : string := String (ascii_of_nat 34) EmptyString.

Definition banner_top : string := "╔════════════════════════════════════════╗".

Section Script.

Context (i : Inputs) (p : Paths).

Let h : Host := host i.

Definition fetch (target : string) : M Response := λ w,
  match network i target with
  | Some response => (Ok response, w)
  | None => (Throw "TypeError: fetch failed", w)
  end.

Definition response_json (response : Response)
  : M (option (list (option ModrinthVersion))) :=
  match json response with
  | BodyInvalid => throw "SyntaxError: Failed to parse JSON"
  | BodyNull => mret None
  | BodyVersions versions => mret (Some versions)
  end.

(** [checkExistingFile] (index.ts, lines 83-86). *)
Definition checkExistingFile (filename : string) (isShader : bool) : M bool :=
  let searchDir := if isShader then SHADERPACKS_DIR p else MODS_DIR p in
  existsSync_entry searchDir filename.

(** [modMatchesFilename] (index.ts, lines 88-96). *)
Definition modMatchesFilename (filename projectSlug : string) : bool :=
  let filenameLower := toLowerCase filename in
  let slugLower := toLowerCase projectSlug in
  let slugUnderscore := replace_hyphens slugLower in
  includes filenameLower slugLower || includes filenameLower slugUnderscore.

(** The registry query of [downloadMod] (index.ts, lines 107-108). *)
Definition apiUrl (projectSlug mcVersion : string) : string :=
  let encodedVersion := encodeURIComponent mcVersion in
  API_BASE +:+ "/project/" +:+ projectSlug +:+ "/version?loaders=["
  +:+ dquote +:+ "fabric" +:+ dquote +:+ "]&game_versions=["
  +:+ dquote +:+ encodedVersion +:+ dquote +:+ "]".

(** [downloadMod] (index.ts, lines 98-160). *)
Definition downloadMod (projectSlug displayName : string) (isShader : bool)
    (mcVersion : string) : M bool :=
  log blue ("Downloading " +:+ displayName +:+ "...");;
  try_catch
    (response ← fetch (apiUrl projectSlug mcVersion);
     if negb (ok response) then
       log yellow ("  ⚠ API error for " +:+ displayName);; mret false
     else
       versions ← response_json response;
       match versions with
       | None | Some [] =>
           log yellow ("  ⚠ No version available for Minecraft " +:+ mcVersion);;
           mret false
       | Some (None :: _) =>
           log yellow ("  ⚠ No compatible version found for " +:+ displayName);;
           mret false
       | Some (Some latestVersion :: _) =>
           match files latestVersion with
           | [] =>
               log yellow ("  ⚠ No file available for " +:+ displayName);;
               mret false
           | file :: _ =>
               log cyan ("  ℹ Found: " +:+ version_number latestVersion);;
               let destDir := if isShader then SHADERPACKS_DIR p else MODS_DIR p in
               fileResponse ← fetch (url file);
               if negb (ok fileResponse) then
                 log red ("  ✗ Failed to download " +:+ displayName);; mret false
               else
                 Bun_write_path h destDir (filename file)
                   (arrayBuffer fileResponse);;
                 log green ("  ✓ Downloaded " +:+ filename file);;
                 mret true
           end
       end)
    (λ error,
       log red ("  ✗ Error downloading " +:+ displayName +:+ ": " +:+ error);;
       mret false).

(** [findExistingMod] (index.ts, lines 162-172): the first [.jar] entry
    that matches the slug. *)
Definition findExistingMod (slug searchDir : string) : M (option string) :=
  e ← existsSync searchDir;
  if negb e then mret None
  else
    files ← readdirSync searchDir;
    mret (List.find (λ file, endsWith file ".jar" && modMatchesFilename file slug)
                    files).

(** [findExistingShader] (index.ts, lines 174-184): the first entry that
    matches the slug. *)
Definition findExistingShader (slug : string) : M (option string) :=
  e ← existsSync (SHADERPACKS_DIR p);
  if negb e then mret None
  else
    files ← readdirSync (SHADERPACKS_DIR p);
    mret (List.find (λ file, modMatchesFilename file slug) files).

(** [ensureFabricInstaller] (index.ts, lines 187-213). *)
Definition ensureFabricInstaller : M unit :=
  e ← existsSync_entry (cwd h) INSTALLER;
  if e : bool then log cyan ("  ℹ Fabric installer already present: " +:+ INSTALLER)
  else
    log blue "Downloading Fabric Installer...";;
    try_catch
      (response ← fetch INSTALLER_URL;
       if negb (ok response) then
         throw (Error ("HTTP " +:+ pretty (status response) +:+ ": "
                       +:+ statusText response))
       else
         Bun_write (cwd h) INSTALLER (arrayBuffer response);;
         log green ("  ✓ Downloaded " +:+ INSTALLER))
      (λ error,
         log red ("  ✗ Failed to download Fabric Installer: " +:+ error);;
         log yellow ("  You can manually download from: " +:+ INSTALLER_URL);;
         process_exit 1).

(** The two prompts of [main] (index.ts, lines 223-240). *)
Definition readConfiguration : M RunConfiguration :=
  if falsy (mcVersionPrompt i) then
    log red "Error: Minecraft version is required!";;
    process_exit 1
  else
    let mcVersion := trim (default EmptyString (mcVersionPrompt i)) in
    console_log EmptyString;;
    let shouldCleanup :=
      match cleanupPrompt i with
      | Some answer => String.eqb (toLowerCase answer) "y"
      | None => false
      end in
    mret {| mcVersion := mcVersion; shouldCleanup := shouldCleanup |}.

(** Step 3 of [main], the branch taken when cleanup was confirmed
    (index.ts, lines 280-327). *)
Definition backupAndClean (dir backup : string) (files : list string) : M unit :=
  for_of files
    (λ file _, copyFileSync dir file backup file;; rmSync dir file) tt.

Definition cleanupStage : M unit :=
  log green "[3/5] Cleaning up existing mods and shaders...";;
  let backupModsDir := backupModsDir h (now i) in
  let backupShadersDir := backupShadersDir h (now i) in
  mkdirSync backupModsDir;;
  mkdirSync backupShadersDir;;
  modsExist ← existsSync (MODS_DIR p);
  (if modsExist : bool then
     entries ← readdirSync (MODS_DIR p);
     let modFiles := filter (λ f, endsWith f ".jar") entries in
     if (0 <? length modFiles)%nat then
       log cyan ("  ℹ Backing up mods to: " +:+ backupModsDir);;
       backupAndClean (MODS_DIR p) backupModsDir modFiles;;
       log green "  ✓ Cleaned up mods directory"
     else mret tt
   else mret tt);;
  shadersExist ← existsSync (SHADERPACKS_DIR p);
  (if shadersExist : bool then
     shaderFiles ← readdirSync (SHADERPACKS_DIR p);
     if (0 <? length shaderFiles)%nat then
       log cyan ("  ℹ Backing up shaders to: " +:+ backupShadersDir);;
       backupAndClean (SHADERPACKS_DIR p) backupShadersDir shaderFiles;;
       log green "  ✓ Cleaned up shaderpacks directory"
     else mret tt
   else mret tt);;
  log cyan "  ℹ Backup saved to Desktop";;
  console_log EmptyString.

(** Step 4 of [main] (index.ts, lines 334-387); returns [localCopyCount].
    [mergeFile] is the body shared by the two loops: [isShader] selects the
    installed directory, as it does in [checkExistingFile]. *)
Definition skipped (file : string) : line :=
  Log cyan ("  ℹ " +:+ file +:+ " already exists, skipping").

Definition installedDir (isShader : bool) : string :=
  if isShader then SHADERPACKS_DIR p else MODS_DIR p.

Definition mergeFile (srcDir : string) (isShader : bool)
    (file : string) (localCopyCount : nat) : M nat :=
  present ← checkExistingFile file isShader;
  if present : bool then
    log cyan ("  ℹ " +:+ file +:+ " already exists, skipping");;
    mret localCopyCount
  else
    copyFileSync srcDir file (installedDir isShader) file;;
    log green ("  ✓ Copied " +:+ file);;
    mret (S localCopyCount).

Definition mergeMods (localCopyCount : nat) : M nat :=
  localModsExist ← existsSync (LOCAL_MODS_DIR p);
  if localModsExist : bool then
    log cyan ("Checking local mods directory: " +:+ LOCAL_MODS_DIR p);;
    entries ← readdirSync (LOCAL_MODS_DIR p);
    let modFiles := filter (λ f, endsWith f ".jar") entries in
    for_of modFiles (mergeFile (LOCAL_MODS_DIR p) false) localCopyCount
  else
    log yellow ("  ⚠ Local mods directory not found: " +:+ LOCAL_MODS_DIR p);;
    mret localCopyCount.

Definition mergeShaders (localCopyCount : nat) : M nat :=
  localShadersExist ← existsSync (LOCAL_SHADERS_DIR p);
  if localShadersExist : bool then
    log cyan ("Checking local shaders directory: " +:+ LOCAL_SHADERS_DIR p);;
    shaderFiles ← readdirSync (LOCAL_SHADERS_DIR p);
    for_of shaderFiles (mergeFile (LOCAL_SHADERS_DIR p) true) localCopyCount
  else
    log yellow ("  ⚠ Local shaderpacks directory not found: "
                +:+ LOCAL_SHADERS_DIR p);;
    mret localCopyCount.

Definition localMergeStage : M nat :=
  log green "[4/5] Installing local mods and shaders...";;
  console_log EmptyString;;
  localCopyCount ← mergeMods 0;
  console_log EmptyString;;
  localCopyCount ← mergeShaders localCopyCount;
  console_log EmptyString;;
  log cyan ("Copied " +:+ pretty localCopyCount
            +:+ " file(s) from local directories");;
  console_log EmptyString;;
  mret localCopyCount.

(** Step 5 of [main] (index.ts, lines 390-439). *)
Definition count_skip (c : Counters) : Counters :=
  {| localCopyCount := localCopyCount c; successCount := successCount c;
     failCount := failCount c; skipCount := S (skipCount c) |}.

Definition count_download (success : bool) (c : Counters) : Counters :=
  if success then
    {| localCopyCount := localCopyCount c; successCount := S (successCount c);
       failCount := failCount c; skipCount := skipCount c |}
  else
    {| localCopyCount := localCopyCount c; successCount := successCount c;
       failCount := S (failCount c); skipCount := skipCount c |}.

Definition fetchMod (mcVersion : string) (entry : ModEntry) (c : Counters)
  : M Counters :=
  existingMod ← findExistingMod (slug entry) (MODS_DIR p);
  c' ← (if falsy existingMod then
          success ← downloadMod (slug entry) (name entry) false mcVersion;
          mret (count_download success c)
        else
          log cyan (name entry +:+ " already installed: "
                    +:+ default EmptyString existingMod);;
          mret (count_skip c));
  sleep 500;;
  mret c'.

Definition fetchShader (mcVersion : string) (c : Counters) : M Counters :=
  existingShader ← findExistingShader "complementary";
  if falsy existingShader then
    success ← downloadMod "complementary-reimagined" "Complementary Reimagined"
                true mcVersion;
    mret (count_download success c)
  else
    log cyan ("Complementary Reimagined already installed: "
              +:+ default EmptyString existingShader);;
    mret (count_skip c).

Definition remoteFetchStage (mcVersion : string) (localCopyCount : nat)
  : M Counters :=
  log green "[5/5] Downloading missing mods...";;
  console_log EmptyString;;
  c ← for_of MODS (fetchMod mcVersion)
        {| localCopyCount := localCopyCount; successCount := 0;
           failCount := 0; skipCount := 0 |};
  console_log EmptyString;;
  fetchShader mcVersion c.

(** The summary (index.ts, lines 441-483). *)
Definition verdict (c : Counters) : Verdict :=
  if (failCount c =? 0)%nat then AllReady
  else if (0 <? successCount c)%nat || (0 <? localCopyCount c)%nat
  then PartialSuccess
  else TotalFailure.

Definition summary (mcVersion : string) (c : Counters) : M unit :=
  console_log EmptyString;;
  log blue banner_top;;
  log blue "║           Installation Summary         ║";;
  log blue banner_top;;
  console_log EmptyString;;
  log green ("✓ Copied from local: " +:+ pretty (localCopyCount c));;
  log green ("✓ Downloaded: " +:+ pretty (successCount c));;
  log cyan ("ℹ Already installed: " +:+ pretty (skipCount c));;
  log yellow ("⚠ Not available for " +:+ mcVersion +:+ ": "
              +:+ pretty (failCount c));;
  console_log EmptyString;;
  let totalInstalled := (localCopyCount c + successCount c + skipCount c)%nat in
  match verdict c with
  | AllReady =>
      log green ("🎉 All " +:+ pretty totalInstalled
                 +:+ " mods and shaders are ready!")
  | PartialSuccess =>
      log yellow ("⚠ " +:+ pretty totalInstalled +:+ " mods installed, but "
                  +:+ pretty (failCount c)
                  +:+ " are not yet available for Minecraft " +:+ mcVersion
                  +:+ ".");;
      log yellow "   Check back later at https://modrinth.com"
  | TotalFailure =>
      log red ("⚠ No mods could be downloaded for Minecraft " +:+ mcVersion
               +:+ ".");;
      log yellow "   Most mods may not be updated yet. You can:";;
      log yellow ("   1. Wait for mod developers to release " +:+ mcVersion
                  +:+ " versions");;
      log yellow "   2. Check manually at https://modrinth.com"
  end;;
  console_log EmptyString;;
  log blue "Next steps:";;
  console_log "1. Launch Minecraft";;
  console_log "2. Select the Fabric profile (should be auto-created)";;
  console_log "3. Only the compatible mods will load";;
  console_log EmptyString;;
  log cyan "Tip: Keep your local minecraft/mods folder updated for easy reinstalls!";;
  console_log EmptyString.

(** Steps 4 and 5 and the summary: what runs after the cleanup step. *)
Definition installStages (mcVersion : string) : M Counters :=
  localCopyCount ← localMergeStage;
  counters ← remoteFetchStage mcVersion localCopyCount;
  summary mcVersion counters;;
  mret counters.

(** [main] (index.ts, lines 216-484). *)
Definition main : M Counters :=
  log blue banner_top;;
  log blue "║  Automated Fabric Mod Installer       ║";;
  log blue "║  Cross-Platform Edition (Bun)         ║";;
  log blue banner_top;;
  console_log EmptyString;;
  cfg ← readConfiguration;
  console_log EmptyString;;
  log green ("Installing for Minecraft " +:+ mcVersion cfg);;
  console_log EmptyString;;
  log green "[0/5] Checking Fabric Installer...";;
  ensureFabricInstaller;;
  console_log EmptyString;;
  (if java_version i then mret tt
   else
     log red "Error: Java is not installed!";;
     log yellow "Install Java to continue.";;
     process_exit 1);;
  log green "[1/5] Installing Fabric Loader...";;
  (if fabric_installer i (MINECRAFT_DIR p) (mcVersion cfg) then mret tt
   else
     log red "Failed to install Fabric. Check your Minecraft version.";;
     process_exit 1);;
  console_log EmptyString;;
  log green "[2/5] Creating directories...";;
  mkdirSync (MODS_DIR p);;
  mkdirSync (SHADERPACKS_DIR p);;
  log green ("  ✓ Mods directory: " +:+ MODS_DIR p);;
  log green ("  ✓ Shaderpacks directory: " +:+ SHADERPACKS_DIR p);;
  console_log EmptyString;;
  (if shouldCleanup cfg then cleanupStage
   else
     log green "[3/5] Skipping cleanup...";;
     console_log EmptyString);;
  installStages (mcVersion cfg).

End Script.

(** The module as a whole: the paths are computed when the module loads,
    then [main()] runs under the handler of its last lines (index.ts, lines
    487-490).  An exception at load time is uncaught. *)
Definition script (i : Inputs) : M Counters := λ w,
  match getMinecraftDir (host i) with
  | Ok minecraftDir =>
      try_catch (main i (paths_of (host i) minecraftDir))
        (λ error, log red ("Fatal error: " +:+ error);; process_exit 1) w
  | Throw error => (Throw error, w)
  | Exit code => (Exit code, w)
  end.

(** ** Vocabulary of the statements *)

(** The field ranges of a [Date] that [toISOString] prints in the short
    form. *)
Definition calendar (d : Date) : Prop :=
  (year d < 100 * 100 ∧ 1 ≤ month d ≤ 12 ∧ 1 ≤ day d ≤ 31
   ∧ hours d < 24 ∧ minutes d < 60 ∧ seconds d < 60 ∧ milliseconds d < 1000)%nat.

(** The last character of a string. *)
Fixpoint last_char (s : string) : option ascii :=
  match s with
  | EmptyString => None
  | String c s' =>
      match last_char s' with
      | Some d => Some d
      | None => Some c
      end
  end.

(** The registry answers that [downloadMod] treats as "unavailable": a
    non-success status, [null], the empty array, or a first release without
    a first file. *)
Definition unavailable (r : Response) : Prop :=
  ok r = false
  ∨ json r = BodyNull
  ∨ json r = BodyVersions []
  ∨ ∃ release rest, json r = BodyVersions (Some release :: rest)
                    ∧ files release = [].

Global Instance node_eq_dec : EqDecision node.
Proof. solve_decision. Defined.

Global Instance color_eq_dec : EqDecision color.
Proof. solve_decision. Defined.

Global Instance line_eq_dec : EqDecision line.
Proof. solve_decision. Defined.

(** A listing without sub-directories. *)
Definition regular_files (listing : gmap string node) : Prop :=
  map_Forall (λ _ entry, entry ≠ Dir) listing.

(** The entries of a listing whose name ends with [.jar], and the others. *)
Definition jars (listing : gmap string node) : gmap string node :=
  filter (λ entry, endsWith entry.1 ".jar" = true) listing.

Definition non_jars (listing : gmap string node) : gmap string node :=
  filter (λ entry, endsWith entry.1 ".jar" ≠ true) listing.

(** No entry of [dir] is lost between [before] and [after]: it is still in
    place, or it is gone from [dir] and [backup] holds its bytes under the
    same name. *)
Definition kept (dir backup : string) (before after : FS) : Prop :=
  ∀ file,
    lookup_entry after dir file = lookup_entry before dir file
    ∨ (lookup_entry after dir file = None
       ∧ ∃ bytes, lookup_entry before dir file = Some (File bytes)
                  ∧ lookup_entry after backup file = Some (File bytes)).

(** [steps R m]: whatever the outcome of [m], the file systems before and
    after it are related by [R]. *)
Definition steps {A} (R : relation FS) (m : M A) : Prop :=
  ∀ w r w', m w = (r, w') → R (fs w) (fs w').

(** [kept] as a relation between the states of a run that started in
    [origin]. *)
Definition keeps (dir backup : string) (origin : FS) : relation FS :=
  λ f f', kept dir backup origin f → kept dir backup origin f'.

(** Entries are only ever added. *)
Definition grows : relation FS :=
  λ f f', ∀ dir file, is_Some (lookup_entry f dir file)
                      → is_Some (lookup_entry f' dir file).

(** Only the listings of [dirs] may change. *)
Definition touches (dirs : list string) : relation FS :=
  λ f f', ∀ dir, dir ∉ dirs → f' !! dir = f !! dir.

(** The shape shared by the two halves of the local merge: [select] picks
    the staged entries to merge, [found] and [missing] are the two log
    lines. *)
Definition mergeDir (p : Paths) (srcDir : string) (isShader : bool)
    (select : list string → list string) (found missing : string)
    (localCopyCount : nat) : M nat :=
  staged ← existsSync srcDir;
  if staged : bool then
    log cyan found;;
    entries ← readdirSync srcDir;
    for_of (select entries) (mergeFile p srcDir isShader) localCopyCount
  else
    log yellow missing;;
    mret localCopyCount.

(** The lines of a local-merge stage that finds every staged file
    installed already. *)
Definition rerun_dir_lines (f : FS) (srcDir : string)
    (select : list string → list string) (found missing : string) : list line :=
  match f !! srcDir with
  | Some staged => Log cyan found :: (skipped <$> select (map_to_list staged).*1)
  | None => [Log yellow missing]
  end.

Definition rerun_lines (p : Paths) (f : FS) : list line :=
  [Log green "[4/5] Installing local mods and shaders..."; Plain EmptyString]
  ++ rerun_dir_lines f (LOCAL_MODS_DIR p) (filter (λ file, endsWith file ".jar"))
       ("Checking local mods directory: " +:+ LOCAL_MODS_DIR p)
       ("  ⚠ Local mods directory not found: " +:+ LOCAL_MODS_DIR p)
  ++ [Plain EmptyString]
  ++ rerun_dir_lines f (LOCAL_SHADERS_DIR p) (λ entries, entries)
       ("Checking local shaders directory: " +:+ LOCAL_SHADERS_DIR p)
       ("  ⚠ Local shaderpacks directory not found: " +:+ LOCAL_SHADERS_DIR p)
  ++ [Plain EmptyString;
      Log cyan "Copied 0 file(s) from local directories";
      Plain EmptyString].

(** ** Sample hosts, worlds and runs *)

(** [path.posix.join] and [path.win32.join] on the absolute paths of the
    sample hosts: the segments of the joined path, with [.] and empty
    segments dropped and [..] climbing one level, never above the root. *)
Fixpoint segments (is_sep : ascii → bool) (s : string) : list string :=
  match s with
  | EmptyString => [EmptyString]
  | String c s' =>
      if is_sep c then EmptyString :: segments is_sep s'
      else match segments is_sep s' with
           | segment :: rest => String c segment :: rest
           | [] => [String c EmptyString]
           end
  end.

(** The stack is kept with its last segment first. *)
Fixpoint normalize (stack : list string) (path : list string) : list string :=
  match path with
  | [] => stack
  | segment :: rest =>
      if String.eqb segment EmptyString || String.eqb segment "."
      then normalize stack rest
      else if String.eqb segment ".." then normalize (tail stack) rest
      else normalize (segment :: stack) rest
  end.

(** The entry that the normalised path designates below [root]; none for
    the root itself and for a path that ends with a separator. *)
Definition entry_below (separator root : string) (path : list string)
  : option (string * string) :=
  match last path with
  | Some EmptyString => None
  | _ =>
      match normalize [] path with
      | [] => None
      | entry :: above =>
          Some (foldl (λ parent segment, parent +:+ separator +:+ segment)
                      root (rev above), entry)
      end
  end.

Definition posix_entry (dir name : string) : option (string * string) :=
  let joined := if String.eqb name EmptyString then dir else dir +:+ "/" +:+ name in
  match segments (Ascii.eqb "/") joined with
  | EmptyString :: path => entry_below "/" EmptyString path
  | _ => None
  end.

Definition is_drive (segment : string) : bool :=
  match segment with
  | String _ (String ":" EmptyString) => true
  | _ => false
  end.

Definition win32_entry (dir name : string) : option (string * string) :=
  let joined := if String.eqb name EmptyString then dir else dir +:+ "\" +:+ name in
  match segments (λ c, Ascii.eqb c "/" || Ascii.eqb c "\") joined with
  | drive :: path =>
      if is_drive drive then entry_below "\" drive path else None
  | [] => None
  end.

Definition linux_host : Host :=
  {| platform := "linux"; homedir := "/home/alex"; APPDATA := None;
     SCRIPT_DIR := "/home/alex/fabric-helper";
     cwd := "/home/alex/fabric-helper"; path_entry := posix_entry |}.

Definition mac_host : Host :=
  {| platform := "darwin"; homedir := "/Users/alex"; APPDATA := None;
     SCRIPT_DIR := "/Users/alex/fabric-helper";
     cwd := "/Users/alex/fabric-helper"; path_entry := posix_entry |}.

Definition windows_host (appData : option string) : Host :=
  {| platform := "win32"; homedir := "C:\Users\alex"; APPDATA := appData;
     SCRIPT_DIR := "C:\Users\alex\fabric-helper";
     cwd := "C:\Users\alex\fabric-helper"; path_entry := win32_entry |}.

Definition linux_paths : Paths := paths_of linux_host "/home/alex/.minecraft".

(** Two moments of the same day, more than twelve hours apart. *)
Definition morning : Date :=
  {| year := 2025; month := 11; day := 2;
     hours := 9; minutes := 5; seconds := 7; milliseconds := 45 |}.

Definition evening : Date :=
  {| year := 2025; month := 11; day := 2;
     hours := 21; minutes := 40; seconds := 33; milliseconds := 120 |}.

Definition offline : string → option Response := λ _, None.

Definition linux_run (version cleanup : option string) (clock : Date)
    (net : string → option Response) : Inputs :=
  {| host := linux_host; mcVersionPrompt := version; cleanupPrompt := cleanup;
     now := clock; network := net; java_version := true;
     fabric_installer := λ _ _, true |}.

Definition cleanup_run (clock : Date) : Inputs :=
  linux_run (Some "1.21.10") (Some "y") clock offline.

(** The answer to the version prompt is three spaces. *)
Definition blank_version_run : Inputs :=
  linux_run (Some "   ") None morning offline.

Definition world_of (f : FS) : World := {| fs := f; out := [] |}.

Definition tally (copied downloaded unavailable present : nat) : Counters :=
  {| localCopyCount := copied; successCount := downloaded;
     failCount := unavailable; skipCount := present |}.

(** Nothing is installed yet. *)
Definition fresh_install : FS :=
  {[ "/home/alex/fabric-helper" := {[ INSTALLER := File "installer" ]};
     "/home/alex/.minecraft/mods" := ∅;
     "/home/alex/.minecraft/shaderpacks" := ∅ ]}.

(** Every package but Sodium is installed already, the shader pack too. *)
Definition installed_but_sodium : FS :=
  {[ "/home/alex/fabric-helper" := {[ INSTALLER := File "installer" ]};
     "/home/alex/.minecraft/mods" :=
       {[ "fabric-api-0.100.jar" := File "a";
          "lambdynamiclights-2.3.jar" := File "b";
          "modmenu-9.0.0.jar" := File "c";
          "Xaeros_Minimap_24.1.jar" := File "d";
          "xaeros-world-map-1.38.jar" := File "e" ]};
     "/home/alex/.minecraft/shaderpacks" :=
       {[ "ComplementaryReimagined_r5.2.zip" := File "f" ]} ]}.

(** A file that mentions a slug without being a [.jar], in both installed
    directories. *)
Definition notes_only : FS :=
  {[ "/home/alex/.minecraft/mods" := {[ "sodium-notes.txt" := File "n" ]};
     "/home/alex/.minecraft/shaderpacks" := {[ "sodium-notes.txt" := File "n" ]} ]}.

(** Three mods, a settings file and a shader pack are installed; nothing
    was ever backed up. *)
Definition three_mods : gmap string node :=
  {[ "sodium-0.5.8.jar" := File "s"; "modmenu-9.0.0.jar" := File "m";
     "fabric-api-0.100.jar" := File "a"; "options.txt" := File "o" ]}.

Definition one_shader : gmap string node :=
  {[ "ComplementaryReimagined_r5.2.zip" := File "c" ]}.

Definition three_mods_installed : FS :=
  {[ "/home/alex/fabric-helper" := {[ INSTALLER := File "installer" ]};
     "/home/alex/.minecraft/mods" := three_mods;
     "/home/alex/.minecraft/shaderpacks" := one_shader ]}.

(** One mod is installed and one file waits in local staging. *)
Definition one_mod_one_staged : FS :=
  {[ "/home/alex/fabric-helper" := {[ INSTALLER := File "installer" ]};
     "/home/alex/fabric-helper/minecraft/mods" := {[ "custom.jar" := File "x" ]};
     "/home/alex/.minecraft/mods" := {[ "old.jar" := File "o" ]};
     "/home/alex/.minecraft/shaderpacks" := ∅ ]}.

(** The staged file is installed already. *)
Definition staged_and_installed : FS :=
  {[ "/home/alex/fabric-helper/minecraft/mods" := {[ "custom.jar" := File "x" ]};
     "/home/alex/.minecraft/mods" := {[ "custom.jar" := File "x" ]};
     "/home/alex/.minecraft/shaderpacks" := ∅ ]}.

(** The shaderpacks directory holds an unpacked shader pack, that is, a
    sub-directory. *)
Definition unpacked_shader : FS :=
  {[ "/home/alex/fabric-helper" := {[ INSTALLER := File "installer" ]};
     "/home/alex/.minecraft/mods" := {[ "sodium-0.5.8.jar" := File "s" ]};
     "/home/alex/.minecraft/shaderpacks" := {[ "ComplementaryShaders" := Dir ]};
     "/home/alex/.minecraft/shaderpacks/ComplementaryShaders" :=
       {[ "shaders.properties" := File "p" ]} ]}.

(** Registry answers: the empty array, one release with one file, and the
    bytes of a download. *)
Definition empty_answer : Response :=
  {| ok := true; status := 200; statusText := "OK"; json := BodyVersions [];
     arrayBuffer := "[]" |}.

Definition release_of (projectSlug : string) : Response :=
  {| ok := true; status := 200; statusText := "OK";
     json := BodyVersions
       [Some {| version_number := "1.0.0";
                files := [{| url := "https://cdn.modrinth.com/" +:+ projectSlug;
                             filename := projectSlug +:+ "-1.0.0.jar" |}] |}];
     arrayBuffer := EmptyString |}.

Definition download_of (projectSlug : string) : Response :=
  {| ok := true; status := 200; statusText := "OK"; json := BodyInvalid;
     arrayBuffer := "bytes of " +:+ projectSlug |}.

(** A registry that knows no release of Sodium for 1.21.10 and is
    unreachable otherwise. *)
Definition registry_without_sodium (target : string) : option Response :=
  if String.eqb target (apiUrl "sodium" "1.21.10") then Some empty_answer
  else None.

(** The end-to-end scenario of the specification: the registry has one
    release with one file for every package except Sodium, for which it
    answers with the empty array. *)
Fixpoint registry_of (slugs : list string) (target : string) : option Response :=
  match slugs with
  | [] => None
  | projectSlug :: rest =>
      if String.eqb target (apiUrl projectSlug "1.21.10")
      then Some (release_of projectSlug)
      else if String.eqb target ("https://cdn.modrinth.com/" +:+ projectSlug)
      then Some (download_of projectSlug)
      else registry_of rest target
  end.

Definition registry_all_but_sodium (target : string) : option Response :=
  if String.eqb target (apiUrl "sodium" "1.21.10") then Some empty_answer
  else registry_of ["fabric-api"; "lambdynamiclights"; "modmenu";
                    "xaeros-minimap"; "xaeros-world-map";
                    "complementary-reimagined"] target.

(** ** Further vocabulary *)


(** Entries stay, with their node. *)
Definition persists : relation FS :=
  λ f f', ∀ dir file entry, lookup_entry f dir file = Some entry
                            → lookup_entry f' dir file = Some entry.

(** The entries of [dir] whose name does not end with [.jar] are as they
    were. *)
Definition spares_non_jars (dir : string) : relation FS :=
  λ f f', ∀ file, endsWith file ".jar" = false
                  → lookup_entry f' dir file = lookup_entry f dir file.

(** [process.exit] is only ever called with status 1. *)
Definition exits_with_one {A} (m : M A) : Prop :=
  ∀ w code w', m w = (Exit code, w') → code = 1.


(** Every character of a string passes a test. *)
Fixpoint string_forall (test : ascii → bool) (s : string) : bool :=
  match s with
  | EmptyString => true
  | String c s' => test c && string_forall test s'
  end.

(** The characters [encodeURIComponent] can produce. *)
Definition url_safe (c : ascii) : bool := is_unreserved c || Ascii.eqb c "%".

(** The file names the registry serves: the name of the first file of the
    first release of some answer. *)
Definition served (i : Inputs) (name : string) : Prop :=
  ∃ target response release rest file more,
    network i target = Some response
    ∧ json response = BodyVersions (Some release :: rest)
    ∧ files release = file :: more
    ∧ filename file = name.

(** The lines of the summary around its verdict (index.ts, lines 441-450
    and 475-483). *)
Definition summary_counters (mcVersion : string) (c : Counters) : list line :=
  [Plain EmptyString;
   Log blue banner_top;
   Log blue "║           Installation Summary         ║";
   Log blue banner_top;
   Plain EmptyString;
   Log green ("✓ Copied from local: " +:+ pretty (localCopyCount c));
   Log green ("✓ Downloaded: " +:+ pretty (successCount c));
   Log cyan ("ℹ Already installed: " +:+ pretty (skipCount c));
   Log yellow ("⚠ Not available for " +:+ mcVersion +:+ ": "
               +:+ pretty (failCount c));
   Plain EmptyString].

Definition next_steps : list line :=
  [Plain EmptyString;
   Log blue "Next steps:";
   Plain "1. Launch Minecraft";
   Plain "2. Select the Fabric profile (should be auto-created)";
   Plain "3. Only the compatible mods will load";
   Plain EmptyString;
   Log cyan "Tip: Keep your local minecraft/mods folder updated for easy reinstalls!";
   Plain EmptyString].

(** The directories a run may write to. *)
Definition written_dirs (i : Inputs) (p : Paths) : list string :=
  [cwd (host i); MODS_DIR p; SHADERPACKS_DIR p;
   backupModsDir (host i) (now i); backupShadersDir (host i) (now i)].

(** A run whose registry has a release of Sodium only. *)
Definition registry_with_sodium : string → option Response :=
  registry_of ["sodium"].

Definition sodium_run : Inputs :=
  linux_run (Some "1.21.10") None morning registry_with_sodium.

(** A host without the installer artifact, and one where it is there. *)
Definition no_installer : FS :=
  {[ "/home/alex/fabric-helper" := ∅ ]}.

Definition installer_answer : Response :=
  {| ok := true; status := 200; statusText := "OK"; json := BodyInvalid;
     arrayBuffer := "installer bytes" |}.

Definition maven (target : string) : option Response :=
  if String.eqb target INSTALLER_URL then Some installer_answer else None.

Definition not_found : Response :=
  {| ok := false; status := 404; statusText := "Not Found"; json := BodyInvalid;
     arrayBuffer := EmptyString |}.

Definition maven_404 (target : string) : option Response :=
  if String.eqb target INSTALLER_URL then Some not_found else None.


(** Two files are staged; one of them is installed already, with other
    bytes. *)
Definition two_staged_one_installed : FS :=
  {[ "/home/alex/fabric-helper/minecraft/mods" :=
       {[ "custom.jar" := File "new"; "extra.jar" := File "e";
          "readme.txt" := File "r" ]};
     "/home/alex/.minecraft/mods" := {[ "custom.jar" := File "old" ]};
     "/home/alex/.minecraft/shaderpacks" := ∅ ]}.

(** The staged files that are not installed yet: the ones a merge copies. *)
Definition to_copy (f : FS) (installed : string) (files : list string)
  : list string :=
  filter (λ file, lookup_entry f installed file = None) files.

(** * Properties *)

(** ** Strings *)

Lemma startsWith_spec s p :
  startsWith s p = true ↔ ∃ post, s = p +:+ post.
Proof.
  revert s; induction p as [|a p IH]; intros s; simpl.
  - split; [intros _; by exists s | done].
  - destruct s as [|b s].
    + split; [intros ?; discriminate | intros [post Hpost]; discriminate].
    + rewrite andb_true_iff, IH. split.
      * intros [Hab [post ->]]. apply Ascii.eqb_eq in Hab as ->. by exists post.
      * intros [post Hpost]. injection Hpost as -> ->.
        split; [apply Ascii.eqb_refl | by exists post].
Qed.

Lemma includes_spec s needle :
  includes s needle = true ↔ Substring needle s.
Proof.
  unfold Substring. induction s as [|c s IH]; simpl.
  - rewrite orb_false_r, startsWith_spec. split.
    + intros [post Hpost]. by exists EmptyString, post.
    + intros [pre [post Hpp]]. destruct pre; simpl in Hpp; [by exists post | done].
  - rewrite orb_true_iff, startsWith_spec, IH. split.
    + intros [[post Hpost] | [pre [post Hpp]]].
      * by exists EmptyString, post.
      * exists (String c pre), post. simpl. by rewrite Hpp.
    + intros [pre [post Hpp]]. destruct pre as [|d pre]; simpl in Hpp.
      * left. by exists post.
      * right. injection Hpp as _ Hs. by exists pre, post.
Qed.

Lemma endsWith_spec s suffix :
  endsWith s suffix = true ↔ Suffix suffix s.
Proof.
  unfold Suffix. induction s as [|c s IH]; cbn [endsWith].
  - rewrite orb_false_r, String.eqb_eq. split.
    + intros <-. by exists EmptyString.
    + intros [pre Hpre]. destruct pre; simpl in Hpre; [done | discriminate].
  - rewrite orb_true_iff, String.eqb_eq, IH. split.
    + intros [<- | [pre ->]]; [by exists EmptyString | by exists (String c pre)].
    + intros [pre Hpre]. destruct pre as [|d pre]; simpl in Hpre.
      * by left.
      * right. injection Hpre as _ Hs. by exists pre.
Qed.

(** ** The matching heuristic *)

(** C3: [modMatchesFilename] holds exactly when the lowercased file name
    contains the lowercased slug, or the lowercased slug with each hyphen
    turned into an underscore, as a substring.  The two examples of the
    specification evaluate as stated, and file names that write the slug
    with another separator pattern are not matched. *)
Theorem modMatchesFilename_iff_substring :
  (∀ filename slug : string,
      modMatchesFilename filename slug = true
      ↔ Substring (toLowerCase slug) (toLowerCase filename)
        ∨ Substring (replace_hyphens (toLowerCase slug)) (toLowerCase filename))
  ∧ modMatchesFilename "sodium-fabric-0.5.8.jar" "sodium" = true
  ∧ modMatchesFilename "modmenu-9.0.0.jar" "sodium" = false
  ∧ modMatchesFilename "Xaeros_Minimap_24.1.jar" "xaeros-minimap" = true
  ∧ modMatchesFilename "xaeros.minimap-24.1.jar" "xaeros-minimap" = false
  ∧ modMatchesFilename "lamb_dynamic_lights-2.3.jar" "lambdynamiclights" = false.
Proof.
  split; [|by vm_compute].
  intros filename slug. unfold modMatchesFilename.
  by rewrite orb_true_iff, !includes_spec.
Qed.

(** ** The Environment Resolver *)

(** C7: the resolver returns [<home>/Library/Application Support/minecraft]
    on darwin, [APPDATA] joined with [.minecraft] on win32, [<home>/.minecraft]
    on every other platform, and throws the configuration error on win32
    when [APPDATA] is unset. *)
Theorem getMinecraftDir_by_platform (h : Host) :
  (platform h = "darwin" →
     getMinecraftDir h
     = Ok (join h (homedir h) "Library/Application Support/minecraft"))
  ∧ (∀ appData, platform h = "win32" → APPDATA h = Some appData →
       appData ≠ EmptyString →
       getMinecraftDir h = Ok (join h appData ".minecraft"))
  ∧ (platform h = "win32" → APPDATA h = None →
       getMinecraftDir h
       = Throw (Error "APPDATA environment variable not found on Windows"))
  ∧ (platform h ≠ "darwin" → platform h ≠ "win32" →
       getMinecraftDir h = Ok (join h (homedir h) ".minecraft")).
Proof.
  unfold getMinecraftDir. repeat split.
  - by intros ->.
  - intros appData -> -> Hne. simpl.
    by destruct (String.eqb_spec appData EmptyString).
  - by intros -> ->.
  - intros Hd Hw.
    destruct (String.eqb_spec (platform h) "darwin"); [done|].
    by destruct (String.eqb_spec (platform h) "win32").
Qed.

Lemma getMinecraftDir_by_platform_witness :
  getMinecraftDir mac_host
  = Ok "/Users/alex/Library/Application Support/minecraft"
  ∧ getMinecraftDir (windows_host (Some "C:\Users\alex\AppData\Roaming"))
    = Ok "C:\Users\alex\AppData\Roaming\.minecraft"
  ∧ getMinecraftDir (windows_host None)
    = Throw "Error: APPDATA environment variable not found on Windows"
  ∧ getMinecraftDir linux_host = Ok "/home/alex/.minecraft".
Proof.
  split; [|split; [|split]].
  - apply (proj1 (getMinecraftDir_by_platform mac_host)). reflexivity.
  - apply (proj1 (proj2 (getMinecraftDir_by_platform
                           (windows_host (Some "C:\Users\alex\AppData\Roaming"))))
             "C:\Users\alex\AppData\Roaming"); [reflexivity | reflexivity | discriminate].
  - apply (proj1 (proj2 (proj2 (getMinecraftDir_by_platform (windows_host None)))));
      reflexivity.
  - apply (proj2 (proj2 (proj2 (getMinecraftDir_by_platform linux_host))));
      discriminate.
Defined.

(** ** The summary *)

(** C1 as stated fails: a run in which six packages are found installed and
    one is unavailable is reported as a total failure, although packages
    were sourced (as already present). *)
Lemma verdict_skipped_only_counterexample :
  let c := tally 0 0 1 6 in
  let r := script (linux_run (Some "1.21.10") None morning offline)
             (world_of installed_but_sodium) in
  r.1 = Ok c
  ∧ failCount c ≠ 0
  ∧ 0 < localCopyCount c + successCount c + skipCount c
  ∧ verdict c = TotalFailure
  ∧ Log red "⚠ No mods could be downloaded for Minecraft 1.21.10." ∈ out r.2.
Proof.
  cbv zeta. split; [by vm_compute|]. split; [done|]. split; [simpl; lia|].
  split; [done|]. apply list_elem_of_In. vm_compute. tauto.
Qed.

(** ** The backup directory name *)

Lemma digit_cases n :
  digit n ∈ ["0"; "1"; "2"; "3"; "4"; "5"; "6"; "7"; "8"; "9"]%char.
Proof.
  unfold digit. pose proof (Nat.mod_upper_bound n 10 ltac:(lia)) as Hlt.
  destruct (n mod 10) as [|[|[|[|[|[|[|[|[|[|k]]]]]]]]]]; [.. | lia];
    apply list_elem_of_In; simpl; tauto.
Qed.

Lemma digit_plain n :
  Ascii.eqb (digit n) ":" = false ∧ Ascii.eqb (digit n) "." = false
  ∧ Ascii.eqb (digit n) "T" = false.
Proof.
  pose proof (digit_cases n) as Hd. apply list_elem_of_In in Hd. simpl in Hd.
  repeat (destruct Hd as [<- | Hd]; [done|]). done.
Qed.

Lemma digit_inj a b : digit a = digit b → a mod 10 = b mod 10.
Proof.
  unfold digit. intros Heq. apply (f_equal nat_of_ascii) in Heq.
  pose proof (Nat.mod_upper_bound a 10 ltac:(lia)).
  pose proof (Nat.mod_upper_bound b 10 ltac:(lia)).
  rewrite !nat_ascii_embedding in Heq by lia. lia.
Qed.

Lemma pad2_inj a b : a < 100 → b < 100 → pad2 a = pad2 b → a = b.
Proof.
  unfold pad2. intros Ha Hb Heq. injection Heq as H1 H0.
  apply digit_inj in H1, H0.
  change ((a / 10) mod 10 = (b / 10) mod 10) in H1.
  pose proof (Nat.div_mod_eq a 10). pose proof (Nat.div_mod_eq b 10).
  assert (a / 10 < 10) by (apply Nat.Div0.div_lt_upper_bound; lia).
  assert (b / 10 < 10) by (apply Nat.Div0.div_lt_upper_bound; lia).
  rewrite (Nat.mod_small (a / 10)), (Nat.mod_small (b / 10)) in H1 by lia. lia.
Qed.

Lemma pad4_inj a b : a < 100 * 100 → b < 100 * 100 → pad4 a = pad4 b → a = b.
Proof.
  unfold pad4, pad3, pad2. intros Ha Hb Heq. injection Heq as H3 H2 H1 H0.
  apply digit_inj in H3, H2, H1, H0.
  change ((a / 1000) mod 10 = (b / 1000) mod 10) in H3.
  change ((a / 100) mod 10 = (b / 100) mod 10) in H2.
  change ((a / 10) mod 10 = (b / 10) mod 10) in H1.
  replace (a / 100) with (a / 10 / 10) in *
    by (rewrite Nat.Div0.div_div; reflexivity).
  replace (b / 100) with (b / 10 / 10) in *
    by (rewrite Nat.Div0.div_div; reflexivity).
  replace (a / 1000) with (a / 10 / 10 / 10) in *
    by (rewrite !Nat.Div0.div_div; reflexivity).
  replace (b / 1000) with (b / 10 / 10 / 10) in *
    by (rewrite !Nat.Div0.div_div; reflexivity).
  pose proof (Nat.div_mod_eq a 10). pose proof (Nat.div_mod_eq b 10).
  pose proof (Nat.div_mod_eq (a / 10) 10). pose proof (Nat.div_mod_eq (b / 10) 10).
  pose proof (Nat.div_mod_eq (a / 10 / 10) 10).
  pose proof (Nat.div_mod_eq (b / 10 / 10) 10).
  assert (a / 10 / 10 / 10 < 10)
    by (repeat apply Nat.Div0.div_lt_upper_bound; lia).
  assert (b / 10 / 10 / 10 < 10)
    by (repeat apply Nat.Div0.div_lt_upper_bound; lia).
  rewrite (Nat.mod_small (a / 10 / 10 / 10)),
          (Nat.mod_small (b / 10 / 10 / 10)) in H3 by lia.
  lia.
Qed.

Lemma append_cancel_l (a x y : string) : a +:+ x = a +:+ y → x = y.
Proof. induction a as [|c a IH]; simpl; [done|]. intros [= Heq]. auto. Qed.

Lemma timestamp_is_the_date (d : Date) :
  timestamp d
  = pad4 (year d) +:+ "-" +:+ pad2 (month d) +:+ "-" +:+ pad2 (day d).
Proof.
  unfold timestamp, toISOString, pad4, pad3, pad2.
  cbv [String.append].
  repeat (cbn -[digit Nat.div Nat.modulo Ascii.eqb];
          rewrite ?(proj1 (digit_plain _)), ?(proj1 (proj2 (digit_plain _))),
                  ?(proj2 (proj2 (digit_plain _)));
          progress cbn -[digit Nat.div Nat.modulo]).
  by rewrite ?(proj2 (proj2 (digit_plain _))).
Qed.

(** C6, as the code has it: the backup directory name embeds the UTC
    calendar date only ([YYYY-MM-DD]); two cleanup runs on the same UTC day
    share the backup directory whatever their times, and runs on
    different days get different directories. *)
Theorem backupDir_by_calendar_day (h : Host) (d1 d2 : Date) :
  timestamp d1
  = pad4 (year d1) +:+ "-" +:+ pad2 (month d1) +:+ "-" +:+ pad2 (day d1)
  ∧ (year d1 = year d2 → month d1 = month d2 → day d1 = day d2 →
       backupDir h d1 = backupDir h d2)
  ∧ (calendar d1 → calendar d2 → backupDir h d1 = backupDir h d2 →
       year d1 = year d2 ∧ month d1 = month d2 ∧ day d1 = day d2).
Proof.
  split; [apply timestamp_is_the_date|]. split.
  - intros Hy Hm Hd. unfold backupDir. by rewrite !timestamp_is_the_date, Hy, Hm, Hd.
  - intros (Hy1 & Hm1 & Hd1 & _) (Hy2 & Hm2 & Hd2 & _) Heq.
    unfold backupDir, join in Heq.
    do 3 apply append_cancel_l in Heq.
    rewrite !timestamp_is_the_date in Heq.
    unfold pad4, pad3, pad2 in Heq. cbv [String.append] in Heq.
    injection Heq as E1 E2 E3 E4 E5 E6 E7 E8.
    change (digit (year d1 / 1000) = digit (year d2 / 1000)) in E1.
    change (digit (year d1 / 100) = digit (year d2 / 100)) in E2.
    change (digit (year d1 / 10) = digit (year d2 / 10)) in E3.
    change (digit (month d1 / 10) = digit (month d2 / 10)) in E5.
    change (digit (day d1 / 10) = digit (day d2 / 10)) in E7.
    assert (pad4 (year d1) = pad4 (year d2)) as Hyear
      by (unfold pad4, pad3, pad2; congruence).
    apply pad4_inj in Hyear; [|lia..].
    assert (pad2 (month d1) = pad2 (month d2)) as Hmm by (unfold pad2; congruence).
    apply pad2_inj in Hmm; [|lia..].
    assert (pad2 (day d1) = pad2 (day d2)) as Hdd by (unfold pad2; congruence).
    apply pad2_inj in Hdd; [|lia..]. done.
Qed.

Lemma backupDir_by_calendar_day_witness :
  timestamp morning = "2025-11-02"
  ∧ backupDir linux_host morning = backupDir linux_host evening
  ∧ (backupDir linux_host morning = backupDir linux_host evening →
       year morning = year evening ∧ month morning = month evening
       ∧ day morning = day evening).
Proof.
  split; [|split].
  - apply (proj1 (backupDir_by_calendar_day linux_host morning evening)).
  - apply (proj1 (proj2 (backupDir_by_calendar_day linux_host morning evening)));
      reflexivity.
  - apply (proj2 (proj2 (backupDir_by_calendar_day linux_host morning evening)));
      unfold calendar; simpl; lia.
Defined.

(** C6 as stated fails: two cleanup runs more than twelve hours apart, in
    different seconds of the same day, get the same backup directory. *)
Lemma backupDir_same_day_counterexample :
  seconds morning ≠ seconds evening
  ∧ hours morning ≠ hours evening
  ∧ backupDir linux_host morning = backupDir linux_host evening
  ∧ backupDir linux_host morning
    = "/home/alex/Desktop/minecraft_mods_backup_2025-11-02".
Proof. by vm_compute. Qed.

(** ** Stepping through the monad *)

Lemma bind_ok {A B} (m : M A) (k : A → M B) w a w' :
  m w = (Ok a, w') → (m ≫= k) w = k a w'.
Proof. unfold mbind, M_bind. by intros ->. Qed.

Lemma bind_throw {A B} (m : M A) (k : A → M B) w e w' :
  m w = (Throw e, w') → (m ≫= k) w = (Throw e, w').
Proof. unfold mbind, M_bind. by intros ->. Qed.

Lemma bind_exit {A B} (m : M A) (k : A → M B) w c w' :
  m w = (Exit c, w') → (m ≫= k) w = (Exit c, w').
Proof. unfold mbind, M_bind. by intros ->. Qed.

Lemma existsSync_eq dir w :
  existsSync dir w = (Ok (bool_decide (is_Some (fs w !! dir))), w).
Proof. reflexivity. Qed.

Lemma readdir_elem (listing : gmap string node) (file : string) :
  file ∈ (map_to_list listing).*1 ↔ is_Some (listing !! file).
Proof.
  rewrite list_elem_of_fmap. split.
  - intros [[k x] [-> Hin]]. apply elem_of_map_to_list in Hin. by exists x.
  - intros [x Hx]. exists (file, x). split; [done|]. by apply elem_of_map_to_list.
Qed.

(** The two existing-installation checks read the file system and leave
    the world as it is. *)
Lemma findExistingMod_eq slug searchDir w :
  findExistingMod slug searchDir w
  = (Ok match fs w !! searchDir with
        | Some listing =>
            List.find (λ file, endsWith file ".jar" && modMatchesFilename file slug)
                      (map_to_list listing).*1
        | None => None
        end, w).
Proof.
  unfold findExistingMod. rewrite (bind_ok _ _ _ _ _ (existsSync_eq _ _)).
  unfold mbind, M_bind, readdirSync.
  destruct (fs w !! searchDir) as [listing|] eqn:Hdir.
  - rewrite bool_decide_eq_true_2 by eauto. simpl. by rewrite Hdir.
  - by rewrite bool_decide_eq_false_2 by (by intros [? ?]).
Qed.

Lemma findExistingShader_eq p slug w :
  findExistingShader p slug w
  = (Ok match fs w !! SHADERPACKS_DIR p with
        | Some listing =>
            List.find (λ file, modMatchesFilename file slug)
                      (map_to_list listing).*1
        | None => None
        end, w).
Proof.
  unfold findExistingShader. rewrite (bind_ok _ _ _ _ _ (existsSync_eq _ _)).
  unfold mbind, M_bind, readdirSync.
  destruct (fs w !! SHADERPACKS_DIR p) as [listing|] eqn:Hdir.
  - rewrite bool_decide_eq_true_2 by eauto. simpl. by rewrite Hdir.
  - by rewrite bool_decide_eq_false_2 by (by intros [? ?]).
Qed.

(** ** The existing-installation checks *)

(** C10: the mod check only ever returns an entry whose name ends with
    [.jar]; a directory without [.jar] entries yields no match whatever the
    names contain; the shader check returns a match as soon as some entry,
    of any extension, matches the slug. *)
Theorem findExistingMod_only_jar (p : Paths) (slug : string) (w : World) :
  (∀ searchDir file,
      (findExistingMod slug searchDir w).1 = Ok (Some file) →
      endsWith file ".jar" = true ∧ modMatchesFilename file slug = true
      ∧ is_Some (lookup_entry (fs w) searchDir file))
  ∧ (∀ searchDir listing,
       fs w !! searchDir = Some listing →
       (∀ file, is_Some (listing !! file) → endsWith file ".jar" = false) →
       findExistingMod slug searchDir w = (Ok None, w))
  ∧ (∀ listing file,
       fs w !! SHADERPACKS_DIR p = Some listing →
       is_Some (listing !! file) →
       modMatchesFilename file slug = true →
       ∃ found, findExistingShader p slug w = (Ok (Some found), w)
                ∧ modMatchesFilename found slug = true
                ∧ is_Some (listing !! found)).
Proof.
  split; [|split].
  - intros searchDir file. rewrite findExistingMod_eq. simpl.
    unfold lookup_entry. destruct (fs w !! searchDir) as [listing|]; [|done].
    intros [= Hfind]. apply find_some in Hfind as [Hin Htest].
    apply andb_true_iff in Htest as [Hjar Hmatch].
    apply list_elem_of_In, readdir_elem in Hin. done.
  - intros searchDir listing Hdir Hnojar. rewrite findExistingMod_eq, Hdir.
    do 2 f_equal.
    destruct (List.find _ _) as [file|] eqn:Hfind; [|done].
    apply find_some in Hfind as [Hin Htest].
    apply andb_true_iff in Htest as [Hjar _].
    apply list_elem_of_In, readdir_elem, Hnojar in Hin. congruence.
  - intros listing file Hdir Hfile Hmatch. rewrite findExistingShader_eq, Hdir.
    destruct (List.find _ _) as [found|] eqn:Hfind.
    + exists found. apply find_some in Hfind as [Hin Htest].
      apply list_elem_of_In, readdir_elem in Hin. done.
    + apply readdir_elem, list_elem_of_In in Hfile.
      pose proof (find_none _ _ Hfind _ Hfile) as Hno. simpl in Hno. congruence.
Qed.

Lemma findExistingMod_only_jar_witness :
  findExistingMod "sodium" (MODS_DIR linux_paths) (world_of notes_only)
  = (Ok None, world_of notes_only)
  ∧ ∃ found, findExistingShader linux_paths "sodium" (world_of notes_only)
             = (Ok (Some found), world_of notes_only)
             ∧ modMatchesFilename found "sodium" = true
             ∧ is_Some (({[ "sodium-notes.txt" := File "n" ]} : gmap string node)
                          !! found).
Proof.
  split.
  - apply (proj1 (proj2 (findExistingMod_only_jar linux_paths "sodium"
                           (world_of notes_only)))
             (MODS_DIR linux_paths) {[ "sodium-notes.txt" := File "n" ]}).
    + reflexivity.
    + intros file [x Hx]. apply lookup_singleton_Some in Hx as [<- _]. reflexivity.
  - apply (proj2 (proj2 (findExistingMod_only_jar linux_paths "sodium"
                           (world_of notes_only)))
             {[ "sodium-notes.txt" := File "n" ]} "sodium-notes.txt").
    + reflexivity.
    + by eexists.
    + reflexivity.
Defined.

(** ** The remote fetch loop *)

Lemma downloadMod_unavailable i p projectSlug displayName isShader v w r :
  network i (apiUrl projectSlug v) = Some r →
  unavailable r →
  ∃ w', downloadMod i p projectSlug displayName isShader v w = (Ok false, w')
        ∧ fs w' = fs w.
Proof.
  intros Hnet Hun.
  unfold downloadMod, try_catch, fetch, response_json, log, throw,
    mbind, M_bind, mret, M_ret.
  cbn. rewrite Hnet.
  destruct Hun as [Hok | [Hnull | [Hempty | (release & rest & Hfirst & Hfiles)]]].
  - rewrite Hok. cbn. by eexists.
  - destruct (ok r); cbn; [|by eexists]. rewrite Hnull. cbn. by eexists.
  - destruct (ok r); cbn; [|by eexists]. rewrite Hempty. cbn. by eexists.
  - destruct (ok r); cbn; [|by eexists]. rewrite Hfirst. cbn. rewrite Hfiles.
    cbn. by eexists.
Qed.

(** C5: a registry answer that is [null], the empty array, a non-success
    status, or whose first release has no first file makes [downloadMod]
    return [false] without touching the file system; in the loop of [main]
    the entry is then counted as unavailable and the loop goes on with the
    remaining entries; the shader entry after the loop is counted the same
    way. *)
Theorem unavailable_is_counted_and_skipped
    (i : Inputs) (p : Paths) (v : string) (entry : ModEntry)
    (rest : list ModEntry) (c : Counters) (w : World) (r : Response) :
  network i (apiUrl (slug entry) v) = Some r →
  unavailable r →
  (∀ displayName isShader,
      ∃ w', downloadMod i p (slug entry) displayName isShader v w = (Ok false, w')
            ∧ fs w' = fs w)
  ∧ ((findExistingMod (slug entry) (MODS_DIR p) w).1 = Ok None →
     ∃ w', fetchMod i p v entry c w = (Ok (count_download false c), w')
           ∧ fs w' = fs w
           ∧ failCount (count_download false c) = S (failCount c)
           ∧ successCount (count_download false c) = successCount c
           ∧ for_of (entry :: rest) (fetchMod i p v) c w
             = for_of rest (fetchMod i p v) (count_download false c) w')
  ∧ (∀ r', network i (apiUrl "complementary-reimagined" v) = Some r' →
           unavailable r' →
           (findExistingShader p "complementary" w).1 = Ok None →
           ∃ w', fetchShader i p v c w = (Ok (count_download false c), w')
                 ∧ fs w' = fs w).
Proof.
  intros Hnet Hun. split; [|split]; cycle 2.
  { intros r' Hnet' Hun' Hnone.
    destruct (downloadMod_unavailable i p "complementary-reimagined"
                "Complementary Reimagined" true v w r' Hnet' Hun')
      as (w' & Hdl & Hfs).
    exists w'. split; [|done].
    unfold fetchShader. rewrite findExistingShader_eq in Hnone. simpl in Hnone.
    erewrite bind_ok; [|apply findExistingShader_eq].
    injection Hnone as ->. cbn [falsy].
    erewrite bind_ok; [|exact Hdl]. reflexivity. }
  - intros displayName isShader. by eapply downloadMod_unavailable.
  - intros Hnone.
    destruct (downloadMod_unavailable i p (slug entry) (name entry) false v w r
                Hnet Hun) as (w' & Hdl & Hfs).
    assert (fetchMod i p v entry c w = (Ok (count_download false c), w')) as Hstep.
    { unfold fetchMod. rewrite findExistingMod_eq in Hnone. simpl in Hnone.
      erewrite bind_ok; [|apply findExistingMod_eq].
      injection Hnone as ->. cbn [falsy].
      erewrite bind_ok; [|erewrite bind_ok; [|exact Hdl]; reflexivity].
      reflexivity. }
    exists w'. repeat split; try done.
    cbn [for_of]. by erewrite bind_ok.
Qed.

Lemma unavailable_is_counted_and_skipped_witness :
  ∃ w', fetchMod (linux_run (Some "1.21.10") None morning registry_without_sodium)
          linux_paths "1.21.10" {| slug := "sodium"; name := "Sodium" |}
          (tally 0 3 0 0) (world_of fresh_install)
        = (Ok (tally 0 3 1 0), w')
        ∧ fs w' = fresh_install.
Proof.
  destruct (proj1 (proj2 (unavailable_is_counted_and_skipped
                     (linux_run (Some "1.21.10") None morning registry_without_sodium)
                     linux_paths "1.21.10" {| slug := "sodium"; name := "Sodium" |}
                     [] (tally 0 3 0 0) (world_of fresh_install) empty_answer
                     eq_refl (or_intror (or_intror (or_introl eq_refl)))))
              eq_refl)
    as (w' & Hstep & Hfs & _).
  exists w'. split; [exact Hstep | exact Hfs].
Defined.

(** ** The version prompt *)

(** An answer that is [null] or empty ends the run with status 1. *)
Lemma readConfiguration_requires_answer i w :
  falsy (mcVersionPrompt i) = true →
  readConfiguration i w
  = (Exit 1, {| fs := fs w;
                out := out w ++ [Log red "Error: Minecraft version is required!"] |}).
Proof. unfold readConfiguration. by intros ->. Qed.

(** C9 at its failing input: an answer of three spaces passes the guard,
    which looks at the answer before it is trimmed; the run goes on with
    the empty string as its game version, through the installer and down to
    the summary. *)
Theorem blank_answer_is_accepted :
  falsy (mcVersionPrompt blank_version_run) = false
  ∧ (readConfiguration blank_version_run (world_of fresh_install)).1
    = Ok {| mcVersion := EmptyString; shouldCleanup := false |}
  ∧ (script blank_version_run (world_of fresh_install)).1 = Ok (tally 0 0 7 0)
  ∧ Log green "Installing for Minecraft "
    ∈ out (script blank_version_run (world_of fresh_install)).2.
Proof.
  split; [done|]. split; [by vm_compute|]. split; [by vm_compute|].
  apply list_elem_of_In. vm_compute. tauto.
Qed.

(** ** What a computation does to the file system *)

Section Steps.

Context (R : relation FS) (HR : PreOrder R).

Lemma steps_ret {A} (a : A) : steps R (mret a).
Proof. intros w r w' [= <- <-]. reflexivity. Qed.

Lemma steps_bind {A B} (m : M A) (k : A → M B) :
  steps R m → (∀ a, steps R (k a)) → steps R (m ≫= k).
Proof.
  intros Hm Hk w r w'. unfold mbind, M_bind.
  destruct (m w) as [[a | e | c] w1] eqn:Hmw.
  - intros Hkw. etrans; [by eapply Hm | by eapply Hk].
  - intros [= <- <-]. by eapply Hm.
  - intros [= <- <-]. by eapply Hm.
Qed.

Lemma steps_log c message : steps R (log c message).
Proof. intros w r w' [= <- <-]. reflexivity. Qed.

Lemma steps_console_log text : steps R (console_log text).
Proof. intros w r w' [= <- <-]. reflexivity. Qed.

Lemma steps_existsSync dir : steps R (existsSync dir).
Proof. intros w r w' [= <- <-]. reflexivity. Qed.

Lemma steps_existsSync_entry dir file : steps R (existsSync_entry dir file).
Proof. intros w r w' [= <- <-]. reflexivity. Qed.

Lemma steps_readdirSync dir : steps R (readdirSync dir).
Proof.
  intros w r w'. unfold readdirSync.
  destruct (fs w !! dir); intros [= <- <-]; reflexivity.
Qed.

Lemma steps_if {A} (b : bool) (m1 m2 : M A) :
  steps R m1 → steps R m2 → steps R (if b then m1 else m2).
Proof. by destruct b. Qed.

Lemma steps_for_of {A S} (l : list A) (body : A → S → M S) (s : S) :
  (∀ x s, x ∈ l → steps R (body x s)) → steps R (for_of l body s).
Proof.
  revert s. induction l as [|x l IH]; intros s Hbody; simpl.
  - apply steps_ret.
  - apply steps_bind.
    + apply Hbody. left.
    + intros s'. apply IH. intros y s'' Hy. apply Hbody. by right.
Qed.

End Steps.

(** *** The primitives, through [lookup_entry] *)

Lemma ensure_dir_entry (f : FS) dir d file :
  lookup_entry (ensure_dir dir f) d file = lookup_entry f d file.
Proof.
  unfold ensure_dir, lookup_entry.
  destruct (f !! dir) as [listing|] eqn:Hdir; [done|].
  destruct (decide (d = dir)) as [->|Hne].
  - by rewrite lookup_insert_eq, Hdir.
  - by rewrite lookup_insert_ne.
Qed.

Lemma ensure_dir_same (f : FS) dir :
  ensure_dir dir f !! dir = Some (default ∅ (f !! dir)).
Proof.
  unfold ensure_dir. destruct (f !! dir) as [listing|] eqn:Hdir.
  - by rewrite Hdir.
  - by rewrite lookup_insert_eq.
Qed.

Lemma ensure_dir_other (f : FS) dir d :
  d ≠ dir → ensure_dir dir f !! d = f !! d.
Proof.
  intros Hne. unfold ensure_dir. destruct (f !! dir); [done|].
  by rewrite lookup_insert_ne.
Qed.

Lemma lookup_entry_write (f : FS) dir file bytes d n :
  lookup_entry (write_entry f dir file bytes) d n
  = if decide (d = dir ∧ n = file) then Some (File bytes) else lookup_entry f d n.
Proof.
  unfold lookup_entry, write_entry.
  destruct (decide (d = dir)) as [->|Hd].
  - rewrite lookup_insert_eq. simpl.
    destruct (decide (n = file)) as [->|Hn].
    + rewrite lookup_insert_eq. by rewrite decide_True.
    + rewrite lookup_insert_ne by done. rewrite decide_False by (by intros [? ?]).
      by destruct (f !! dir).
  - rewrite lookup_insert_ne by done. by rewrite decide_False by (by intros [? ?]).
Qed.

Lemma lookup_entry_delete (f : FS) dir listing file d n :
  f !! dir = Some listing →
  lookup_entry (<[dir := delete file listing]> f) d n
  = if decide (d = dir ∧ n = file) then None else lookup_entry f d n.
Proof.
  intros Hdir. unfold lookup_entry.
  destruct (decide (d = dir)) as [->|Hd].
  - rewrite lookup_insert_eq, Hdir. simpl.
    destruct (decide (n = file)) as [->|Hn].
    + rewrite lookup_delete_eq. by rewrite decide_True.
    + rewrite lookup_delete_ne by done. by rewrite decide_False by (by intros [? ?]).
  - rewrite lookup_insert_ne by done. by rewrite decide_False by (by intros [? ?]).
Qed.

(** A copy changes one entry, and only when it succeeds. *)
Lemma copyFileSync_lookup srcDir src dstDir dst w r w' :
  copyFileSync srcDir src dstDir dst w = (r, w') →
  out w' = out w
  ∧ ((r = Ok tt
      ∧ ∃ bytes, lookup_entry (fs w) srcDir src = Some (File bytes)
                 ∧ fs w' = write_entry (fs w) dstDir dst bytes)
     ∨ (r ≠ Ok tt ∧ fs w' = fs w)).
Proof.
  unfold copyFileSync.
  destruct (lookup_entry (fs w) srcDir src) as [[bytes|]|] eqn:Hsrc;
    [| intros [= <- <-]; split; [done|]; by right..].
  destruct (fs w !! dstDir) as [listing|]; [| intros [= <- <-]; split; [done|]; by right].
  destruct (listing !! dst) as [[?|]|]; intros [= <- <-]; naive_solver.
Qed.

(** A removal deletes one regular file, and only when it succeeds. *)
Lemma rmSync_lookup dir file w r w' :
  rmSync dir file w = (r, w') →
  out w' = out w
  ∧ ((r = Ok tt
      ∧ ∃ listing bytes, fs w !! dir = Some listing
                         ∧ listing !! file = Some (File bytes)
                         ∧ fs w' = <[dir := delete file listing]> (fs w))
     ∨ (r ≠ Ok tt ∧ fs w' = fs w)).
Proof.
  unfold rmSync. destruct (fs w !! dir) as [listing|] eqn:Hdir;
    [| intros [= <- <-]; split; [done|]; by right].
  destruct (listing !! file) as [[bytes|]|] eqn:Hfile;
    intros [= <- <-]; naive_solver.
Qed.

(** ** The cleanup stage *)

(** *** Nothing is deleted before it is backed up *)

Lemma NoDup_four (a b c d : string) :
  NoDup [a; b; c; d] → a ≠ b ∧ a ≠ c ∧ a ≠ d ∧ b ≠ c ∧ b ≠ d ∧ c ≠ d.
Proof.
  rewrite !NoDup_cons, !not_elem_of_cons. tauto.
Qed.

Global Instance keeps_preorder dir backup origin :
  PreOrder (keeps dir backup origin).
Proof. split; unfold keeps; [intros f; auto | intros f g k; auto]. Qed.

Lemma kept_refl dir backup f : kept dir backup f f.
Proof. intros file. by left. Qed.

Lemma keeps_frame dir backup origin (f f' : FS) :
  (∀ file, lookup_entry f' dir file = lookup_entry f dir file) →
  (∀ file, lookup_entry f' backup file = lookup_entry f backup file) →
  keeps dir backup origin f f'.
Proof.
  intros Hdir Hbackup Hkept file. rewrite Hdir, Hbackup. apply Hkept.
Qed.

Lemma keeps_mkdirSync dir backup origin d :
  steps (keeps dir backup origin) (mkdirSync d).
Proof.
  intros w r w' [= <- <-]. simpl.
  apply keeps_frame; intros file; apply ensure_dir_entry.
Qed.

(** One iteration of a backup loop, seen from its own pair of
    directories. *)
Lemma keeps_backup_own dir backup origin file :
  dir ≠ backup →
  steps (keeps dir backup origin)
        (copyFileSync dir file backup file;; rmSync dir file).
Proof.
  intros Hne w r w'. unfold mbind, M_bind.
  destruct (copyFileSync dir file backup file w) as [r1 w1] eqn:Hcopy.
  apply copyFileSync_lookup in Hcopy
    as [_ [[-> (bytes & Hsrc & Hfs1)] | [Hfail Hfs1]]]; cycle 1.
  { destruct r1 as [[]|e|c]; [done | intros [= <- <-] | intros [= <- <-]];
      rewrite Hfs1; reflexivity. }
  destruct (rmSync dir file w1) as [r2 w2] eqn:Hrm. intros Heq.
  assert (w' = w2) as -> by (destruct r2; congruence). clear Heq.
  intros Hkept name.
  apply rmSync_lookup in Hrm
    as [_ [[-> (listing & bytes' & Hdir & Hfile & Hfs2)] | [Hfail Hfs2]]].
  - rewrite Hfs2, !(lookup_entry_delete _ _ _ _ _ _ Hdir).
    rewrite Hfs1, !lookup_entry_write.
    destruct (Hkept name) as [Hsame | (Hgone & b & Horigin & Hbackup)].
    + destruct (decide (name = file)) as [->|Hname].
      * right. rewrite decide_True by done. split; [done|].
        exists bytes. rewrite <- Hsame, Hsrc.
        rewrite decide_False by (by intros [? ?]). by rewrite decide_True.
      * left. rewrite !decide_False by (by intros [? ?]). done.
    + right. destruct (decide (name = file)) as [->|Hname]; [congruence|].
      rewrite !decide_False by (by intros [? ?]). eauto.
  - rewrite Hfs2, Hfs1, !lookup_entry_write.
    rewrite (decide_False (P := dir = backup ∧ name = file)) by (by intros [? ?]).
    destruct (Hkept name) as [Hsame | (Hgone & b & Horigin & Hbackup)].
    + by left.
    + right. split; [done|]. exists b. split; [done|].
      case_decide as Hcase; [|done]. destruct Hcase as [_ ->]. congruence.
Qed.

(** One iteration of a backup loop, seen from another pair of
    directories. *)
Lemma keeps_backup_other dir backup origin dir' backup' file :
  dir' ≠ dir → dir' ≠ backup → backup' ≠ dir → backup' ≠ backup →
  steps (keeps dir backup origin)
        (copyFileSync dir' file backup' file;; rmSync dir' file).
Proof.
  intros H1 H2 H3 H4 w r w'. unfold mbind, M_bind.
  destruct (copyFileSync dir' file backup' file w) as [r1 w1] eqn:Hcopy.
  assert (∀ d n, d ≠ dir' → d ≠ backup' →
            lookup_entry (fs w1) d n = lookup_entry (fs w) d n) as Hframe1.
  { intros d n Hd Hb.
    apply copyFileSync_lookup in Hcopy
      as [_ [[_ (bytes & _ & ->)] | [_ ->]]]; [|done].
    rewrite lookup_entry_write. by rewrite decide_False by (by intros [? ?]). }
  destruct r1 as [[]|e|c]; [| intros [= <- <-]; by apply keeps_frame; auto..].
  destruct (rmSync dir' file w1) as [r2 w2] eqn:Hrm. intros Heq.
  assert (w' = w2) as -> by (destruct r2; congruence). clear Heq.
  assert (∀ d n, d ≠ dir' →
            lookup_entry (fs w2) d n = lookup_entry (fs w1) d n) as Hframe2.
  { intros d n Hd.
    apply rmSync_lookup in Hrm
      as [_ [[_ (listing & bytes & Hdir & _ & ->)] | [_ ->]]]; [|done].
    rewrite (lookup_entry_delete _ _ _ _ _ _ Hdir).
    by rewrite decide_False by (by intros [? ?]). }
  apply keeps_frame; intros name; rewrite Hframe2, Hframe1; auto.
Qed.

Lemma keeps_cleanupStage i p dir backup origin :
  let mods := MODS_DIR p in
  let shaders := SHADERPACKS_DIR p in
  let backupMods := backupModsDir (host i) (now i) in
  let backupShaders := backupShadersDir (host i) (now i) in
  NoDup [mods; shaders; backupMods; backupShaders] →
  (dir = mods ∧ backup = backupMods) ∨ (dir = shaders ∧ backup = backupShaders) →
  steps (keeps dir backup origin) (cleanupStage i p).
Proof.
  intros mods shaders backupMods backupShaders Hdistinct Hpair.
  assert (mods ≠ shaders ∧ mods ≠ backupMods ∧ mods ≠ backupShaders
          ∧ shaders ≠ backupMods ∧ shaders ≠ backupShaders
          ∧ backupMods ≠ backupShaders) as (H1 & H2 & H3 & H4 & H5 & H6).
  { by apply NoDup_four. }
  unfold cleanupStage, backupAndClean. cbv zeta.
  fold mods shaders backupMods backupShaders.
  pose proof (keeps_preorder dir backup origin) as HR.
  destruct Hpair as [[-> ->] | [-> ->]];
    repeat first
      [ solve [apply keeps_backup_own; done]
      | solve [apply keeps_backup_other; done]
      | apply (steps_log _ HR) | apply (steps_console_log _ HR)
      | apply (steps_existsSync _ HR) | apply (steps_readdirSync _ HR)
      | apply (steps_ret _ HR) | apply keeps_mkdirSync
      | apply (steps_bind _ HR); [| intros ?]
      | apply steps_if
      | apply (steps_for_of _ HR); intros ? ? ? ].
Qed.

(** *** What a completed cleanup leaves behind *)

Lemma copyFileSync_ok srcDir src dstDir dst f o bytes listing :
  lookup_entry f srcDir src = Some (File bytes) →
  f !! dstDir = Some listing →
  listing !! dst ≠ Some Dir →
  copyFileSync srcDir src dstDir dst {| fs := f; out := o |}
  = (Ok tt, {| fs := <[dstDir := <[dst := File bytes]> listing]> f; out := o |}).
Proof.
  intros Hsrc Hdir Hdst. unfold copyFileSync, write_entry. simpl.
  rewrite Hsrc, Hdir. simpl. by destruct (listing !! dst) as [[?|]|].
Qed.

Lemma rmSync_ok dir file f o listing bytes :
  f !! dir = Some listing →
  listing !! file = Some (File bytes) →
  rmSync dir file {| fs := f; out := o |}
  = (Ok tt, {| fs := <[dir := delete file listing]> f; out := o |}).
Proof. intros Hdir Hfile. unfold rmSync. simpl. by rewrite Hdir, Hfile. Qed.

Lemma readdirSync_ok dir f o listing :
  f !! dir = Some listing →
  readdirSync dir {| fs := f; out := o |}
  = (Ok (map_to_list listing).*1, {| fs := f; out := o |}).
Proof. intros Hdir. unfold readdirSync. simpl. by rewrite Hdir. Qed.

Lemma existsSync_ok dir f o listing :
  f !! dir = Some listing →
  existsSync dir {| fs := f; out := o |} = (Ok true, {| fs := f; out := o |}).
Proof.
  intros Hdir. unfold existsSync. simpl. by rewrite bool_decide_eq_true_2 by eauto.
Qed.

Lemma backupAndClean_spec dir backup files :
  dir ≠ backup → NoDup files →
  ∀ f o (installed stored : gmap string node),
    f !! dir = Some installed →
    f !! backup = Some stored →
    (∀ x, x ∈ files → ∃ bytes, installed !! x = Some (File bytes)) →
    (∀ x, x ∈ files → stored !! x ≠ Some Dir) →
    ∃ installed' stored' : gmap string node,
      backupAndClean dir backup files {| fs := f; out := o |}
      = (Ok tt, {| fs := <[dir := installed']> (<[backup := stored']> f);
                   out := o |})
      ∧ (∀ x, installed' !! x = if decide (x ∈ files) then None else installed !! x)
      ∧ (∀ x, stored' !! x
              = if decide (x ∈ files) then installed !! x else stored !! x).
Proof.
  intros Hne Hnodup. induction Hnodup as [|x files Hx Hnodup IH];
    intros f o installed stored Hdir Hbackup Hregular Hfree.
  - exists installed, stored. split; [|split].
    + unfold backupAndClean. simpl. unfold mret, M_ret. do 2 f_equal.
      rewrite (insert_id f backup) by done. symmetry. by apply insert_id.
    + intros y. by rewrite decide_False by apply not_elem_of_nil.
    + intros y. by rewrite decide_False by apply not_elem_of_nil.
  - destruct (Hregular x) as [bytes Hbytes]; [left|].
    set (f1 := <[backup := <[x := File bytes]> stored]> f).
    set (f2 := <[dir := delete x installed]> f1).
    destruct (IH f2 o (delete x installed) (<[x := File bytes]> stored))
      as (installed' & stored' & Hrun & Hinstalled & Hstored).
    { unfold f2. apply lookup_insert_eq. }
    { unfold f2, f1. rewrite lookup_insert_ne by done. apply lookup_insert_eq. }
    { intros y Hy. rewrite lookup_delete_ne by (intros ->; done).
      apply Hregular. by right. }
    { intros y Hy. rewrite lookup_insert_ne by (intros ->; done).
      apply Hfree. by right. }
    exists installed', stored'. split; [|split].
    + unfold backupAndClean in *. cbn [for_of].
      erewrite bind_ok; cycle 1.
      { erewrite bind_ok; cycle 1.
        { apply copyFileSync_ok with (listing := stored); [|done|].
          - unfold lookup_entry. by rewrite Hdir.
          - apply Hfree. left. }
        apply rmSync_ok with (bytes := bytes); [|done].
        by rewrite lookup_insert_ne. }
      fold f1 f2. rewrite Hrun. do 2 f_equal.
      apply map_eq. intros k. unfold f2, f1.
      destruct (decide (k = dir)) as [->|Hk1].
      { by rewrite !lookup_insert_eq. }
      rewrite !(lookup_insert_ne _ dir) by done.
      destruct (decide (k = backup)) as [->|Hk2].
      { by rewrite !lookup_insert_eq. }
      by rewrite !lookup_insert_ne by done.
    + intros y. rewrite Hinstalled.
      destruct (decide (y = x)) as [->|Hy].
      * rewrite decide_False by done. rewrite lookup_delete_eq.
        by rewrite decide_True by left.
      * rewrite lookup_delete_ne by done.
        destruct (decide (y ∈ files)).
        -- by rewrite decide_True by (by right).
        -- rewrite decide_False; [done|]. by intros [?|?]%elem_of_cons.
    + intros y. rewrite Hstored.
      destruct (decide (y = x)) as [->|Hy].
      * rewrite decide_False by done. rewrite lookup_insert_eq.
        by rewrite decide_True by left.
      * rewrite lookup_delete_ne, lookup_insert_ne by done.
        destruct (decide (y ∈ files)).
        -- by rewrite decide_True by (by right).
        -- rewrite decide_False; [done|]. by intros [?|?]%elem_of_cons.
Qed.

(** The guard [files.length > 0] of the stage only skips two log lines. *)
Lemma guarded_backup dir backup files note finished :
  dir ≠ backup → NoDup files →
  ∀ f o (installed stored : gmap string node),
    f !! dir = Some installed →
    f !! backup = Some stored →
    (∀ x, x ∈ files → ∃ bytes, installed !! x = Some (File bytes)) →
    (∀ x, x ∈ files → stored !! x ≠ Some Dir) →
    ∃ o' (installed' stored' : gmap string node),
      (if (0 <? length files)%nat
       then log cyan note;; backupAndClean dir backup files;; log green finished
       else mret tt) {| fs := f; out := o |}
      = (Ok tt, {| fs := <[dir := installed']> (<[backup := stored']> f);
                   out := o' |})
      ∧ (∀ x, installed' !! x = if decide (x ∈ files) then None else installed !! x)
      ∧ (∀ x, stored' !! x
              = if decide (x ∈ files) then installed !! x else stored !! x).
Proof.
  intros Hne Hnodup f o installed stored Hdir Hbackup Hregular Hfree.
  destruct files as [|x files].
  - destruct (backupAndClean_spec dir backup [] Hne Hnodup f o installed stored)
      as (installed' & stored' & Hrun & Hspec); [done..|].
    exists o, installed', stored'. split; [|done]. exact Hrun.
  - destruct (backupAndClean_spec dir backup (x :: files) Hne Hnodup f
                (o ++ [Log cyan note]) installed stored)
      as (installed' & stored' & Hrun & Hspec); [done..|].
    exists ((o ++ [Log cyan note]) ++ [Log green finished])%list, installed', stored'.
    split; [|done]. cbn [length Nat.ltb Nat.leb].
    erewrite bind_ok; [|reflexivity]. erewrite bind_ok; [|exact Hrun].
    reflexivity.
Qed.

Lemma jar_files_elem (listing : gmap string node) (x : string) :
  x ∈ filter (λ file, endsWith file ".jar") (map_to_list listing).*1
  ↔ endsWith x ".jar" = true ∧ is_Some (listing !! x).
Proof. by rewrite list_elem_of_filter, readdir_elem, Is_true_true. Qed.

Lemma jars_lookup (listing : gmap string node) (x : string) :
  jars listing !! x = if endsWith x ".jar" then listing !! x else None.
Proof.
  unfold jars. apply option_eq. intros entry.
  rewrite map_lookup_filter_Some. simpl.
  destruct (endsWith x ".jar"); intuition congruence.
Qed.

Lemma non_jars_lookup (listing : gmap string node) (x : string) :
  non_jars listing !! x = if endsWith x ".jar" then None else listing !! x.
Proof.
  unfold non_jars. apply option_eq. intros entry.
  rewrite map_lookup_filter_Some. simpl.
  destruct (endsWith x ".jar"); intuition congruence.
Qed.

Lemma cleanupStage_completes i p f o (installedMods installedShaders : gmap string node) :
  let mods := MODS_DIR p in
  let shaders := SHADERPACKS_DIR p in
  let backupMods := backupModsDir (host i) (now i) in
  let backupShaders := backupShadersDir (host i) (now i) in
  NoDup [mods; shaders; backupMods; backupShaders] →
  f !! mods = Some installedMods →
  f !! shaders = Some installedShaders →
  regular_files (jars installedMods) →
  regular_files installedShaders →
  regular_files (default ∅ (f !! backupMods)) →
  regular_files (default ∅ (f !! backupShaders)) →
  ∃ w', cleanupStage i p {| fs := f; out := o |} = (Ok tt, w')
        ∧ fs w' !! mods = Some (non_jars installedMods)
        ∧ fs w' !! shaders = Some ∅
        ∧ fs w' !! backupMods
          = Some (jars installedMods ∪ default ∅ (f !! backupMods))
        ∧ fs w' !! backupShaders
          = Some (installedShaders ∪ default ∅ (f !! backupShaders)).
Proof.
  intros mods shaders backupMods backupShaders Hdistinct Hmods Hshaders
    Hreg1 Hreg2 Hreg3 Hreg4.
  assert (mods ≠ shaders ∧ mods ≠ backupMods ∧ mods ≠ backupShaders
          ∧ shaders ≠ backupMods ∧ shaders ≠ backupShaders
          ∧ backupMods ≠ backupShaders) as (H1 & H2 & H3 & H4 & H5 & H6).
  { by apply NoDup_four. }
  set (f2 := ensure_dir backupShaders (ensure_dir backupMods f)).
  assert (f2 !! mods = Some installedMods) as Hmods2.
  { unfold f2. by rewrite !ensure_dir_other by done. }
  assert (f2 !! shaders = Some installedShaders) as Hshaders2.
  { unfold f2. by rewrite !ensure_dir_other by done. }
  assert (f2 !! backupMods = Some (default ∅ (f !! backupMods))) as Hbm2.
  { unfold f2. rewrite ensure_dir_other by done. apply ensure_dir_same. }
  assert (f2 !! backupShaders = Some (default ∅ (f !! backupShaders))) as Hbs2.
  { unfold f2. rewrite ensure_dir_same. by rewrite ensure_dir_other by done. }
  (* the mods loop *)
  set (o2 := (o ++ [Log green "[3/5] Cleaning up existing mods and shaders..."])%list).
  destruct (guarded_backup mods backupMods
              (filter (λ file, endsWith file ".jar") (map_to_list installedMods).*1)
              ("  ℹ Backing up mods to: " +:+ backupMods)
              "  ✓ Cleaned up mods directory" H2
              (NoDup_filter _ _ (NoDup_fst_map_to_list installedMods))
              f2 o2 installedMods (default ∅ (f !! backupMods)) Hmods2 Hbm2)
    as (o3 & mods' & stored' & Hrun1 & Hmods' & Hstored').
  { intros x [Hjar [entry Hentry]]%jar_files_elem.
    destruct entry as [bytes|]; [by exists bytes|].
    exfalso. eapply (map_Forall_lookup_1 _ _ x Dir Hreg1); [|done].
    by rewrite jars_lookup, Hjar. }
  { intros x _ Hdir. by eapply (map_Forall_lookup_1 _ _ x Dir Hreg3). }
  set (f3 := <[mods := mods']> (<[backupMods := stored']> f2)) in *.
  assert (f3 !! shaders = Some installedShaders) as Hshaders3.
  { unfold f3. by rewrite !lookup_insert_ne by done. }
  assert (f3 !! backupShaders = Some (default ∅ (f !! backupShaders))) as Hbs3.
  { unfold f3. by rewrite !lookup_insert_ne by done. }
  (* the shaders loop *)
  destruct (guarded_backup shaders backupShaders (map_to_list installedShaders).*1
              ("  ℹ Backing up shaders to: " +:+ backupShaders)
              "  ✓ Cleaned up shaderpacks directory" H5
              (NoDup_fst_map_to_list installedShaders)
              f3 o3 installedShaders (default ∅ (f !! backupShaders))
              Hshaders3 Hbs3)
    as (o4 & shaders' & kept' & Hrun2 & Hshaders' & Hkept').
  { intros x [entry Hentry]%readdir_elem.
    destruct entry as [bytes|]; [by exists bytes|].
    exfalso. by eapply (map_Forall_lookup_1 _ _ x Dir Hreg2). }
  { intros x _ Hdir. by eapply (map_Forall_lookup_1 _ _ x Dir Hreg4). }
  set (f4 := <[shaders := shaders']> (<[backupShaders := kept']> f3)) in *.
  eexists. split.
  { unfold cleanupStage. cbv zeta. fold mods shaders backupMods backupShaders.
    erewrite bind_ok; [|reflexivity].
    erewrite bind_ok; [|reflexivity].
    erewrite bind_ok; [|reflexivity].
    cbn [fs out]. fold f2 o2.
    erewrite bind_ok; [|by eapply existsSync_ok].
    erewrite bind_ok; cycle 1.
    { erewrite bind_ok; [|by eapply readdirSync_ok]. exact Hrun1. }
    fold f3.
    erewrite bind_ok; [|by eapply existsSync_ok].
    erewrite bind_ok; cycle 1.
    { erewrite bind_ok; [|by eapply readdirSync_ok]. exact Hrun2. }
    fold f4.
    erewrite bind_ok; [|reflexivity]. reflexivity. }
  cbn [fs]. split; [|split; [|split]].
  - unfold f4, f3. rewrite !(lookup_insert_ne _ _ mods) by done.
    rewrite lookup_insert_eq. f_equal. apply map_eq. intros x.
    rewrite Hmods', non_jars_lookup.
    case_decide as Hx; rewrite jar_files_elem in Hx.
    + by destruct Hx as [-> _].
    + destruct (endsWith x ".jar") eqn:Hjar; [|done].
      destruct (installedMods !! x) eqn:Hentry; [|done]. naive_solver.
  - unfold f4. rewrite lookup_insert_eq. f_equal. apply map_empty. intros x.
    rewrite Hshaders'. case_decide as Hx; [done|].
    rewrite readdir_elem in Hx. by apply eq_None_not_Some.
  - unfold f4, f3. rewrite !(lookup_insert_ne _ _ backupMods) by done.
    rewrite lookup_insert_eq.
    f_equal. apply map_eq. intros x. rewrite Hstored', lookup_union, jars_lookup.
    case_decide as Hx; rewrite jar_files_elem in Hx.
    + destruct Hx as [-> [entry ->]]. simpl.
      by destruct (default ∅ (f !! backupMods) !! x).
    + destruct (endsWith x ".jar") eqn:Hjar.
      * destruct (installedMods !! x) eqn:Hentry; [naive_solver|].
        by rewrite (left_id_L None _).
      * by rewrite (left_id_L None _).
  - unfold f4. rewrite lookup_insert_ne by done. rewrite lookup_insert_eq.
    f_equal. apply map_eq. intros x. rewrite Hkept', lookup_union.
    case_decide as Hx; rewrite readdir_elem in Hx.
    + destruct Hx as [entry ->]. simpl.
      by destruct (default ∅ (f !! backupShaders) !! x).
    + apply eq_None_not_Some in Hx. rewrite Hx. by rewrite (left_id_L None _).
Qed.

(** *** The four directories of the stage are different *)

Lemma append_assoc (a b c : string) : (a +:+ b) +:+ c = a +:+ (b +:+ c).
Proof.
  induction a as [|x a IH]; [done|].
  change (String x ((a +:+ b) +:+ c) = String x (a +:+ (b +:+ c))).
  by rewrite IH.
Qed.

Lemma length_append (a b : string) :
  String.length (a +:+ b) = String.length a + String.length b.
Proof.
  induction a as [|x a IH]; [done|].
  change (S (String.length (a +:+ b)) = S (String.length a) + String.length b).
  by rewrite IH.
Qed.

Lemma append_inj_suffix (p1 p2 a b : string) :
  String.length a = String.length b →
  p1 +:+ a = p2 +:+ b → p1 = p2 ∧ a = b.
Proof.
  intros Hlen. revert p2. induction p1 as [|c p1 IH]; intros [|c' p2] Heq.
  - done.
  - apply (f_equal String.length) in Heq.
    change (String.length a = S (String.length (p2 +:+ b))) in Heq.
    rewrite length_append in Heq. lia.
  - apply (f_equal String.length) in Heq.
    change (S (String.length (p1 +:+ a)) = String.length b) in Heq.
    rewrite length_append in Heq. lia.
  - change (String c (p1 +:+ a) = String c' (p2 +:+ b)) in Heq.
    injection Heq as -> Heq. by destruct (IH _ Heq) as [-> ->].
Qed.

Lemma last_char_append (a b : string) :
  last_char (a +:+ b)
  = match last_char b with Some c => Some c | None => last_char a end.
Proof.
  induction a as [|x a IH].
  - change (last_char b = match last_char b with Some c => Some c | None => None end).
    by destruct (last_char b).
  - change (match last_char (a +:+ b) with Some d => Some d | None => Some x end
            = match last_char b with
              | Some c => Some c
              | None => match last_char a with Some d => Some d | None => Some x end
              end).
    rewrite IH. by destruct (last_char b).
Qed.

Lemma mods_is_not_shaderpacks (x y : string) :
  x +:+ "mods" ≠ y +:+ "shaderpacks".
Proof.
  change (x +:+ ("mo" +:+ "ds") ≠ y +:+ ("shaderpac" +:+ "ks")).
  rewrite <- !append_assoc. by intros [_ ?]%append_inj_suffix.
Qed.

Lemma getMinecraftDir_last_char h minecraftDir :
  getMinecraftDir h = Ok minecraftDir → last_char minecraftDir = Some "t"%char.
Proof.
  unfold getMinecraftDir, join.
  destruct (String.eqb (platform h) "darwin").
  { intros [= <-]. by rewrite !last_char_append. }
  destruct (String.eqb (platform h) "win32").
  - destruct (APPDATA h) as [appData|]; [|done].
    destruct (String.eqb appData EmptyString); [done|].
    intros [= <-]. by rewrite !last_char_append.
  - intros [= <-]. by rewrite !last_char_append.
Qed.

Lemma backupDir_last_char h d : last_char (backupDir h d) = Some (digit (day d)).
Proof.
  unfold backupDir, join. rewrite !last_char_append, timestamp_is_the_date.
  by rewrite !last_char_append.
Qed.

(** In every run the installed directories and the backup sub-folders are
    four different directories. *)
Lemma cleanup_dirs_distinct h minecraftDir d :
  getMinecraftDir h = Ok minecraftDir →
  NoDup [MODS_DIR (paths_of h minecraftDir);
         SHADERPACKS_DIR (paths_of h minecraftDir);
         backupModsDir h d; backupShadersDir h d].
Proof.
  intros Hdir.
  assert (minecraftDir ≠ backupDir h d) as Hne.
  { intros Heq. apply getMinecraftDir_last_char in Hdir.
    rewrite Heq, backupDir_last_char in Hdir. injection Hdir as Hdigit.
    pose proof (digit_cases (day d)) as Hcases. rewrite Hdigit in Hcases.
    by apply (bool_decide_pack _) in Hcases. }
  unfold backupModsDir, backupShadersDir, paths_of, join.
  cbn [MODS_DIR SHADERPACKS_DIR].
  rewrite !NoDup_cons, !not_elem_of_cons, <- !append_assoc.
  repeat split; try apply not_elem_of_nil; try apply NoDup_nil_2;
    try apply mods_is_not_shaderpacks;
    try (intros Heq; symmetry in Heq; by apply mods_is_not_shaderpacks in Heq).
  - intros [Heq _]%append_inj_suffix; [|done].
    apply append_inj_suffix in Heq as [Heq _]; done.
  - intros [Heq _]%append_inj_suffix; [|done].
    apply append_inj_suffix in Heq as [Heq _]; done.
Qed.

(** C2, as the code has it: in every run, whatever the outcome of the
    cleanup stage, an entry that is gone from an installed directory is in
    the backup sub-folder with its bytes; when the installed [.jar] files
    and shader pack entries are regular files, the stage completes, the
    mods directory keeps only its entries that are not [.jar] files, the
    shaderpacks directory is empty, and each backup sub-folder holds the
    files that were moved on top of what it held before: exactly the
    pre-cleanup set when the backup sub-folder did not exist yet. *)
Theorem cleanupStage_backs_up_then_deletes
    (i : Inputs) (minecraftDir : string) (w : World) :
  let p := paths_of (host i) minecraftDir in
  let mods := MODS_DIR p in
  let shaders := SHADERPACKS_DIR p in
  let backupMods := backupModsDir (host i) (now i) in
  let backupShaders := backupShadersDir (host i) (now i) in
  getMinecraftDir (host i) = Ok minecraftDir →
  (∀ r w', cleanupStage i p w = (r, w') →
     kept mods backupMods (fs w) (fs w')
     ∧ kept shaders backupShaders (fs w) (fs w'))
  ∧ (∀ installedMods installedShaders : gmap string node,
       fs w !! mods = Some installedMods →
       fs w !! shaders = Some installedShaders →
       regular_files (jars installedMods) →
       regular_files installedShaders →
       regular_files (default ∅ (fs w !! backupMods)) →
       regular_files (default ∅ (fs w !! backupShaders)) →
       ∃ w', cleanupStage i p w = (Ok tt, w')
             ∧ fs w' !! mods = Some (non_jars installedMods)
             ∧ fs w' !! shaders = Some ∅
             ∧ fs w' !! backupMods
               = Some (jars installedMods ∪ default ∅ (fs w !! backupMods))
             ∧ fs w' !! backupShaders
               = Some (installedShaders ∪ default ∅ (fs w !! backupShaders))
             ∧ (fs w !! backupMods = None →
                fs w' !! backupMods = Some (jars installedMods))
             ∧ (fs w !! backupShaders = None →
                fs w' !! backupShaders = Some installedShaders)).
Proof.
  intros p mods shaders backupMods backupShaders Hdir.
  pose proof (cleanup_dirs_distinct (host i) minecraftDir (now i) Hdir)
    as Hdistinct.
  fold p in Hdistinct. fold mods shaders backupMods backupShaders in Hdistinct.
  split.
  - intros r w' Hrun. split.
    + eapply (keeps_cleanupStage i p mods backupMods (fs w)); eauto using kept_refl.
    + eapply (keeps_cleanupStage i p shaders backupShaders (fs w));
        eauto using kept_refl.
  - intros installedMods installedShaders Hmods Hshaders Hr1 Hr2 Hr3 Hr4.
    destruct w as [f o]. simpl in *.
    destruct (cleanupStage_completes i p f o installedMods installedShaders
                Hdistinct Hmods Hshaders Hr1 Hr2 Hr3 Hr4)
      as (w' & Hrun & Hm & Hs & Hbm & Hbs).
    exists w'. repeat (split; [done|]). split.
    + intros Hnone. fold mods shaders backupMods backupShaders in Hbm.
      rewrite Hbm, Hnone. simpl. by rewrite (right_id_L ∅ (∪)).
    + intros Hnone. fold mods shaders backupMods backupShaders in Hbs.
      rewrite Hbs, Hnone. simpl. by rewrite (right_id_L ∅ (∪)).
Qed.

Lemma cleanupStage_backs_up_then_deletes_witness :
  ∃ w', cleanupStage (cleanup_run morning) linux_paths (world_of three_mods_installed)
        = (Ok tt, w')
        ∧ fs w' !! MODS_DIR linux_paths = Some (non_jars three_mods)
        ∧ fs w' !! SHADERPACKS_DIR linux_paths = Some ∅
        ∧ fs w' !! backupModsDir linux_host morning = Some (jars three_mods)
        ∧ fs w' !! backupShadersDir linux_host morning = Some one_shader.
Proof.
  destruct (cleanupStage_backs_up_then_deletes (cleanup_run morning)
              "/home/alex/.minecraft" (world_of three_mods_installed) eq_refl)
    as [_ Hpost].
  destruct (Hpost three_mods one_shader)
    as (w' & Hrun & Hm & Hs & _ & _ & Hbm & Hbs);
    [reflexivity | reflexivity | by apply (bool_decide_unpack _); vm_compute..|].
  exists w'. split; [exact Hrun|]. split; [exact Hm|]. split; [exact Hs|].
  split; [exact (Hbm eq_refl) | exact (Hbs eq_refl)].
Defined.

(** C2 as stated fails: a second cleanup on the same day moves the
    installed file into the backup folder of the first one, which then
    holds more than the set that was installed before that cleanup. *)
Lemma cleanup_twice_a_day_counterexample :
  let w1 := (script (cleanup_run morning) (world_of one_mod_one_staged)).2 in
  let w2 := (script (cleanup_run evening) w1).2 in
  fs w1 !! MODS_DIR linux_paths = Some {[ "custom.jar" := File "x" ]}
  ∧ fs w1 !! backupModsDir linux_host morning = Some {[ "old.jar" := File "o" ]}
  ∧ backupModsDir linux_host evening = backupModsDir linux_host morning
  ∧ fs w2 !! backupModsDir linux_host evening
    = Some {[ "custom.jar" := File "x"; "old.jar" := File "o" ]}
  ∧ fs w2 !! backupModsDir linux_host evening ≠ fs w1 !! MODS_DIR linux_paths.
Proof.
  cbv zeta. split; [by vm_compute|]. split; [by vm_compute|].
  split; [by vm_compute|]. split; [by vm_compute|]. by vm_compute.
Qed.

(** ** The local merge *)

Global Instance grows_preorder : PreOrder grows.
Proof. split; unfold grows; [intros f; auto | intros f g k; auto]. Qed.

Global Instance touches_preorder dirs : PreOrder (touches dirs).
Proof.
  split; unfold touches; [intros f; auto|].
  intros f g k Hfg Hgk dir Hdir. by rewrite Hgk, Hfg.
Qed.

Lemma bind_Ok_inv {A B} (m : M A) (k : A → M B) w b w' :
  (m ≫= k) w = (Ok b, w') → ∃ a w1, m w = (Ok a, w1) ∧ k a w1 = (Ok b, w').
Proof.
  unfold mbind, M_bind. destruct (m w) as [[a | e | c] w1]; [eauto | done..].
Qed.

Lemma mergeFile_present p srcDir isShader file n f o :
  is_Some (lookup_entry f (installedDir p isShader) file) →
  mergeFile p srcDir isShader file n {| fs := f; out := o |}
  = (Ok n, {| fs := f; out := o ++ [skipped file] |}).
Proof.
  intros Hpresent. unfold mergeFile, checkExistingFile.
  erewrite bind_ok; [|reflexivity]. cbn [fs].
  destruct isShader; by rewrite bool_decide_eq_true_2 by done.
Qed.

Lemma mergeFile_absent p srcDir isShader file n f o bytes :
  lookup_entry f (installedDir p isShader) file = None →
  lookup_entry f srcDir file = Some (File bytes) →
  is_Some (f !! installedDir p isShader) →
  mergeFile p srcDir isShader file n {| fs := f; out := o |}
  = (Ok (S n), {| fs := write_entry f (installedDir p isShader) file bytes;
                  out := o ++ [Log green ("  ✓ Copied " +:+ file)] |}).
Proof.
  intros Habsent Hsrc [listing Hdir]. unfold mergeFile, checkExistingFile.
  erewrite bind_ok; [|reflexivity]. cbn [fs].
  assert (bool_decide (is_Some (lookup_entry f (installedDir p isShader) file))
          = false) as Hno.
  { apply bool_decide_eq_false_2. rewrite Habsent. by intros [? ?]. }
  assert (listing !! file ≠ Some Dir) as Hfree.
  { unfold lookup_entry in Habsent. rewrite Hdir in Habsent. simpl in Habsent.
    by rewrite Habsent. }
  unfold installedDir in *. destruct isShader; rewrite Hno;
    (erewrite bind_ok; [|by eapply copyFileSync_ok]);
    unfold write_entry; by rewrite Hdir.
Qed.

Lemma grows_copyFileSync srcDir src dstDir dst :
  steps grows (copyFileSync srcDir src dstDir dst).
Proof.
  intros w r w' Hrun dir file.
  apply copyFileSync_lookup in Hrun as [_ [[_ (bytes & _ & ->)] | [_ ->]]]; [|done].
  rewrite lookup_entry_write. by case_decide.
Qed.

Lemma touches_copyFileSync dirs srcDir src dstDir dst :
  dstDir ∈ dirs → steps (touches dirs) (copyFileSync srcDir src dstDir dst).
Proof.
  intros Hin w r w' Hrun dir Hdir.
  apply copyFileSync_lookup in Hrun as [_ [[_ (bytes & _ & ->)] | [_ ->]]]; [|done].
  unfold write_entry. rewrite lookup_insert_ne; [done|]. by intros ->.
Qed.

Lemma steps_mergeFile (R : relation FS) (HR : PreOrder R) p srcDir isShader file n :
  steps R (copyFileSync srcDir file (installedDir p isShader) file) →
  steps R (mergeFile p srcDir isShader file n).
Proof.
  intros Hcopy. unfold mergeFile, checkExistingFile.
  repeat first
    [ exact Hcopy | apply (steps_log _ HR) | apply (steps_ret _ HR)
    | apply (steps_existsSync_entry _ HR)
    | apply (steps_bind _ HR); [| intros ?]
    | apply steps_if ].
Qed.

Lemma steps_merge_loop (R : relation FS) (HR : PreOrder R) p srcDir isShader files n :
  (∀ file, steps R (copyFileSync srcDir file (installedDir p isShader) file)) →
  steps R (for_of files (mergeFile p srcDir isShader) n).
Proof.
  intros Hcopy. apply (steps_for_of _ HR). intros file k _.
  by apply steps_mergeFile.
Qed.

(** A file that was merged without an exception is installed. *)
Lemma mergeFile_installs p srcDir isShader file n w n' w' :
  mergeFile p srcDir isShader file n w = (Ok n', w') →
  is_Some (lookup_entry (fs w') (installedDir p isShader) file).
Proof.
  unfold mergeFile, checkExistingFile. intros Hrun.
  apply bind_Ok_inv in Hrun as (present & w1 & Hcheck & Hrun).
  injection Hcheck as <- <-.
  assert ((if isShader then SHADERPACKS_DIR p else MODS_DIR p)
          = installedDir p isShader) as Hdst by done.
  rewrite Hdst in Hrun. case_bool_decide as Hpresent.
  - apply bind_Ok_inv in Hrun as ([] & w2 & Hlog & Hret).
    injection Hlog as <-. by injection Hret as _ <-.
  - apply bind_Ok_inv in Hrun as ([] & w2 & Hcopy & Hrun).
    apply bind_Ok_inv in Hrun as ([] & w3 & Hlog & Hret).
    injection Hlog as <-. injection Hret as _ <-. simpl.
    apply copyFileSync_lookup in Hcopy
      as [_ [[_ (bytes & _ & ->)] | [Hfail _]]]; [|done].
    rewrite lookup_entry_write. by rewrite decide_True.
Qed.

Lemma merge_loop_installs p srcDir isShader files :
  ∀ n w n' w',
    for_of files (mergeFile p srcDir isShader) n w = (Ok n', w') →
    ∀ file, file ∈ files →
            is_Some (lookup_entry (fs w') (installedDir p isShader) file).
Proof.
  induction files as [|x files IH]; intros n w n' w' Hrun file Hin.
  - by apply elem_of_nil in Hin.
  - cbn [for_of] in Hrun.
    apply bind_Ok_inv in Hrun as (n1 & w1 & Hfirst & Hrest).
    apply elem_of_cons in Hin as [->|Hin]; [|by eapply IH].
    eapply (steps_merge_loop grows _ p srcDir isShader files n1); [|done|].
    + intros ?. apply grows_copyFileSync.
    + by eapply mergeFile_installs.
Qed.

Lemma merge_loop_rerun p srcDir isShader files :
  ∀ n f o,
    (∀ file, file ∈ files →
             is_Some (lookup_entry f (installedDir p isShader) file)) →
    for_of files (mergeFile p srcDir isShader) n {| fs := f; out := o |}
    = (Ok n, {| fs := f; out := o ++ (skipped <$> files) |}).
Proof.
  induction files as [|x files IH]; intros n f o Hpresent.
  - cbn [for_of fmap list_fmap]. by rewrite app_nil_r.
  - cbn [for_of]. erewrite bind_ok; cycle 1.
    { apply mergeFile_present, Hpresent. left. }
    rewrite IH by (intros file Hin; apply Hpresent; by right).
    by rewrite <- app_assoc.
Qed.

Lemma mergeMods_shape p n :
  mergeMods p n
  = mergeDir p (LOCAL_MODS_DIR p) false (filter (λ file, endsWith file ".jar"))
      ("Checking local mods directory: " +:+ LOCAL_MODS_DIR p)
      ("  ⚠ Local mods directory not found: " +:+ LOCAL_MODS_DIR p) n.
Proof. reflexivity. Qed.

Lemma mergeShaders_shape p n :
  mergeShaders p n
  = mergeDir p (LOCAL_SHADERS_DIR p) true (λ entries, entries)
      ("Checking local shaders directory: " +:+ LOCAL_SHADERS_DIR p)
      ("  ⚠ Local shaderpacks directory not found: " +:+ LOCAL_SHADERS_DIR p) n.
Proof. reflexivity. Qed.

Lemma steps_mergeDir (R : relation FS) (HR : PreOrder R)
    p srcDir isShader select found missing n :
  (∀ file, steps R (copyFileSync srcDir file (installedDir p isShader) file)) →
  steps R (mergeDir p srcDir isShader select found missing n).
Proof.
  intros Hcopy. unfold mergeDir.
  repeat first
    [ solve [by apply steps_merge_loop]
    | apply (steps_log _ HR) | apply (steps_ret _ HR)
    | apply (steps_existsSync _ HR) | apply (steps_readdirSync _ HR)
    | apply (steps_bind _ HR); [| intros ?]
    | apply steps_if ].
Qed.

Lemma steps_localMergeStage (R : relation FS) (HR : PreOrder R) p :
  (∀ srcDir isShader file,
      steps R (copyFileSync srcDir file (installedDir p isShader) file)) →
  steps R (localMergeStage p).
Proof.
  intros Hcopy. unfold localMergeStage.
  rewrite mergeMods_shape.
  repeat first
    [ rewrite mergeShaders_shape
    | solve [by apply steps_mergeDir]
    | apply (steps_log _ HR) | apply (steps_console_log _ HR)
    | apply (steps_ret _ HR)
    | apply (steps_bind _ HR); [| intros ?] ].
Qed.

Lemma mergeDir_installs p srcDir isShader select found missing n f o n' w' :
  mergeDir p srcDir isShader select found missing n {| fs := f; out := o |}
  = (Ok n', w') →
  ∀ staged file,
    f !! srcDir = Some staged →
    file ∈ select (map_to_list staged).*1 →
    is_Some (lookup_entry (fs w') (installedDir p isShader) file).
Proof.
  intros Hrun staged file Hstaged Hin. unfold mergeDir in Hrun.
  erewrite bind_ok in Hrun; [|by eapply existsSync_ok].
  cbv beta iota in Hrun.
  erewrite bind_ok in Hrun; [|reflexivity].
  erewrite bind_ok in Hrun; [|by eapply readdirSync_ok].
  by eapply merge_loop_installs.
Qed.

Lemma mergeDir_rerun p srcDir isShader select found missing n f o :
  (∀ staged file,
      f !! srcDir = Some staged →
      file ∈ select (map_to_list staged).*1 →
      is_Some (lookup_entry f (installedDir p isShader) file)) →
  mergeDir p srcDir isShader select found missing n {| fs := f; out := o |}
  = (Ok n, {| fs := f;
              out := o ++ rerun_dir_lines f srcDir select found missing |}).
Proof.
  intros Hpresent. unfold mergeDir, rerun_dir_lines.
  destruct (f !! srcDir) as [staged|] eqn:Hstaged.
  - erewrite bind_ok; [|by eapply existsSync_ok].
    cbv beta iota.
    erewrite bind_ok; [|reflexivity].
    erewrite bind_ok; [|by eapply readdirSync_ok].
    rewrite merge_loop_rerun by eauto.
    by rewrite <- app_assoc.
  - erewrite bind_ok; cycle 1.
    { unfold existsSync. cbn [fs].
      rewrite bool_decide_eq_false_2; [reflexivity|].
      rewrite Hstaged. by intros [? ?]. }
    reflexivity.
Qed.

Lemma localMergeStage_rerun p f :
  (∀ staged file,
      f !! LOCAL_MODS_DIR p = Some staged →
      file ∈ filter (λ file, endsWith file ".jar") (map_to_list staged).*1 →
      is_Some (lookup_entry f (MODS_DIR p) file)) →
  (∀ staged file,
      f !! LOCAL_SHADERS_DIR p = Some staged →
      file ∈ (map_to_list staged).*1 →
      is_Some (lookup_entry f (SHADERPACKS_DIR p) file)) →
  localMergeStage p {| fs := f; out := [] |}
  = (Ok 0, {| fs := f; out := rerun_lines p f |}).
Proof.
  intros Hmods Hshaders. unfold localMergeStage.
  erewrite bind_ok; [|reflexivity].
  erewrite bind_ok; [|reflexivity].
  erewrite bind_ok; [|rewrite mergeMods_shape; by apply mergeDir_rerun].
  erewrite bind_ok; [|reflexivity].
  erewrite bind_ok; [|rewrite mergeShaders_shape; by apply mergeDir_rerun].
  erewrite bind_ok; [|reflexivity].
  erewrite bind_ok; [|reflexivity].
  erewrite bind_ok; [|reflexivity].
  unfold mret, M_ret. do 2 f_equal. cbn [fs out].
  unfold rerun_lines. rewrite <- !app_assoc. reflexivity.
Qed.

Lemma touches_installedDir p srcDir isShader file :
  steps (touches [MODS_DIR p; SHADERPACKS_DIR p])
        (copyFileSync srcDir file (installedDir p isShader) file).
Proof. apply touches_copyFileSync. destruct isShader; set_solver. Qed.

Lemma localMergeStage_idempotent p w n w1 :
  LOCAL_MODS_DIR p ∉ [MODS_DIR p; SHADERPACKS_DIR p] →
  LOCAL_SHADERS_DIR p ∉ [MODS_DIR p; SHADERPACKS_DIR p] →
  localMergeStage p w = (Ok n, w1) →
  localMergeStage p {| fs := fs w1; out := [] |}
  = (Ok 0, {| fs := fs w1; out := rerun_lines p (fs w1) |}).
Proof.
  intros Hstaged1 Hstaged2 Hrun. destruct w as [f o].
  pose proof (steps_localMergeStage (touches [MODS_DIR p; SHADERPACKS_DIR p]) _ p
                (touches_installedDir p) _ _ _ Hrun) as Htouch.
  cbn [fs] in Htouch.
  unfold localMergeStage in Hrun.
  erewrite bind_ok in Hrun; [|reflexivity].
  erewrite bind_ok in Hrun; [|reflexivity].
  apply bind_Ok_inv in Hrun as (n1 & wa & Hmods & Hrun).
  erewrite bind_ok in Hrun; [|reflexivity].
  apply bind_Ok_inv in Hrun as (n2 & wb & Hshaders & Hrun).
  erewrite bind_ok in Hrun; [|reflexivity].
  erewrite bind_ok in Hrun; [|reflexivity].
  erewrite bind_ok in Hrun; [|reflexivity].
  injection Hrun as _ <-. cbn [fs out] in *.
  rewrite mergeMods_shape in Hmods. rewrite mergeShaders_shape in Hshaders.
  pose proof (steps_mergeDir (touches [MODS_DIR p; SHADERPACKS_DIR p]) _ _ _ _ _ _ _ _
                (touches_installedDir p _ _) _ _ _ Hmods) as Htouch1.
  pose proof (steps_mergeDir grows _ _ _ _ _ _ _ _
                (λ file, grows_copyFileSync _ _ _ _) _ _ _ Hshaders) as Hgrows2.
  cbn [fs] in Htouch1, Hgrows2.
  apply localMergeStage_rerun.
  - intros staged file Hdir Hin. rewrite (Htouch _ Hstaged1) in Hdir.
    apply Hgrows2.
    by eapply (mergeDir_installs p _ false _ _ _ _ _ _ _ _ Hmods).
  - intros staged file Hdir Hin. rewrite (Htouch _ Hstaged2) in Hdir.
    rewrite <- (Htouch1 _ Hstaged2) in Hdir.
    by eapply (mergeDir_installs p _ true _ _ _ _ _ _ _ _ Hshaders).
Qed.

(** C8, as the code has it: a staged file whose name exists in the
    installed directory is skipped with a log line and no counter moves;
    otherwise it is copied and counted as copied.  Running the local merge
    again after a run that completed copies nothing, changes nothing on
    disk, and logs every staged file as already existing. *)
Theorem localMerge_skips_installed_files (p : Paths) (w : World) :
  (∀ srcDir isShader file n,
      is_Some (lookup_entry (fs w) (installedDir p isShader) file) →
      mergeFile p srcDir isShader file n w
      = (Ok n, {| fs := fs w; out := out w ++ [skipped file] |}))
  ∧ (∀ srcDir isShader file n bytes,
       lookup_entry (fs w) (installedDir p isShader) file = None →
       lookup_entry (fs w) srcDir file = Some (File bytes) →
       is_Some (fs w !! installedDir p isShader) →
       mergeFile p srcDir isShader file n w
       = (Ok (S n),
          {| fs := write_entry (fs w) (installedDir p isShader) file bytes;
             out := out w ++ [Log green ("  ✓ Copied " +:+ file)] |}))
  ∧ (LOCAL_MODS_DIR p ∉ [MODS_DIR p; SHADERPACKS_DIR p] →
     LOCAL_SHADERS_DIR p ∉ [MODS_DIR p; SHADERPACKS_DIR p] →
     ∀ n w1,
       localMergeStage p w = (Ok n, w1) →
       localMergeStage p {| fs := fs w1; out := [] |}
       = (Ok 0, {| fs := fs w1; out := rerun_lines p (fs w1) |})).
Proof.
  split; [|split].
  - intros srcDir isShader file n Hpresent. destruct w as [f o].
    by apply mergeFile_present.
  - intros srcDir isShader file n bytes Habsent Hsrc Hdir. destruct w as [f o].
    by apply mergeFile_absent.
  - intros Hs1 Hs2 n w1 Hrun. by eapply localMergeStage_idempotent.
Qed.

Lemma localMerge_skips_installed_files_witness :
  let w1 := (localMergeStage linux_paths (world_of one_mod_one_staged)).2 in
  (localMergeStage linux_paths (world_of one_mod_one_staged)).1 = Ok 1
  ∧ localMergeStage linux_paths {| fs := fs w1; out := [] |}
    = (Ok 0,
       {| fs := fs w1;
          out := [Log green "[4/5] Installing local mods and shaders...";
                  Plain EmptyString;
                  Log cyan "Checking local mods directory: /home/alex/fabric-helper/minecraft/mods";
                  Log cyan "  ℹ custom.jar already exists, skipping";
                  Plain EmptyString;
                  Log yellow "  ⚠ Local shaderpacks directory not found: /home/alex/fabric-helper/minecraft/shaderpacks";
                  Plain EmptyString;
                  Log cyan "Copied 0 file(s) from local directories";
                  Plain EmptyString] |}).
Proof.
  cbv zeta. split; [by vm_compute|].
  apply (proj2 (proj2 (localMerge_skips_installed_files linux_paths
                         (world_of one_mod_one_staged)))
           ltac:(by apply (bool_decide_unpack _); vm_compute)
           ltac:(by apply (bool_decide_unpack _); vm_compute) 1).
  by vm_compute.
Defined.

(** C8 as stated fails on "counted as already-present": the staged file is
    installed already, the stage logs that it skips it, and the summary
    still reports zero files as already installed. *)
Lemma local_skip_is_not_counted_counterexample :
  let r := installStages (linux_run (Some "1.21.10") None morning offline)
             linux_paths "1.21.10" (world_of staged_and_installed) in
  is_Some (lookup_entry staged_and_installed (MODS_DIR linux_paths) "custom.jar")
  ∧ r.1 = Ok (tally 0 0 7 0)
  ∧ skipped "custom.jar" ∈ out r.2
  ∧ Log cyan "Copied 0 file(s) from local directories" ∈ out r.2
  ∧ Log cyan "ℹ Already installed: 0" ∈ out r.2.
Proof.
  cbv zeta. split; [by eexists|]. split; [by vm_compute|].
  repeat split; apply (bool_decide_unpack _); by vm_compute.
Qed.

(** ** Whole runs *)

(** The end-to-end scenario of the specification: everything but Sodium is
    downloaded, Sodium is unavailable, and the summary reports partial
    success. *)
Example all_but_sodium_is_partial_success :
  let r := script (linux_run (Some "1.21.10") None morning registry_all_but_sodium)
             (world_of fresh_install) in
  r.1 = Ok (tally 0 6 1 0)
  ∧ verdict (tally 0 6 1 0) = PartialSuccess
  ∧ Log yellow "⚠ Not available for 1.21.10: 1" ∈ out r.2
  ∧ Log yellow "⚠ 6 mods installed, but 1 are not yet available for Minecraft 1.21.10."
    ∈ out r.2
  ∧ lookup_entry (fs r.2) (MODS_DIR linux_paths) "modmenu-1.0.0.jar"
    = Some (File "bytes of modmenu").
Proof.
  cbv zeta. split; [by vm_compute|]. split; [done|].
  split; [apply (bool_decide_unpack _); by vm_compute|].
  split; [apply (bool_decide_unpack _); by vm_compute|]. by vm_compute.
Qed.

(** An exception that leaves [main] reaches the handler of the last lines
    of the script: one red line, then exit status 1. *)
Lemma script_fatal_on_throw i minecraftDir w error w' :
  getMinecraftDir (host i) = Ok minecraftDir →
  main i (paths_of (host i) minecraftDir) w = (Throw error, w') →
  script i w
  = (Exit 1, {| fs := fs w';
                out := out w' ++ [Log red ("Fatal error: " +:+ error)] |}).
Proof.
  intros Hdir Hmain. unfold script, try_catch. by rewrite Hdir, Hmain.
Qed.

(** C4 at its failing input: cleanup is confirmed and the shaderpacks
    directory holds an unpacked shader pack.  The copy of that entry
    throws, nothing in the cleanup stage catches it, and the handler of
    [main] ends the run with status 1 before the local merge and the remote
    fetch. *)
Theorem cleanup_failure_is_fatal :
  let r := script (cleanup_run morning) (world_of unpacked_shader) in
  (cleanupStage (cleanup_run morning) linux_paths (world_of unpacked_shader)).1
  = Throw EISDIR
  ∧ r.1 = Exit 1
  ∧ Log red ("Fatal error: " +:+ EISDIR) ∈ out r.2
  ∧ (Log green "[4/5] Installing local mods and shaders..." ∉ out r.2)
  ∧ (Log green "[5/5] Downloading missing mods..." ∉ out r.2).
Proof.
  cbv zeta. split; [by vm_compute|]. split; [by vm_compute|].
  repeat split; apply (bool_decide_unpack _); by vm_compute.
Qed.

(** ** What the summary reports *)

Lemma prints_log color message w :
  log color message w
  = (Ok tt, {| fs := fs w; out := out w ++ [Log color message] |}).
Proof. reflexivity. Qed.

Lemma prints_console_log text w :
  console_log text w = (Ok tt, {| fs := fs w; out := out w ++ [Plain text] |}).
Proof. reflexivity. Qed.

Lemma prints_bind (m k : M unit) (l l' : list line) :
  (∀ w, m w = (Ok tt, {| fs := fs w; out := out w ++ l |})) →
  (∀ w, k w = (Ok tt, {| fs := fs w; out := out w ++ l' |})) →
  ∀ w, (m ;; k) w = (Ok tt, {| fs := fs w; out := out w ++ l ++ l' |}).
Proof.
  intros Hm Hk w. unfold mbind, M_bind. rewrite Hm, Hk. cbn [fs out].
  by rewrite <- app_assoc.
Qed.

(** The summary prints the counters, the lines of its verdict and the next
    steps, and changes nothing else. *)
Lemma summary_eq v c w :
  summary v c w
  = (Ok tt,
     {| fs := fs w;
        out := out w ++ summary_counters v c
               ++ match verdict c with
                  | AllReady =>
                      [Log green ("🎉 All "
                                  +:+ pretty (localCopyCount c + successCount c
                                              + skipCount c)
                                  +:+ " mods and shaders are ready!")]
                  | PartialSuccess =>
                      [Log yellow ("⚠ "
                                   +:+ pretty (localCopyCount c + successCount c
                                               + skipCount c)
                                   +:+ " mods installed, but "
                                   +:+ pretty (failCount c)
                                   +:+ " are not yet available for Minecraft "
                                   +:+ v +:+ ".");
                       Log yellow "   Check back later at https://modrinth.com"]
                  | TotalFailure =>
                      [Log red ("⚠ No mods could be downloaded for Minecraft "
                                +:+ v +:+ ".");
                       Log yellow "   Most mods may not be updated yet. You can:";
                       Log yellow ("   1. Wait for mod developers to release "
                                   +:+ v +:+ " versions");
                       Log yellow "   2. Check manually at https://modrinth.com"]
                  end
               ++ next_steps |}).
Proof.
  revert w.
  enough (∃ printed,
            (∀ w, summary v c w
                  = (Ok tt, {| fs := fs w; out := out w ++ printed |}))
            ∧ printed
              = (summary_counters v c
                ++ match verdict c with
                   | AllReady =>
                       [Log green ("🎉 All "
                                   +:+ pretty (localCopyCount c + successCount c
                                               + skipCount c)
                                   +:+ " mods and shaders are ready!")]
                   | PartialSuccess =>
                       [Log yellow ("⚠ "
                                    +:+ pretty (localCopyCount c + successCount c
                                                + skipCount c)
                                    +:+ " mods installed, but "
                                    +:+ pretty (failCount c)
                                    +:+ " are not yet available for Minecraft "
                                    +:+ v +:+ ".");
                        Log yellow "   Check back later at https://modrinth.com"]
                   | TotalFailure =>
                       [Log red ("⚠ No mods could be downloaded for Minecraft "
                                 +:+ v +:+ ".");
                        Log yellow "   Most mods may not be updated yet. You can:";
                        Log yellow ("   1. Wait for mod developers to release "
                                    +:+ v +:+ " versions");
                        Log yellow "   2. Check manually at https://modrinth.com"]
                   end
                ++ next_steps)%list) as (printed & Hprinted & <-);
    [exact Hprinted|].
  unfold summary. cbv zeta.
  match goal with
  | |- context [mbind ?k (match verdict c with
                          | AllReady => ?a | PartialSuccess => ?b
                          | TotalFailure => ?d end)] =>
      set (report := match verdict c with
                     | AllReady => a | PartialSuccess => b | TotalFailure => d
                     end)
  end.
  assert (∃ lines,
            (∀ w, report w = (Ok tt, {| fs := fs w; out := out w ++ lines |}))
            ∧ lines
              = match verdict c with
                | AllReady =>
                    [Log green ("🎉 All "
                                +:+ pretty (localCopyCount c + successCount c
                                            + skipCount c)
                                +:+ " mods and shaders are ready!")]
                | PartialSuccess =>
                    [Log yellow ("⚠ "
                                 +:+ pretty (localCopyCount c + successCount c
                                             + skipCount c)
                                 +:+ " mods installed, but "
                                 +:+ pretty (failCount c)
                                 +:+ " are not yet available for Minecraft "
                                 +:+ v +:+ ".");
                     Log yellow "   Check back later at https://modrinth.com"]
                | TotalFailure =>
                    [Log red ("⚠ No mods could be downloaded for Minecraft "
                              +:+ v +:+ ".");
                     Log yellow "   Most mods may not be updated yet. You can:";
                     Log yellow ("   1. Wait for mod developers to release "
                                 +:+ v +:+ " versions");
                     Log yellow "   2. Check manually at https://modrinth.com"]
                end) as (lines & Hreport & Hlines).
  { subst report. destruct (verdict c); eexists; (split; [|reflexivity]).
    - apply prints_log.
    - apply (prints_bind _ _ [_] [_]); apply prints_log.
    - apply (prints_bind _ _ [_] [_; _; _]); [apply prints_log|].
      apply (prints_bind _ _ [_] [_; _]); [apply prints_log|].
      apply (prints_bind _ _ [_] [_]); apply prints_log. }
  clearbody report. rewrite <- Hlines. clear Hlines.
  eexists. split.
  - repeat match goal with
           | |- ∀ w, (_ ≫= _) w = _ => eapply prints_bind
           | |- ∀ w, log _ _ w = _ => apply prints_log
           | |- ∀ w, console_log _ w = _ => apply prints_console_log
           | |- ∀ w, report w = _ => apply Hreport
           end.
  - reflexivity.
Qed.

(** A run that completes has ended with the summary of the counters it
    returns. *)
Lemma script_ends_with_summary i w c w' :
  script i w = (Ok c, w') → ∃ v w1, summary v c w1 = (Ok tt, w').
Proof.
  unfold script.
  destruct (getMinecraftDir (host i)) as [minecraftDir| |]; [|done..].
  unfold try_catch.
  destruct (main i (paths_of (host i) minecraftDir) w) as [[c1| |] w1] eqn:Hmain;
    [|by cbn|done].
  intros [= -> ->]. unfold main in Hmain.
  repeat match type of Hmain with
         | (_ ≫= _) _ = (Ok _, _) =>
             apply bind_Ok_inv in Hmain as (? & ? & _ & Hmain)
         end.
  unfold installStages in Hmain.
  apply bind_Ok_inv in Hmain as (? & ? & _ & Hmain).
  apply bind_Ok_inv in Hmain as (counters & ? & _ & Hmain).
  apply bind_Ok_inv in Hmain as ([] & ? & Hsummary & [= -> ->]).
  by eexists _, _.
Qed.

(** C1, as the code has it: a run that completes has printed the summary of
    its counters.  With a zero unavailable counter the summary reports that
    all packages are ready; with a nonzero one it reports partial success
    exactly when something was newly downloaded or copied from local
    staging, and total failure exactly when neither happened.  Packages that
    were merely found installed are added to the total the summary prints
    and do not count for the verdict. *)
Theorem verdict_by_counters (i : Inputs) (w : World) (c : Counters) (w' : World) :
  script i w = (Ok c, w') →
  let total := localCopyCount c + successCount c + skipCount c in
  ∃ (v : string) (w1 : World) (report : list line),
    summary v c w1 = (Ok tt, w')
    ∧ fs w' = fs w1
    ∧ out w' = (out w1 ++ summary_counters v c ++ report ++ next_steps)%list
    ∧ (failCount c = 0 →
       report = [Log green ("🎉 All " +:+ pretty total
                            +:+ " mods and shaders are ready!")])
    ∧ (failCount c ≠ 0 →
       (report
        = [Log yellow ("⚠ " +:+ pretty total +:+ " mods installed, but "
                       +:+ pretty (failCount c)
                       +:+ " are not yet available for Minecraft " +:+ v +:+ ".");
           Log yellow "   Check back later at https://modrinth.com"]
        ↔ 0 < successCount c ∨ 0 < localCopyCount c)
       ∧ (report
          = [Log red ("⚠ No mods could be downloaded for Minecraft " +:+ v +:+ ".");
             Log yellow "   Most mods may not be updated yet. You can:";
             Log yellow ("   1. Wait for mod developers to release " +:+ v
                         +:+ " versions");
             Log yellow "   2. Check manually at https://modrinth.com"]
          ↔ successCount c = 0 ∧ localCopyCount c = 0)).
Proof.
  intros Hrun total.
  destruct (script_ends_with_summary i w c w' Hrun) as (v & w1 & Hsummary).
  exists v, w1. pose proof Hsummary as Hprinted.
  rewrite summary_eq in Hprinted. injection Hprinted as Hw'.
  eexists. split; [exact Hsummary|]. rewrite <- Hw'. cbn [fs out].
  split; [reflexivity|]. split; [reflexivity|].
  unfold verdict. split.
  - intros ->. reflexivity.
  - intros Hfail. destruct (Nat.eqb_spec (failCount c) 0) as [|_]; [done|].
    destruct (Nat.ltb_spec 0 (successCount c)), (Nat.ltb_spec 0 (localCopyCount c));
      cbn [orb]; (split; split; [..]); intros; first [done | lia | exfalso; lia].
Qed.

Lemma verdict_by_counters_witness :
  let r := script (linux_run (Some "1.21.10") None morning offline)
             (world_of one_mod_one_staged) in
  ∃ (v : string) (w1 : World) (report : list line),
    out r.2
    = (out w1 ++ summary_counters v (tally 1 0 7 0) ++ report ++ next_steps)%list
    ∧ report
      = [Log yellow ("⚠ 1 mods installed, but 7 are not yet available for Minecraft "
                     +:+ v +:+ ".");
         Log yellow "   Check back later at https://modrinth.com"].
Proof.
  cbv zeta.
  destruct (verdict_by_counters
              (linux_run (Some "1.21.10") None morning offline)
              (world_of one_mod_one_staged) (tally 1 0 7 0)
              (script (linux_run (Some "1.21.10") None morning offline)
                 (world_of one_mod_one_staged)).2)
    as (v & w1 & report & _ & _ & Hout & _ & Hverdict).
  - by vm_compute.
  - exists v, w1, report. split; [exact Hout|].
    apply (proj1 (Hverdict ltac:(discriminate))). right. cbn. lia.
Defined.

(** * Further properties of the script *)

(** ** [downloadMod] *)

(** Every path through [downloadMod] returns a boolean: [false] with the
    file system as it was, or [true] after writing the bytes of the first
    file of the first release at the entry its name designates. *)
Lemma downloadMod_cases i p projectSlug displayName isShader v w :
  ∃ b w',
    downloadMod i p projectSlug displayName isShader v w = (Ok b, w')
    ∧ ((b = false ∧ fs w' = fs w)
       ∨ (b = true
          ∧ ∃ response release rest file more fileResponse parent entry,
              network i (apiUrl projectSlug v) = Some response
              ∧ ok response = true
              ∧ json response = BodyVersions (Some release :: rest)
              ∧ files release = file :: more
              ∧ network i (url file) = Some fileResponse
              ∧ ok fileResponse = true
              ∧ path_entry (host i) (installedDir p isShader) (filename file)
                = Some (parent, entry)
              ∧ is_directory (host i) (fs w) (join (host i) parent entry) = false
              ∧ lookup_entry (fs w) parent entry ≠ Some Dir
              ∧ fs w' = write_entry (fs w) parent entry
                          (arrayBuffer fileResponse))).
Proof.
  unfold downloadMod, try_catch, fetch, response_json, log, throw,
    Bun_write_path, Bun_write, installedDir, mbind, M_bind, mret, M_ret.
  cbn.
  destruct (network i (apiUrl projectSlug v)) as [response|] eqn:Hnet;
    [|by eexists _, _; split; [reflexivity | left]].
  destruct (ok response) eqn:Hok; cbn;
    [|by eexists _, _; split; [reflexivity | left]].
  destruct (json response) as [| |[|[release|] rest]] eqn:Hjson; cbn;
    try (by eexists _, _; split; [reflexivity | left]).
  destruct (files release) as [|file more] eqn:Hfiles; cbn;
    [by eexists _, _; split; [reflexivity | left]|].
  destruct (network i (url file)) as [fileResponse|] eqn:Hnet2; cbn;
    [|by eexists _, _; split; [reflexivity | left]].
  destruct (ok fileResponse) eqn:Hok2; cbn;
    [|by eexists _, _; split; [reflexivity | left]].
  destruct (path_entry (host i) (if isShader then SHADERPACKS_DIR p else MODS_DIR p)
              (filename file)) as [[parent entry]|] eqn:Hpath; cbn;
    [|by eexists _, _; split; [reflexivity | left]].
  destruct (is_directory (host i) (fs w) (join (host i) parent entry))
    eqn:Hdir; cbn;
    [by eexists _, _; split; [reflexivity | left]|].
  destruct (lookup_entry (fs w) parent entry) as [[bytes|]|] eqn:Hdest; cbn;
    try (by eexists _, _; split; [reflexivity | left]);
    (eexists _, _; split; [reflexivity|]; right; split; [done|];
     exists response, release, rest, file, more, fileResponse, parent, entry;
     rewrite ?Hdest; by repeat split).
Qed.

(** X1: [downloadMod] never throws and never ends the process.  When it
    returns [false] the file system is as it was.  When it returns [true],
    the registry had answered with a release and a first file, and the
    download of that file had answered; if the name of the file is a plain
    name, so that the joined path designates that entry of the installed
    directory, the downloaded bytes are under that name there and no other
    entry has changed. *)
Theorem downloadMod_never_fails_halfway
    i p projectSlug displayName isShader v w :
  ∃ b w',
    downloadMod i p projectSlug displayName isShader v w = (Ok b, w')
    ∧ (b = false → fs w' = fs w)
    ∧ (b = true →
       ∃ response release rest file more fileResponse,
         network i (apiUrl projectSlug v) = Some response
         ∧ json response = BodyVersions (Some release :: rest)
         ∧ files release = file :: more
         ∧ network i (url file) = Some fileResponse
         ∧ (path_entry (host i) (installedDir p isShader) (filename file)
            = Some (installedDir p isShader, filename file) →
            lookup_entry (fs w') (installedDir p isShader) (filename file)
            = Some (File (arrayBuffer fileResponse))
            ∧ ∀ dir name,
                ¬ (dir = installedDir p isShader ∧ name = filename file) →
                lookup_entry (fs w') dir name = lookup_entry (fs w) dir name)).
Proof.
  destruct (downloadMod_cases i p projectSlug displayName isShader v w)
    as (b & w' & Hrun & [[-> Hfs] | [-> Hwritten]]).
  - exists false, w'. by repeat split.
  - destruct Hwritten as (response & release & rest & file & more & fileResponse
                          & parent & entry & Hnet & _ & Hjson & Hfiles & Hnet2
                          & _ & Hpath & _ & _ & Hfs).
    exists true, w'. split; [done|]. split; [done|]. intros _.
    exists response, release, rest, file, more, fileResponse.
    do 4 (split; [done|]). intros Hplain.
    rewrite Hplain in Hpath. injection Hpath as <- <-. rewrite Hfs. split.
    + rewrite lookup_entry_write. by rewrite decide_True.
    + intros dir name Hother. rewrite lookup_entry_write.
      by rewrite decide_False.
Qed.

(** X2: when the registry lists a release with a file, the download of that
    file succeeds, the name of the file is a plain name, so that the joined
    path designates that entry of the installed directory, and no directory
    sits there, [downloadMod] returns [true], stores the downloaded bytes
    under the file name the registry gave, in the shaderpacks directory for
    a shader and in the mods directory otherwise, and logs the version it
    found. *)
Theorem downloadMod_stores_first_file
    i p projectSlug displayName isShader v w
    response release rest file more fileResponse :
  network i (apiUrl projectSlug v) = Some response →
  ok response = true →
  json response = BodyVersions (Some release :: rest) →
  files release = file :: more →
  network i (url file) = Some fileResponse →
  ok fileResponse = true →
  path_entry (host i) (installedDir p isShader) (filename file)
  = Some (installedDir p isShader, filename file) →
  is_directory (host i) (fs w)
    (join (host i) (installedDir p isShader) (filename file)) = false →
  lookup_entry (fs w) (installedDir p isShader) (filename file) ≠ Some Dir →
  downloadMod i p projectSlug displayName isShader v w
  = (Ok true,
     {| fs := write_entry (fs w) (installedDir p isShader) (filename file)
                (arrayBuffer fileResponse);
        out := out w
               ++ [Log blue ("Downloading " +:+ displayName +:+ "...");
                   Log cyan ("  ℹ Found: " +:+ version_number release);
                   Log green ("  ✓ Downloaded " +:+ filename file)] |}).
Proof.
  intros Hnet Hok Hjson Hfiles Hnet2 Hok2 Hplain Hnodir Hdest.
  unfold downloadMod, try_catch, fetch, response_json, log, throw,
    Bun_write_path, Bun_write, installedDir, mbind, M_bind, mret, M_ret in *.
  cbn. rewrite Hnet. cbn. rewrite Hok. cbn. rewrite Hjson. cbn.
  rewrite Hfiles. cbn. rewrite Hnet2. cbn. rewrite Hok2. cbn.
  rewrite Hplain. cbn. rewrite Hnodir. cbn.
  destruct (lookup_entry (fs w) (if isShader then SHADERPACKS_DIR p else MODS_DIR p)
              (filename file)) as [[bytes|]|]; [|done|];
    cbn; by rewrite <- !app_assoc.
Qed.

Lemma downloadMod_stores_first_file_witness :
  ∃ w', downloadMod sodium_run linux_paths "sodium" "Sodium" false "1.21.10"
          (world_of fresh_install) = (Ok true, w')
        ∧ lookup_entry (fs w') (MODS_DIR linux_paths) "sodium-1.0.0.jar"
          = Some (File "bytes of sodium").
Proof.
  eexists. split.
  - apply (downloadMod_stores_first_file sodium_run linux_paths "sodium" "Sodium"
             false "1.21.10" (world_of fresh_install)
             (release_of "sodium")
             {| version_number := "1.0.0";
                files := [{| url := "https://cdn.modrinth.com/sodium";
                             filename := "sodium-1.0.0.jar" |}] |}
             [] {| url := "https://cdn.modrinth.com/sodium";
                   filename := "sodium-1.0.0.jar" |} []
             (download_of "sodium"));
      [reflexivity | reflexivity | reflexivity | reflexivity | reflexivity
      | reflexivity | reflexivity | reflexivity | by vm_compute].
  - by vm_compute.
Defined.

(** ** The remote fetch loop *)

Lemma find_jar_nonempty slug (files : list string) file :
  List.find (λ file, endsWith file ".jar" && modMatchesFilename file slug) files
  = Some file →
  falsy (Some file) = false.
Proof.
  intros [_ Htest]%find_some. apply andb_true_iff in Htest as [Hjar _].
  by destruct file.
Qed.

(** X3: when the existing-installation check finds a file, [fetchMod]
    counts the package as already installed, logs the file it found, leaves
    the file system as it is and does not consult the registry: the outcome
    is the same under every network. *)
Theorem fetchMod_skips_installed_package i p v entry c w file :
  (findExistingMod (slug entry) (MODS_DIR p) w).1 = Ok (Some file) →
  fetchMod i p v entry c w
  = (Ok (count_skip c),
     {| fs := fs w;
        out := out w ++ [Log cyan (name entry +:+ " already installed: " +:+ file)] |})
  ∧ skipCount (count_skip c) = S (skipCount c)
  ∧ ∀ net, fetchMod {| host := host i; mcVersionPrompt := mcVersionPrompt i;
                        cleanupPrompt := cleanupPrompt i; now := now i;
                        network := net; java_version := java_version i;
                        fabric_installer := fabric_installer i |}
             p v entry c w
           = fetchMod i p v entry c w.
Proof.
  intros Hfound. rewrite findExistingMod_eq in Hfound. simpl in Hfound.
  injection Hfound as Hfound.
  assert (falsy (Some file) = false) as Hfile.
  { destruct (fs w !! MODS_DIR p) as [listing|]; [|done].
    by eapply find_jar_nonempty. }
  assert (∀ j, fetchMod j p v entry c w
               = (Ok (count_skip c),
                  {| fs := fs w;
                     out := out w ++ [Log cyan (name entry +:+ " already installed: "
                                                +:+ file)] |})) as Hany.
  { intros j. unfold fetchMod.
    erewrite bind_ok; [|apply findExistingMod_eq]. rewrite Hfound, Hfile.
    reflexivity. }
  split; [apply Hany|]. split; [done|]. intros net. by rewrite !Hany.
Qed.

Lemma fetchMod_skips_installed_package_witness :
  fetchMod (linux_run (Some "1.21.10") None morning offline) linux_paths "1.21.10"
    {| slug := "modmenu"; name := "Mod Menu" |} (tally 0 0 0 2)
    (world_of installed_but_sodium)
  = (Ok (tally 0 0 0 3),
     {| fs := installed_but_sodium;
        out := [Log cyan "Mod Menu already installed: modmenu-9.0.0.jar"] |}).
Proof.
  apply (proj1 (fetchMod_skips_installed_package
                  (linux_run (Some "1.21.10") None morning offline) linux_paths
                  "1.21.10" {| slug := "modmenu"; name := "Mod Menu" |}
                  (tally 0 0 0 2) (world_of installed_but_sodium)
                  "modmenu-9.0.0.jar" ltac:(by vm_compute))).
Defined.





(** ** The prerequisite guard *)

(** X5: when the installer artifact is in the working directory,
    [ensureFabricInstaller] only logs that it is there: the file system is
    as it was and the outcome is the same under every network. *)
Theorem ensureFabricInstaller_reuses_artifact i w :
  is_Some (lookup_entry (fs w) (cwd (host i)) INSTALLER) →
  ensureFabricInstaller i w
  = (Ok tt,
     {| fs := fs w;
        out := out w ++ [Log cyan ("  ℹ Fabric installer already present: "
                                   +:+ INSTALLER)] |})
  ∧ ∀ net, ensureFabricInstaller
             {| host := host i; mcVersionPrompt := mcVersionPrompt i;
                cleanupPrompt := cleanupPrompt i; now := now i;
                network := net; java_version := java_version i;
                fabric_installer := fabric_installer i |} w
           = ensureFabricInstaller i w.
Proof.
  intros Hpresent.
  assert (∀ j, host j = host i →
               ensureFabricInstaller j w
               = (Ok tt,
                  {| fs := fs w;
                     out := out w ++ [Log cyan ("  ℹ Fabric installer already present: "
                                                +:+ INSTALLER)] |})) as Hany.
  { intros j Hhost. unfold ensureFabricInstaller. rewrite Hhost.
    erewrite bind_ok; [|reflexivity]. cbv beta.
    by rewrite bool_decide_eq_true_2 by done. }
  split; [by apply Hany|]. intros net. by rewrite !Hany.
Qed.

Lemma ensureFabricInstaller_reuses_artifact_witness :
  ensureFabricInstaller (linux_run (Some "1.21.10") None morning offline)
    (world_of fresh_install)
  = (Ok tt,
     {| fs := fresh_install;
        out := [Log cyan "  ℹ Fabric installer already present: fabric-installer-1.1.0.jar"] |}).
Proof.
  apply (proj1 (ensureFabricInstaller_reuses_artifact
                  (linux_run (Some "1.21.10") None morning offline)
                  (world_of fresh_install) ltac:(by eexists))).
Defined.

Lemma installer_missing i w :
  lookup_entry (fs w) (cwd (host i)) INSTALLER = None →
  existsSync_entry (cwd (host i)) INSTALLER w = (Ok false, w).
Proof.
  intros Hmissing. unfold existsSync_entry.
  rewrite bool_decide_eq_false_2; [done|]. rewrite Hmissing. by intros [? ?].
Qed.

(** X6: when the artifact is missing and the fixed URL answers with a
    success status, [ensureFabricInstaller] writes the response body to the
    artifact's path in the working directory and changes nothing else. *)
Theorem ensureFabricInstaller_downloads_artifact i w response :
  lookup_entry (fs w) (cwd (host i)) INSTALLER = None →
  network i INSTALLER_URL = Some response →
  ok response = true →
  ensureFabricInstaller i w
  = (Ok tt,
     {| fs := write_entry (fs w) (cwd (host i)) INSTALLER (arrayBuffer response);
        out := out w ++ [Log blue "Downloading Fabric Installer...";
                         Log green ("  ✓ Downloaded " +:+ INSTALLER)] |}).
Proof.
  intros Hmissing Hnet Hok. unfold ensureFabricInstaller.
  erewrite bind_ok; [|by apply installer_missing]. cbv beta iota.
  unfold try_catch, fetch, Bun_write, log, mbind, M_bind, mret, M_ret.
  cbn. rewrite Hnet. cbn. rewrite Hok. cbn. rewrite Hmissing.
  cbn. by rewrite <- ?app_assoc.
Qed.

Lemma ensureFabricInstaller_downloads_artifact_witness :
  ∃ w', ensureFabricInstaller (linux_run (Some "1.21.10") None morning maven)
          (world_of no_installer) = (Ok tt, w')
        ∧ lookup_entry (fs w') "/home/alex/fabric-helper" INSTALLER
          = Some (File "installer bytes").
Proof.
  eexists. split.
  - apply (ensureFabricInstaller_downloads_artifact
             (linux_run (Some "1.21.10") None morning maven)
             (world_of no_installer) installer_answer);
      reflexivity.
  - by vm_compute.
Defined.

(** X7: when the artifact is missing and the download is rejected or
    answers with a non-success status, [ensureFabricInstaller] ends the
    process with status 1 after telling where to download the artifact by
    hand; the file system is as it was. *)
Theorem ensureFabricInstaller_fatal_without_artifact i w :
  lookup_entry (fs w) (cwd (host i)) INSTALLER = None →
  network i INSTALLER_URL = None
  ∨ (∃ response, network i INSTALLER_URL = Some response ∧ ok response = false) →
  ensureFabricInstaller i w
  = (Exit 1,
     {| fs := fs w;
        out := out w
               ++ [Log blue "Downloading Fabric Installer...";
                   Log red ("  ✗ Failed to download Fabric Installer: "
                            +:+ match network i INSTALLER_URL with
                                | Some response =>
                                    Error ("HTTP " +:+ pretty (status response)
                                           +:+ ": " +:+ statusText response)
                                | None => "TypeError: fetch failed"
                                end);
                   Log yellow ("  You can manually download from: "
                               +:+ INSTALLER_URL)] |}).
Proof.
  intros Hmissing Hfail. unfold ensureFabricInstaller.
  erewrite bind_ok; [|by apply installer_missing]. cbv beta iota.
  unfold try_catch, fetch, throw, process_exit, log, mbind, M_bind, mret, M_ret.
  cbn. destruct Hfail as [Hnet | (response & Hnet & Hok)]; rewrite Hnet; cbn.
  - by rewrite <- ?app_assoc.
  - rewrite Hok. cbn. by rewrite <- ?app_assoc.
Qed.

Lemma ensureFabricInstaller_fatal_without_artifact_witness :
  ensureFabricInstaller (linux_run (Some "1.21.10") None morning maven_404)
    (world_of no_installer)
  = (Exit 1,
     {| fs := no_installer;
        out := [Log blue "Downloading Fabric Installer...";
                Log red "  ✗ Failed to download Fabric Installer: Error: HTTP 404: Not Found";
                Log yellow ("  You can manually download from: " +:+ INSTALLER_URL)] |}).
Proof.
  rewrite (ensureFabricInstaller_fatal_without_artifact
             (linux_run (Some "1.21.10") None morning maven_404)
             (world_of no_installer) eq_refl
             (or_intror (ex_intro _ not_found (conj eq_refl eq_refl)))).
  by vm_compute.
Defined.

(** ** The prompts and the fatal aborts *)

Lemma lower_ascii_y c : lower_ascii c = "y"%char ↔ c = "y"%char ∨ c = "Y"%char.
Proof.
  destruct c as [[|] [|] [|] [|] [|] [|] [|] [|]]; vm_compute;
    intuition congruence.
Qed.

Lemma toLowerCase_y answer :
  toLowerCase answer = "y" ↔ answer = "y" ∨ answer = "Y".
Proof.
  destruct answer as [|c [|d rest]]; cbn [toLowerCase].
  - intuition congruence.
  - split.
    + intros [= Hc]. apply lower_ascii_y in Hc as [-> | ->]; auto.
    + intros [[= ->] | [= ->]]; reflexivity.
  - intuition congruence.
Qed.

Lemma readConfiguration_ok i f o :
  falsy (mcVersionPrompt i) = false →
  readConfiguration i {| fs := f; out := o |}
  = (Ok {| mcVersion := trim (default EmptyString (mcVersionPrompt i));
           shouldCleanup := match cleanupPrompt i with
                            | Some answer => String.eqb (toLowerCase answer) "y"
                            | None => false
                            end |},
     {| fs := f; out := o ++ [Plain EmptyString] |}).
Proof. intros Hanswer. unfold readConfiguration. by rewrite Hanswer. Qed.

(** X8: cleanup is confirmed by the answers [y] and [Y] and by nothing else:
    no answer, an empty answer, [yes] or an answer with a space around it all
    mean no.  The game version is the answer to the first prompt without its
    surrounding white space. *)
Theorem cleanup_needs_a_plain_yes i w cfg w' :
  readConfiguration i w = (Ok cfg, w') →
  (shouldCleanup cfg = true
   ↔ cleanupPrompt i = Some "y" ∨ cleanupPrompt i = Some "Y")
  ∧ (∃ answer, mcVersionPrompt i = Some answer ∧ answer ≠ EmptyString
               ∧ mcVersion cfg = trim answer)
  ∧ fs w' = fs w.
Proof.
  intros Hrun. destruct w as [f o].
  destruct (falsy (mcVersionPrompt i)) eqn:Hanswer.
  { by rewrite readConfiguration_requires_answer in Hrun. }
  rewrite readConfiguration_ok in Hrun by done. injection Hrun as <- <-.
  cbn [shouldCleanup mcVersion fs]. split; [|split; [|done]].
  - destruct (cleanupPrompt i) as [answer|].
    + rewrite String.eqb_eq, toLowerCase_y. intuition congruence.
    + intuition congruence.
  - destruct (mcVersionPrompt i) as [answer|]; [|done].
    exists answer. split; [done|]. split; [|done].
    intros ->. discriminate.
Qed.

Lemma cleanup_needs_a_plain_yes_witness :
  shouldCleanup {| mcVersion := "1.21.10"; shouldCleanup := true |} = true
  ↔ cleanupPrompt (linux_run (Some " 1.21.10 ") (Some "Y") morning offline)
    = Some "y"
    ∨ cleanupPrompt (linux_run (Some " 1.21.10 ") (Some "Y") morning offline)
      = Some "Y".
Proof.
  apply (proj1 (cleanup_needs_a_plain_yes
                  (linux_run (Some " 1.21.10 ") (Some "Y") morning offline)
                  (world_of fresh_install)
                  {| mcVersion := "1.21.10"; shouldCleanup := true |}
                  {| fs := fresh_install; out := [Plain EmptyString] |}
                  ltac:(by vm_compute))).
Defined.

(** X9: without an answer to the version prompt the whole run ends with
    status 1 right after the banner: one red line, and the file system is
    as it was. *)
Theorem script_requires_version i minecraftDir w :
  getMinecraftDir (host i) = Ok minecraftDir →
  falsy (mcVersionPrompt i) = true →
  script i w
  = (Exit 1,
     {| fs := fs w;
        out := out w
               ++ [Log blue banner_top;
                   Log blue "║  Automated Fabric Mod Installer       ║";
                   Log blue "║  Cross-Platform Edition (Bun)         ║";
                   Log blue banner_top;
                   Plain EmptyString;
                   Log red "Error: Minecraft version is required!"] |}).
Proof.
  intros Hdir Hanswer. unfold script, try_catch, main. rewrite Hdir.
  do 5 (erewrite bind_ok; [|reflexivity]).
  erewrite bind_exit; [|by apply readConfiguration_requires_answer].
  cbn [fs out]. by rewrite <- !app_assoc.
Qed.

Lemma script_requires_version_witness :
  (script (linux_run None (Some "y") morning offline)
     (world_of three_mods_installed)).1 = Exit 1
  ∧ fs (script (linux_run None (Some "y") morning offline)
          (world_of three_mods_installed)).2 = three_mods_installed.
Proof.
  rewrite (script_requires_version (linux_run None (Some "y") morning offline)
             "/home/alex/.minecraft" (world_of three_mods_installed)
             eq_refl eq_refl).
  split; reflexivity.
Defined.

(** ** Where a run writes *)

Section MoreSteps.

Context (R : relation FS) (HR : PreOrder R).

Lemma steps_throw {A} error : steps R (throw (A := A) error).
Proof. intros w r w' [= <- <-]. reflexivity. Qed.

Lemma steps_process_exit {A} code : steps R (process_exit (A := A) code).
Proof. intros w r w' [= <- <-]. reflexivity. Qed.

Lemma steps_sleep ms : steps R (sleep ms).
Proof. apply (steps_ret _ HR). Qed.

Lemma steps_try_catch {A} (body : M A) handler :
  steps R body → (∀ error, steps R (handler error)) →
  steps R (try_catch body handler).
Proof.
  intros Hbody Hhandler w r w'. unfold try_catch.
  destruct (body w) as [[a | e | c] w1] eqn:Hrun.
  - intros [= <- <-]. by eapply Hbody.
  - intros Hcatch. etrans; [by eapply Hbody | by eapply Hhandler].
  - intros [= <- <-]. by eapply Hbody.
Qed.

Lemma steps_fetch i target : steps R (fetch i target).
Proof.
  intros w r w'. unfold fetch.
  destruct (network i target); intros [= <- <-]; reflexivity.
Qed.

Lemma steps_response_json response : steps R (response_json response).
Proof.
  unfold response_json.
  destruct (json response); [apply steps_throw | apply (steps_ret _ HR)..].
Qed.

(** The continuation only has to behave on the values the first part can
    return. *)
Lemma steps_bind_returned {A B} (m : M A) (k : A → M B) :
  steps R m →
  (∀ a, (∃ w w1, m w = (Ok a, w1)) → steps R (k a)) →
  steps R (m ≫= k).
Proof.
  intros Hm Hk w r w'. unfold mbind, M_bind.
  destruct (m w) as [[a | e | c] w1] eqn:Hmw.
  - intros Hkw. etrans; [by eapply Hm | eapply Hk; eauto].
  - intros [= <- <-]. by eapply Hm.
  - intros [= <- <-]. by eapply Hm.
Qed.

End MoreSteps.

(** Walks through the statements of a computation; [primitive] settles the
    writes. *)
Ltac walk HR primitive :=
  repeat first
    [ solve [primitive]
    | apply (steps_ret _ HR) | apply (steps_log _ HR)
    | apply (steps_console_log _ HR) | apply (steps_sleep _ HR)
    | apply (steps_existsSync _ HR) | apply (steps_existsSync_entry _ HR)
    | apply (steps_readdirSync _ HR) | apply (steps_fetch _ HR)
    | apply (steps_response_json _ HR)
    | apply (steps_throw _ HR) | apply (steps_process_exit _ HR)
    | apply (steps_bind _ HR); [| intros ?]
    | apply (steps_try_catch _ HR); [| intros ?]
    | apply (steps_for_of _ HR); intros ? ? ?
    | apply steps_if
    | progress cbv zeta
    | match goal with
      | |- steps _ (match ?x with _ => _ end) => destruct x
      end ].

Lemma touches_mkdirSync dirs dir :
  dir ∈ dirs → steps (touches dirs) (mkdirSync dir).
Proof.
  intros Hin w r w' [= <- <-] d Hd. cbn [fs].
  apply ensure_dir_other. by intros ->.
Qed.

Lemma touches_rmSync dirs dir file :
  dir ∈ dirs → steps (touches dirs) (rmSync dir file).
Proof.
  intros Hin w r w' Hrun d Hd.
  apply rmSync_lookup in Hrun
    as [_ [[_ (listing & bytes & _ & _ & ->)] | [_ ->]]]; [|done].
  rewrite lookup_insert_ne; [done|]. by intros ->.
Qed.

Lemma touches_Bun_write dirs dir file bytes :
  dir ∈ dirs → steps (touches dirs) (Bun_write dir file bytes).
Proof.
  intros Hin w r w'. unfold Bun_write.
  destruct (lookup_entry (fs w) dir file) as [[?|]|]; intros [= <- <-] d Hd;
    cbn [fs]; try done; unfold write_entry;
    (rewrite lookup_insert_ne; [done|]; by intros ->).
Qed.

Lemma grows_mkdirSync dir : steps grows (mkdirSync dir).
Proof. intros w r w' [= <- <-] d file. cbn [fs]. by rewrite ensure_dir_entry. Qed.

Lemma grows_Bun_write dir file bytes : steps grows (Bun_write dir file bytes).
Proof.
  intros w r w'. unfold Bun_write.
  destruct (lookup_entry (fs w) dir file) as [[?|]|]; intros [= <- <-] d n;
    cbn [fs]; try done; rewrite lookup_entry_write; by case_decide.
Qed.

Lemma Bun_write_path_ok h dir name bytes parent entry w :
  path_entry h dir name = Some (parent, entry) →
  is_directory h (fs w) (join h parent entry) = false →
  lookup_entry (fs w) parent entry ≠ Some Dir →
  Bun_write_path h dir name bytes w
  = (Ok tt, {| fs := write_entry (fs w) parent entry bytes; out := out w |}).
Proof.
  intros Hpath Hnodir Hdest. unfold Bun_write_path, Bun_write.
  rewrite Hpath, Hnodir.
  by destruct (lookup_entry (fs w) parent entry) as [[?|]|].
Qed.

(** Where the write of a download lands. *)
Lemma Bun_write_path_lands h dir name bytes w r w' :
  Bun_write_path h dir name bytes w = (r, w') →
  fs w' = fs w
  ∨ ∃ parent entry, path_entry h dir name = Some (parent, entry)
                    ∧ fs w' = write_entry (fs w) parent entry bytes.
Proof.
  unfold Bun_write_path, Bun_write.
  destruct (path_entry h dir name) as [[parent entry]|];
    [|intros [= <- <-]; by left].
  destruct (is_directory h (fs w) (join h parent entry));
    [intros [= <- <-]; by left|].
  destruct (lookup_entry (fs w) parent entry) as [[?|]|]; intros [= <- <-];
    first [by left | right; by eexists _, _].
Qed.

Lemma touches_Bun_write_path dirs h dir name bytes :
  (∀ parent entry, path_entry h dir name = Some (parent, entry) → parent ∈ dirs) →
  steps (touches dirs) (Bun_write_path h dir name bytes).
Proof.
  intros Hin w r w' Hrun d Hd.
  apply Bun_write_path_lands in Hrun as [-> | (parent & entry & Hpath & ->)];
    [done|].
  unfold write_entry. rewrite lookup_insert_ne; [done|].
  intros ->. by apply Hd, (Hin _ entry).
Qed.

Lemma grows_Bun_write_path h dir name bytes :
  steps grows (Bun_write_path h dir name bytes).
Proof.
  intros w r w' Hrun d n.
  apply Bun_write_path_lands in Hrun as [-> | (parent & entry & Hpath & ->)];
    [done|].
  rewrite lookup_entry_write. by case_decide.
Qed.

(** The stages of [main], for a relation that the writes of the script
    respect. *)
Section StagesStep.

Context (R : relation FS) (HR : PreOrder R) (i : Inputs) (p : Paths).

Hypothesis Hwrite_cwd :
  ∀ file bytes, steps R (Bun_write (cwd (host i)) file bytes).
Hypothesis Hwrite_served :
  ∀ isShader name bytes,
    served i name →
    steps R (Bun_write_path (host i) (installedDir p isShader) name bytes).
Hypothesis Hcopy_installed :
  ∀ srcDir isShader file,
    steps R (copyFileSync srcDir file (installedDir p isShader) file).
Hypothesis Hmkdir_installed :
  ∀ isShader, steps R (mkdirSync (installedDir p isShader)).

Lemma steps_downloadMod projectSlug displayName isShader v :
  steps R (downloadMod i p projectSlug displayName isShader v).
Proof.
  intros w r w' Hrun.
  destruct (downloadMod_cases i p projectSlug displayName isShader v w)
    as (b & w1 & Hrun1 & Hcases).
  rewrite Hrun in Hrun1. injection Hrun1 as -> ->.
  destruct Hcases as [[_ ->] | [_ Hwritten]]; [reflexivity|].
  destruct Hwritten as (response & release & rest & file & more & fileResponse
                        & parent & entry & Hnet & _ & Hjson & Hfiles & _ & _
                        & Hpath & Hnodir & Hdest & Hfs).
  rewrite Hfs.
  assert (served i (filename file)) as Hserved.
  { by exists (apiUrl projectSlug v), response, release, rest, file, more. }
  apply (Hwrite_served isShader (filename file) (arrayBuffer fileResponse)
           Hserved w (Ok tt)
           {| fs := write_entry (fs w) parent entry (arrayBuffer fileResponse);
              out := out w |}).
  by apply Bun_write_path_ok.
Qed.

Lemma steps_fetchMod v entry c : steps R (fetchMod i p v entry c).
Proof.
  unfold fetchMod, findExistingMod. walk HR ltac:(apply steps_downloadMod).
Qed.

Lemma steps_fetchShader v c : steps R (fetchShader i p v c).
Proof.
  unfold fetchShader, findExistingShader. walk HR ltac:(apply steps_downloadMod).
Qed.

Lemma steps_remoteFetchStage v n : steps R (remoteFetchStage i p v n).
Proof.
  unfold remoteFetchStage.
  walk HR ltac:(first [apply steps_fetchMod | apply steps_fetchShader]).
Qed.

Lemma steps_summary v c : steps R (summary v c).
Proof. unfold summary. walk HR fail. Qed.

Lemma steps_installStages v : steps R (installStages i p v).
Proof.
  unfold installStages.
  walk HR ltac:(first [ apply (steps_localMergeStage _ HR); apply Hcopy_installed
                      | apply steps_remoteFetchStage | apply steps_summary ]).
Qed.

Lemma steps_ensureFabricInstaller : steps R (ensureFabricInstaller i).
Proof. unfold ensureFabricInstaller. walk HR ltac:(apply Hwrite_cwd). Qed.

Lemma steps_readConfiguration : steps R (readConfiguration i).
Proof. unfold readConfiguration. walk HR fail. Qed.

(** [main] after the prompts, for a configuration whose cleanup step
    respects [R]. *)
Lemma steps_main_from_configuration cfg :
  (shouldCleanup cfg = true → steps R (cleanupStage i p)) →
  steps R
    (console_log EmptyString;;
     log green ("Installing for Minecraft " +:+ mcVersion cfg);;
     console_log EmptyString;;
     log green "[0/5] Checking Fabric Installer...";;
     ensureFabricInstaller i;;
     console_log EmptyString;;
     (if java_version i then mret tt
      else
        log red "Error: Java is not installed!";;
        log yellow "Install Java to continue.";;
        process_exit 1);;
     log green "[1/5] Installing Fabric Loader...";;
     (if fabric_installer i (MINECRAFT_DIR p) (mcVersion cfg) then mret tt
      else
        log red "Failed to install Fabric. Check your Minecraft version.";;
        process_exit 1);;
     console_log EmptyString;;
     log green "[2/5] Creating directories...";;
     mkdirSync (MODS_DIR p);;
     mkdirSync (SHADERPACKS_DIR p);;
     log green ("  ✓ Mods directory: " +:+ MODS_DIR p);;
     log green ("  ✓ Shaderpacks directory: " +:+ SHADERPACKS_DIR p);;
     console_log EmptyString;;
     (if shouldCleanup cfg then cleanupStage i p
      else
        log green "[3/5] Skipping cleanup...";;
        console_log EmptyString);;
     installStages i p (mcVersion cfg)).
Proof.
  intros Hcleanup.
  destruct (shouldCleanup cfg);
    walk HR ltac:(first [ apply steps_ensureFabricInstaller
                        | apply (Hmkdir_installed false)
                        | apply (Hmkdir_installed true)
                        | apply steps_installStages
                        | by apply Hcleanup ]).
Qed.

Lemma steps_main :
  (∀ cfg, (∃ w w1, readConfiguration i w = (Ok cfg, w1)) →
          shouldCleanup cfg = true → steps R (cleanupStage i p)) →
  steps R (main i p).
Proof.
  intros Hcleanup. unfold main.
  do 5 (apply (steps_bind _ HR); [apply (steps_log _ HR)
                                  || apply (steps_console_log _ HR) | intros _]).
  apply (steps_bind_returned _ HR); [apply steps_readConfiguration|].
  intros cfg Hcfg. apply steps_main_from_configuration. by apply Hcleanup.
Qed.

End StagesStep.

Ltac touches_primitive :=
  first [ apply touches_mkdirSync | apply touches_copyFileSync
        | apply touches_rmSync | apply touches_Bun_write ];
  unfold written_dirs; cbn; set_solver.

Ltac grows_primitive :=
  first [ apply grows_mkdirSync | apply grows_copyFileSync
        | apply grows_Bun_write ].

Lemma touches_cleanupStage i p :
  steps (touches (written_dirs i p)) (cleanupStage i p).
Proof.
  pose proof (touches_preorder (written_dirs i p)) as HR.
  unfold cleanupStage, backupAndClean. walk HR touches_primitive.
Qed.

Lemma touches_main i p :
  (∀ isShader name parent entry,
      served i name →
      path_entry (host i) (installedDir p isShader) name = Some (parent, entry) →
      parent = installedDir p isShader) →
  steps (touches (written_dirs i p)) (main i p).
Proof.
  intros Hplain. apply (steps_main _ (touches_preorder _)).
  - intros file bytes. touches_primitive.
  - intros isShader name bytes Hserved. apply touches_Bun_write_path.
    intros parent entry Hpath.
    rewrite (Hplain isShader name parent entry Hserved Hpath).
    destruct isShader; unfold written_dirs; cbn; set_solver.
  - intros srcDir [] file; touches_primitive.
  - intros []; touches_primitive.
  - intros cfg _ _. apply touches_cleanupStage.
Qed.

(** X10: with its own file operations (the loader's installer is an
    external program and stays outside the file-system model), and provided
    every file name the registry serves is a plain name, so that the joined
    path designates an entry of the installed directory itself, a whole run,
    whatever its outcome, creates, changes and removes regular files only
    in the working directory, the two installed directories and the two
    backup sub-folders; the local staging directories in particular are
    read and never written. *)
Theorem script_writes_only_its_directories i minecraftDir w dir file bytes :
  getMinecraftDir (host i) = Ok minecraftDir →
  (∀ isShader name parent entry,
      served i name →
      path_entry (host i) (installedDir (paths_of (host i) minecraftDir) isShader)
        name = Some (parent, entry) →
      parent = installedDir (paths_of (host i) minecraftDir) isShader) →
  dir ∉ written_dirs i (paths_of (host i) minecraftDir) →
  lookup_entry (fs (script i w).2) dir file = Some (File bytes)
  ↔ lookup_entry (fs w) dir file = Some (File bytes).
Proof.
  intros Hdir Hplain Hother.
  destruct (script i w) as [r w'] eqn:Hrun. cbn [snd].
  pose proof (touches_preorder (written_dirs i (paths_of (host i) minecraftDir)))
    as HR.
  assert (steps (touches (written_dirs i (paths_of (host i) minecraftDir)))
            (script i)) as Hsteps.
  { intros w0 r0 w0'. unfold script. rewrite Hdir.
    apply (steps_try_catch _ HR); [by apply touches_main|].
    intros error. walk HR fail. }
  unfold lookup_entry. by rewrite (Hsteps _ _ _ Hrun dir Hother).
Qed.

Lemma script_writes_only_its_directories_witness :
  lookup_entry
    (fs (script (linux_run (Some "1.21.10") (Some "y") morning registry_with_sodium)
           (world_of one_mod_one_staged)).2)
    (LOCAL_MODS_DIR linux_paths) "custom.jar" = Some (File "x")
  ↔ lookup_entry one_mod_one_staged (LOCAL_MODS_DIR linux_paths) "custom.jar"
    = Some (File "x").
Proof.
  apply (script_writes_only_its_directories
           (linux_run (Some "1.21.10") (Some "y") morning registry_with_sodium)
           "/home/alex/.minecraft" (world_of one_mod_one_staged)
           (LOCAL_MODS_DIR linux_paths) "custom.jar" "x" eq_refl).
  - intros isShader name parent entry
      (target & response & release & rest & served_file & more
       & Hnet & Hjson & Hfiles & <-) Hpath.
    cbn in Hnet.
    destruct (String.eqb target (apiUrl "sodium" "1.21.10")).
    + injection Hnet as <-. injection Hjson as <- _. injection Hfiles as <- _.
      destruct isShader; vm_compute in Hpath; injection Hpath as <- _;
        reflexivity.
    + destruct (String.eqb target _); [|discriminate].
      injection Hnet as <-. discriminate.
  - by apply (bool_decide_unpack _); vm_compute.
Defined.

Lemma readConfiguration_declines i cfg :
  cleanupPrompt i ≠ Some "y" → cleanupPrompt i ≠ Some "Y" →
  (∃ w w1, readConfiguration i w = (Ok cfg, w1)) →
  shouldCleanup cfg = false.
Proof.
  intros Hy HY ([f o] & w1 & Hrun).
  destruct (falsy (mcVersionPrompt i)) eqn:Hanswer.
  { by rewrite readConfiguration_requires_answer in Hrun. }
  rewrite readConfiguration_ok in Hrun by done. injection Hrun as <- _.
  cbn [shouldCleanup]. destruct (cleanupPrompt i) as [answer|]; [|done].
  apply String.eqb_neq. rewrite toLowerCase_y. intros [-> | ->]; congruence.
Qed.

(** X11: unless cleanup was confirmed with [y] or [Y], a run removes
    nothing with its own file operations (the loader's installer is an
    external program and stays outside the file-system model): every entry
    that was in the file system before the run is still there after it,
    whatever the outcome of the run. *)
Theorem script_removes_nothing_unless_confirmed i minecraftDir w dir file :
  getMinecraftDir (host i) = Ok minecraftDir →
  cleanupPrompt i ≠ Some "y" → cleanupPrompt i ≠ Some "Y" →
  is_Some (lookup_entry (fs w) dir file) →
  is_Some (lookup_entry (fs (script i w).2) dir file).
Proof.
  intros Hdir Hy HY.
  destruct (script i w) as [r w'] eqn:Hrun. cbn [snd].
  pose proof grows_preorder as HR.
  assert (steps grows (script i)) as Hsteps.
  { intros w0 r0 w0'. unfold script. rewrite Hdir.
    apply (steps_try_catch _ HR); [|intros error; walk HR fail].
    apply (steps_main _ HR).
    - intros ? ?. apply grows_Bun_write.
    - intros ? ? ? _. apply grows_Bun_write_path.
    - intros ? ? ?. apply grows_copyFileSync.
    - intros ?. apply grows_mkdirSync.
    - intros cfg Hcfg Hconfirmed.
      by rewrite (readConfiguration_declines i cfg Hy HY Hcfg) in Hconfirmed. }
  apply (Hsteps _ _ _ Hrun).
Qed.

Lemma script_removes_nothing_unless_confirmed_witness :
  is_Some (lookup_entry
             (fs (script (linux_run (Some "1.21.10") (Some "yes") morning offline)
                    (world_of three_mods_installed)).2)
             (MODS_DIR linux_paths) "sodium-0.5.8.jar").
Proof.
  apply (script_removes_nothing_unless_confirmed
           (linux_run (Some "1.21.10") (Some "yes") morning offline)
           "/home/alex/.minecraft" (world_of three_mods_installed)
           (MODS_DIR linux_paths) "sodium-0.5.8.jar" eq_refl);
    [discriminate | discriminate | by eexists].
Defined.

(** ** More on the cleanup stage *)

Global Instance spares_non_jars_preorder dir : PreOrder (spares_non_jars dir).
Proof.
  split; unfold spares_non_jars; [intros f; auto|].
  intros f g k Hfg Hgk file Hfile. by rewrite Hgk, Hfg.
Qed.

Lemma spares_mkdirSync dir d : steps (spares_non_jars dir) (mkdirSync d).
Proof. intros w r w' [= <- <-] file _. cbn [fs]. apply ensure_dir_entry. Qed.

Lemma spares_copyFileSync dir srcDir src dstDir dst :
  dstDir ≠ dir → steps (spares_non_jars dir) (copyFileSync srcDir src dstDir dst).
Proof.
  intros Hne w r w' Hrun file _.
  apply copyFileSync_lookup in Hrun as [_ [[_ (bytes & _ & ->)] | [_ ->]]]; [|done].
  rewrite lookup_entry_write. by rewrite decide_False by (by intros [? ?]).
Qed.

Lemma spares_rmSync dir d file :
  d ≠ dir ∨ endsWith file ".jar" = true →
  steps (spares_non_jars dir) (rmSync d file).
Proof.
  intros Hwhy w r w' Hrun name Hname.
  apply rmSync_lookup in Hrun
    as [_ [[_ (listing & bytes & Hdir & _ & ->)] | [_ ->]]]; [|done].
  rewrite (lookup_entry_delete _ _ _ _ _ _ Hdir).
  rewrite decide_False; [done|]. intros [-> ->]. destruct Hwhy; congruence.
Qed.

Lemma spares_cleanupStage i p :
  NoDup [MODS_DIR p; SHADERPACKS_DIR p;
         backupModsDir (host i) (now i); backupShadersDir (host i) (now i)] →
  steps (spares_non_jars (MODS_DIR p)) (cleanupStage i p).
Proof.
  intros (H1 & H2 & H3 & H4 & H5 & H6)%NoDup_four.
  pose proof (spares_non_jars_preorder (MODS_DIR p)) as HR.
  unfold cleanupStage, backupAndClean.
  walk HR ltac:(first
    [ apply spares_mkdirSync
    | apply spares_copyFileSync; done
    | apply spares_rmSync; left; done
    | apply spares_rmSync; right;
      match goal with
      | H : _ ∈ filter _ _ |- _ =>
          apply list_elem_of_filter in H as [H _]; by apply Is_true_true
      end ]).
Qed.

(** X12: the cleanup stage never removes or changes an entry of the mods
    directory whose name does not end with [.jar], whatever the outcome of
    the stage. *)
Theorem cleanupStage_spares_other_files i minecraftDir w file :
  getMinecraftDir (host i) = Ok minecraftDir →
  endsWith file ".jar" = false →
  let p := paths_of (host i) minecraftDir in
  lookup_entry (fs (cleanupStage i p w).2) (MODS_DIR p) file
  = lookup_entry (fs w) (MODS_DIR p) file.
Proof.
  intros Hdir Hfile p.
  destruct (cleanupStage i p w) as [r w'] eqn:Hrun. cbn [snd].
  by apply (spares_cleanupStage i p
              (cleanup_dirs_distinct (host i) minecraftDir (now i) Hdir)
              _ _ _ Hrun).
Qed.

Lemma cleanupStage_spares_other_files_witness :
  lookup_entry
    (fs (cleanupStage (cleanup_run morning) linux_paths
           (world_of three_mods_installed)).2)
    (MODS_DIR linux_paths) "options.txt"
  = Some (File "o").
Proof.
  refine (eq_trans (cleanupStage_spares_other_files (cleanup_run morning)
                      "/home/alex/.minecraft" (world_of three_mods_installed)
                      "options.txt" eq_refl eq_refl) _).
  reflexivity.
Defined.

(** ** More on the local merge *)

Global Instance persists_preorder : PreOrder persists.
Proof. split; unfold persists; [intros f; auto | intros f g k; auto]. Qed.

Lemma persists_mergeFile p srcDir isShader file n :
  steps persists (mergeFile p srcDir isShader file n).
Proof.
  intros w r w'. unfold mergeFile, checkExistingFile.
  change (if isShader then SHADERPACKS_DIR p else MODS_DIR p)
    with (installedDir p isShader).
  unfold mbind at 1, M_bind at 1, existsSync_entry.
  case_bool_decide as Hpresent.
  - intros [= <- <-]. reflexivity.
  - unfold mbind, M_bind.
    destruct (copyFileSync srcDir file (installedDir p isShader) file w)
      as [r1 w1] eqn:Hcopy.
    assert (persists (fs w) (fs w1)) as Hstep.
    { apply copyFileSync_lookup in Hcopy
        as [_ [[_ (bytes & _ & ->)] | [_ ->]]]; [|reflexivity].
      intros dir name entry Hentry. rewrite lookup_entry_write.
      rewrite decide_False; [done|]. intros [-> ->].
      apply Hpresent. rewrite Hentry. by eexists. }
    destruct r1 as [[]|e|c]; intros [= <- <-]; exact Hstep.
Qed.

Lemma steps_localMergeStage_by_file (R : relation FS) (HR : PreOrder R) p :
  (∀ srcDir isShader file n, steps R (mergeFile p srcDir isShader file n)) →
  steps R (localMergeStage p).
Proof.
  intros Hfile. unfold localMergeStage, mergeMods, mergeShaders.
  walk HR ltac:(apply Hfile).
Qed.

(** X13: the local merge never overwrites or removes anything: every entry
    of the file system keeps its content through the stage, whatever the
    outcome; a staged file whose name is taken is left aside even when its
    bytes differ from the installed ones. *)
Theorem localMerge_never_overwrites p w dir file entry :
  lookup_entry (fs w) dir file = Some entry →
  lookup_entry (fs (localMergeStage p w).2) dir file = Some entry.
Proof.
  destruct (localMergeStage p w) as [r w'] eqn:Hrun. cbn [snd].
  apply (steps_localMergeStage_by_file persists _ p (persists_mergeFile p)
           _ _ _ Hrun).
Qed.

Lemma localMerge_never_overwrites_witness :
  lookup_entry (fs (localMergeStage linux_paths
                      (world_of two_staged_one_installed)).2)
    (MODS_DIR linux_paths) "custom.jar"
  = Some (File "old").
Proof.
  apply (localMerge_never_overwrites linux_paths
           (world_of two_staged_one_installed)
           (MODS_DIR linux_paths) "custom.jar" (File "old")).
  reflexivity.
Defined.

Lemma to_copy_other_write f installed x bytes files :
  x ∉ files →
  to_copy (write_entry f installed x bytes) installed files
  = to_copy f installed files.
Proof.
  unfold to_copy. induction files as [|y files IH]; intros Hx; [done|].
  apply not_elem_of_cons in Hx as [Hne Hx].
  rewrite !filter_cons, IH by done. rewrite lookup_entry_write.
  rewrite (decide_False (P := installed = installed ∧ y = x)); [done|].
  intros [_ ->]. done.
Qed.

Lemma mergeFile_copies p srcDir isShader file n f o n' w' :
  lookup_entry f (installedDir p isShader) file = None →
  mergeFile p srcDir isShader file n {| fs := f; out := o |} = (Ok n', w') →
  n' = S n
  ∧ ∃ bytes, fs w' = write_entry f (installedDir p isShader) file bytes.
Proof.
  intros Habsent Hrun. unfold mergeFile, checkExistingFile in Hrun.
  change (if isShader then SHADERPACKS_DIR p else MODS_DIR p)
    with (installedDir p isShader) in Hrun.
  erewrite bind_ok in Hrun; [|reflexivity]. cbn [fs] in Hrun.
  rewrite bool_decide_eq_false_2 in Hrun
    by (rewrite Habsent; by intros [? ?]).
  apply bind_Ok_inv in Hrun as ([] & w1 & Hcopy & Hrun).
  injection Hrun as <- <-. split; [done|]. cbn [fs].
  apply copyFileSync_lookup in Hcopy
    as [_ [[_ (bytes & _ & Hfs)] | [Hfail _]]]; [|done].
  by exists bytes.
Qed.

Lemma merge_loop_counts p srcDir isShader files :
  NoDup files →
  ∀ n f o n' w',
    for_of files (mergeFile p srcDir isShader) n {| fs := f; out := o |}
    = (Ok n', w') →
    n' = n + length (to_copy f (installedDir p isShader) files).
Proof.
  induction files as [|x files IH]; intros Hnodup n f o n' w' Hrun.
  - cbn in Hrun. injection Hrun as <- _. unfold to_copy. simpl. lia.
  - apply NoDup_cons in Hnodup as [Hx Hnodup]. cbn [for_of] in Hrun.
    apply bind_Ok_inv in Hrun as (n1 & [f1 o1] & Hfirst & Hrest).
    apply IH in Hrest; [|done]. unfold to_copy in *. rewrite filter_cons.
    destruct (lookup_entry f (installedDir p isShader) x) as [entry|] eqn:Hentry.
    + rewrite mergeFile_present in Hfirst by (by eexists).
      injection Hfirst as <- <- _. rewrite decide_False by done. exact Hrest.
    + apply mergeFile_copies in Hfirst as [-> [bytes Hfs]]; [|done].
      cbn [fs] in Hfs. subst f1. rewrite decide_True by done.
      fold (to_copy (write_entry f (installedDir p isShader) x bytes)
              (installedDir p isShader) files) in Hrest.
      rewrite to_copy_other_write in Hrest by done.
      unfold to_copy in Hrest. cbn [length]. lia.
Qed.

(** X14: the number the local merge reports as copied is the number of
    staged files that were not installed before: for the mods, the staged
    [.jar] files whose name is not in the mods directory, and for the
    shaders, the staged entries whose name is not in the shaderpacks
    directory. *)
Theorem localCopyCount_counts_new_files p w staged n n' w' :
  (fs w !! LOCAL_MODS_DIR p = Some staged →
   mergeMods p n w = (Ok n', w') →
   n' = n + length (to_copy (fs w) (MODS_DIR p)
                      (filter (λ file, endsWith file ".jar")
                         (map_to_list staged).*1)))
  ∧ (fs w !! LOCAL_SHADERS_DIR p = Some staged →
     mergeShaders p n w = (Ok n', w') →
     n' = n + length (to_copy (fs w) (SHADERPACKS_DIR p)
                        (map_to_list staged).*1)).
Proof.
  destruct w as [f o]. cbn [fs]. split; intros Hstaged Hrun.
  - unfold mergeMods in Hrun.
    erewrite bind_ok in Hrun; [|by eapply existsSync_ok]. cbv beta iota in Hrun.
    erewrite bind_ok in Hrun; [|reflexivity].
    erewrite bind_ok in Hrun; [|by eapply readdirSync_ok].
    eapply (merge_loop_counts p _ false); [|exact Hrun].
    apply NoDup_filter, NoDup_fst_map_to_list.
  - unfold mergeShaders in Hrun.
    erewrite bind_ok in Hrun; [|by eapply existsSync_ok]. cbv beta iota in Hrun.
    erewrite bind_ok in Hrun; [|reflexivity].
    erewrite bind_ok in Hrun; [|by eapply readdirSync_ok].
    eapply (merge_loop_counts p _ true); [|exact Hrun].
    apply NoDup_fst_map_to_list.
Qed.

Lemma localCopyCount_counts_new_files_witness :
  1 = 0 + length (to_copy two_staged_one_installed (MODS_DIR linux_paths)
                    (filter (λ file, endsWith file ".jar")
                       (map_to_list
                          ({[ "custom.jar" := File "new"; "extra.jar" := File "e";
                              "readme.txt" := File "r" ]} : gmap string node)).*1)).
Proof.
  apply (proj1 (localCopyCount_counts_new_files linux_paths
                  (world_of two_staged_one_installed)
                  {[ "custom.jar" := File "new"; "extra.jar" := File "e";
                     "readme.txt" := File "r" ]} 0 1
                  (mergeMods linux_paths 0 (world_of two_staged_one_installed)).2)).
  - reflexivity.
  - by vm_compute.
Defined.

(** ** More on the existing-installation checks *)

(** X15: the mod check answers "not installed" exactly when no [.jar] entry
    of the directory matches the slug (or the directory is missing), and the
    shader check exactly when no entry at all matches: a match is never
    overlooked because of its position in the listing. *)
Theorem existing_checks_overlook_nothing (p : Paths) (slug searchDir : string)
    (w : World) :
  ((findExistingMod slug searchDir w).1 = Ok None
   ↔ ∀ listing file,
       fs w !! searchDir = Some listing → is_Some (listing !! file) →
       endsWith file ".jar" = true → modMatchesFilename file slug = false)
  ∧ ((findExistingShader p slug w).1 = Ok None
     ↔ ∀ listing file,
         fs w !! SHADERPACKS_DIR p = Some listing → is_Some (listing !! file) →
         modMatchesFilename file slug = false).
Proof.
  rewrite findExistingMod_eq, findExistingShader_eq. cbn [fst]. split.
  - destruct (fs w !! searchDir) as [listing|]; [|by split].
    split.
    + intros [= Hnone] ? file [= <-] Hfile Hjar.
      apply readdir_elem, list_elem_of_In in Hfile.
      pose proof (find_none _ _ Hnone _ Hfile) as Htest. cbn beta in Htest.
      by rewrite Hjar in Htest.
    + intros Hall. f_equal.
      destruct (List.find _ _) as [found|] eqn:Hfind; [|done].
      apply find_some in Hfind as [Hin [Hjar Hmatch]%andb_true_iff].
      apply list_elem_of_In, readdir_elem in Hin.
      by rewrite (Hall listing found eq_refl Hin Hjar) in Hmatch.
  - destruct (fs w !! SHADERPACKS_DIR p) as [listing|]; [|by split].
    split.
    + intros [= Hnone] ? file [= <-] Hfile.
      apply readdir_elem, list_elem_of_In in Hfile.
      apply (find_none _ _ Hnone _ Hfile).
    + intros Hall. f_equal.
      destruct (List.find _ _) as [found|] eqn:Hfind; [|done].
      apply find_some in Hfind as [Hin Hmatch].
      apply list_elem_of_In, readdir_elem in Hin.
      by rewrite (Hall listing found eq_refl Hin) in Hmatch.
Qed.

(** X16: after a download that succeeded, the existing-installation check
    finds the package, provided the file name the registry gave is a plain
    name, so that the joined path designates that entry of the mods
    directory, ends with [.jar] and contains the slug; a second pass over
    the same package then skips the registry. *)
Theorem downloaded_package_is_found i p projectSlug displayName v w w' :
  downloadMod i p projectSlug displayName false v w = (Ok true, w') →
  (∀ response release rest file more,
      network i (apiUrl projectSlug v) = Some response →
      json response = BodyVersions (Some release :: rest) →
      files release = file :: more →
      path_entry (host i) (MODS_DIR p) (filename file)
      = Some (MODS_DIR p, filename file)
      ∧ endsWith (filename file) ".jar" = true
      ∧ modMatchesFilename (filename file) projectSlug = true) →
  ∃ found, findExistingMod projectSlug (MODS_DIR p) w' = (Ok (Some found), w')
           ∧ endsWith found ".jar" = true
           ∧ modMatchesFilename found projectSlug = true.
Proof.
  intros Hrun Hname.
  destruct (downloadMod_cases i p projectSlug displayName false v w)
    as (b & w1 & Hrun1 & Hcases).
  rewrite Hrun in Hrun1. injection Hrun1 as <- <-.
  destruct Hcases as [[? _] | [_ Hwritten]]; [done|].
  destruct Hwritten as (response & release & rest & file & more & fileResponse
                        & parent & entry & Hnet & _ & Hjson & Hfiles & _ & _
                        & Hpath & _ & _ & Hfs).
  destruct (Hname _ _ _ _ _ Hnet Hjson Hfiles) as (Hplain & Hjar & Hmatch).
  unfold installedDir in Hpath. rewrite Hplain in Hpath.
  injection Hpath as <- <-.
  rewrite findExistingMod_eq, Hfs. unfold write_entry.
  rewrite lookup_insert_eq.
  destruct (List.find _ _) as [found|] eqn:Hfind.
  - exists found. apply find_some in Hfind as [_ [? ?]%andb_true_iff]. done.
  - exfalso.
    assert (In (filename file)
              (map_to_list (<[filename file := File (arrayBuffer fileResponse)]>
                              (default ∅ (fs w !! MODS_DIR p)))).*1) as Hin.
    { apply list_elem_of_In, readdir_elem. rewrite lookup_insert_eq. by eexists. }
    pose proof (find_none _ _ Hfind _ Hin) as Htest. cbn beta in Htest.
    by rewrite Hjar, Hmatch in Htest.
Qed.

Lemma downloaded_package_is_found_witness :
  ∃ found,
    findExistingMod "sodium" (MODS_DIR linux_paths)
      (downloadMod sodium_run linux_paths "sodium" "Sodium" false "1.21.10"
         (world_of fresh_install)).2
    = (Ok (Some found),
       (downloadMod sodium_run linux_paths "sodium" "Sodium" false "1.21.10"
          (world_of fresh_install)).2)
    ∧ endsWith found ".jar" = true
    ∧ modMatchesFilename found "sodium" = true.
Proof.
  apply (downloaded_package_is_found sodium_run linux_paths "sodium" "Sodium"
           "1.21.10" (world_of fresh_install)).
  - by vm_compute.
  - intros response release rest file more Hnet Hjson Hfiles.
    injection Hnet as <-. injection Hjson as <- _. injection Hfiles as <- _.
    split; [|split]; reflexivity.
Defined.

(** ** The registry query *)

Lemma hex_digit_unreserved k : k < 16 → is_unreserved (hex_digit k) = true.
Proof.
  intros Hk. do 16 (destruct k as [|k]; [reflexivity|]). lia.
Qed.

Lemma encodeURIComponent_safe s :
  string_forall url_safe (encodeURIComponent s) = true.
Proof.
  induction s as [|c s IH]; [done|]. cbn [encodeURIComponent].
  destruct (is_unreserved c) eqn:Hc; cbn [string_forall].
  - unfold url_safe at 1. by rewrite Hc, IH.
  - pose proof (nat_ascii_bounded c) as Hbound.
    unfold url_safe at 1 2 3.
    rewrite !hex_digit_unreserved, IH; [done|..].
    + apply Nat.mod_upper_bound. lia.
    + apply Nat.Div0.div_lt_upper_bound. lia.
Qed.

Lemma encodeURIComponent_plain s :
  string_forall is_unreserved s = true → encodeURIComponent s = s.
Proof.
  induction s as [|c s IH]; [done|]. cbn [string_forall encodeURIComponent].
  intros [Hc Hs]%andb_true_iff. by rewrite Hc, IH.
Qed.

(** X17: the game version enters the registry query percent-encoded: every
    character of the encoded version is a letter, a digit, one of
    [-_.!~*'()] or [%], so an answer to the prompt cannot close the quoted
    list of the query or add a parameter to it; a version made of letters,
    digits and [-_.!~*'()] only, like [1.21.10], enters the query as it
    is. *)
Theorem apiUrl_encodes_version (projectSlug v : string) :
  ∃ encoded,
    apiUrl projectSlug v
    = API_BASE +:+ "/project/" +:+ projectSlug +:+ "/version?loaders=["
      +:+ dquote +:+ "fabric" +:+ dquote +:+ "]&game_versions=["
      +:+ dquote +:+ encoded +:+ dquote +:+ "]"
    ∧ string_forall url_safe encoded = true
    ∧ (string_forall is_unreserved v = true → encoded = v).
Proof.
  exists (encodeURIComponent v).
  split; [done|]. split; [apply encodeURIComponent_safe|].
  apply encodeURIComponent_plain.
Qed.

Lemma apiUrl_encodes_version_witness :
  ∃ encoded,
    apiUrl "sodium" "1.21.10"
    = API_BASE +:+ "/project/sodium/version?loaders=["
      +:+ dquote +:+ "fabric" +:+ dquote +:+ "]&game_versions=["
      +:+ dquote +:+ encoded +:+ dquote +:+ "]"
    ∧ encoded = "1.21.10".
Proof.
  destruct (apiUrl_encodes_version "sodium" "1.21.10")
    as (encoded & Hurl & _ & Hplain).
  exists encoded. split; [exact Hurl | apply Hplain; reflexivity].
Defined.

(** ** How a run ends *)

Section Exits.

Lemma exits_ret {A} (a : A) : exits_with_one (mret a).
Proof. by intros w code w'. Qed.

Lemma exits_throw {A} error : exits_with_one (throw (A := A) error).
Proof. by intros w code w'. Qed.

Lemma exits_process_exit {A} : exits_with_one (process_exit (A := A) 1).
Proof. by intros w code w' [= <- _]. Qed.

Lemma exits_bind {A B} (m : M A) (k : A → M B) :
  exits_with_one m → (∀ a, exits_with_one (k a)) → exits_with_one (m ≫= k).
Proof.
  intros Hm Hk w code w'. unfold mbind, M_bind.
  destruct (m w) as [[a | e | c] w1] eqn:Hmw.
  - apply Hk.
  - done.
  - intros [= <- <-]. by eapply Hm.
Qed.

Lemma exits_try_catch {A} (body : M A) handler :
  exits_with_one body → (∀ error, exits_with_one (handler error)) →
  exits_with_one (try_catch body handler).
Proof.
  intros Hbody Hhandler w code w'. unfold try_catch.
  destruct (body w) as [[a | e | c] w1] eqn:Hrun.
  - done.
  - apply Hhandler.
  - intros [= <- <-]. by eapply Hbody.
Qed.

Lemma exits_for_of {A S} (l : list A) (body : A → S → M S) s :
  (∀ x s', exits_with_one (body x s')) → exits_with_one (for_of l body s).
Proof.
  intros Hbody. revert s.
  induction l as [|x l IH]; intros s; cbn [for_of]; [apply exits_ret|].
  apply exits_bind; [apply Hbody | apply IH].
Qed.

End Exits.

(** The primitives return or throw. *)
Ltac exits_primitive :=
  intros ? ? ?;
  unfold checkExistingFile, log, console_log, sleep, existsSync, existsSync_entry, readdirSync,
    mkdirSync, copyFileSync, rmSync, Bun_write_path, Bun_write, fetch, response_json, throw,
    mret, M_ret;
  cbv beta zeta; repeat case_match; congruence.

Ltac exits_walk stage :=
  repeat first
    [ solve [stage]
    | apply exits_process_exit
    | apply exits_bind; [| intros ?]
    | apply exits_try_catch; [| intros ?]
    | apply exits_for_of; intros ? ?
    | progress cbv beta zeta
    | match goal with
      | |- exits_with_one (match ?x with _ => _ end) => destruct x
      end
    | solve [exits_primitive] ].

Lemma exits_downloadMod i p projectSlug displayName isShader v :
  exits_with_one (downloadMod i p projectSlug displayName isShader v).
Proof. unfold downloadMod. exits_walk fail. Qed.

Lemma exits_remoteFetchStage i p v n :
  exits_with_one (remoteFetchStage i p v n).
Proof.
  unfold remoteFetchStage, fetchMod, fetchShader, findExistingMod,
    findExistingShader.
  exits_walk ltac:(idtac;
                   lazymatch goal with
                   | |- exits_with_one (downloadMod _ _ _ _ _ _) =>
                       apply exits_downloadMod
                   end).
Qed.

Lemma exits_localMergeStage p : exits_with_one (localMergeStage p).
Proof.
  unfold localMergeStage, mergeMods, mergeShaders, mergeFile.
  exits_walk fail.
Qed.

Lemma exits_summary v c : exits_with_one (summary v c).
Proof. unfold summary. exits_walk fail. Qed.

Lemma exits_cleanupStage i p : exits_with_one (cleanupStage i p).
Proof. unfold cleanupStage, backupAndClean. exits_walk fail. Qed.

Lemma exits_main i p : exits_with_one (main i p).
Proof.
  unfold main, readConfiguration, ensureFabricInstaller, installStages.
  exits_walk ltac:(idtac;
                   lazymatch goal with
                   | |- exits_with_one (cleanupStage _ _) =>
                       apply exits_cleanupStage
                   | |- exits_with_one (localMergeStage _) =>
                       apply exits_localMergeStage
                   | |- exits_with_one (remoteFetchStage _ _ _ _) =>
                       apply exits_remoteFetchStage
                   | |- exits_with_one (summary _ _) => apply exits_summary
                   end).
Qed.

(** X18: the script ends in one of three ways: [main] completes, the
    process ends with status 1, or — on a platform [getMinecraftDir] does not
    know — the exception it throws while the module loads is uncaught.  No
    other exit status is used, and an exception raised inside [main] never
    escapes the handler of the last lines. *)
Theorem script_ends_normally_or_with_one (i : Inputs) (w : World) :
  match (script i w).1 with
  | Ok _ => ∃ minecraftDir, getMinecraftDir (host i) = Ok minecraftDir
  | Exit code => code = 1 ∧ ∃ minecraftDir, getMinecraftDir (host i) = Ok minecraftDir
  | Throw error => getMinecraftDir (host i) = Throw error
  end.
Proof.
  unfold script.
  destruct (getMinecraftDir (host i)) as [minecraftDir | error | code] eqn:Hdir.
  - unfold try_catch.
    destruct (main i (paths_of (host i) minecraftDir) w) as [[c | e | code] w1]
      eqn:Hmain; cbn.
    + by eexists.
    + split; [done | by eexists].
    + split; [by eapply exits_main | by eexists].
  - done.
  - exfalso. revert Hdir. unfold getMinecraftDir. by repeat case_match.
Qed.

(** ** The prerequisites *)








(** ** The shader check and the case of names *)

(** X20: the shader is taken as installed as soon as any entry of the
    shader directory has [complementary] in its name, whatever its case:
    a sub-directory or a file of any extension counts, unlike for mods.
    [fetchShader] then counts a skip, logs the entry the check found, leaves
    the file system as it is and does not consult the registry. *)
Theorem fetchShader_skips_on_any_entry i p v c w listing entry kind :
  fs w !! SHADERPACKS_DIR p = Some listing →
  listing !! entry = Some kind →
  modMatchesFilename entry "complementary" = true →
  ∃ found,
    fetchShader i p v c w
    = (Ok (count_skip c),
       {| fs := fs w;
          out := out w ++ [Log cyan ("Complementary Reimagined already installed: "
                                     +:+ found)] |})
    ∧ is_Some (listing !! found)
    ∧ modMatchesFilename found "complementary" = true.
Proof.
  intros Hdir Hentry Hmatch.
  destruct (List.find (λ file, modMatchesFilename file "complementary")
              (map_to_list listing).*1) as [found|] eqn:Hfind.
  - exists found. apply find_some in Hfind as Hfound. destruct Hfound as [Hin Hname].
    split; [|split; [by apply readdir_elem, list_elem_of_In | done]].
    unfold fetchShader.
    erewrite bind_ok; [|apply findExistingShader_eq]. rewrite Hdir, Hfind.
    by destruct found.
  - exfalso.
    assert (In entry (map_to_list listing).*1) as Hin.
    { apply list_elem_of_In, readdir_elem. by eexists. }
    pose proof (find_none _ _ Hfind _ Hin) as Htest. cbn beta in Htest.
    by rewrite Hmatch in Htest.
Qed.

Lemma fetchShader_skips_on_any_entry_witness :
  ∃ found,
    fetchShader (linux_run (Some "1.21.10") None morning offline) linux_paths
      "1.21.10" (tally 0 0 0 6) (world_of unpacked_shader)
    = (Ok (count_skip (tally 0 0 0 6)),
       {| fs := unpacked_shader;
          out := [Log cyan ("Complementary Reimagined already installed: "
                            +:+ found)] |})
    ∧ is_Some (({[ "ComplementaryShaders" := Dir ]} : gmap string node) !! found)
    ∧ modMatchesFilename found "complementary" = true.
Proof.
  apply (fetchShader_skips_on_any_entry
           (linux_run (Some "1.21.10") None morning offline) linux_paths
           "1.21.10" (tally 0 0 0 6) (world_of unpacked_shader)
           {[ "ComplementaryShaders" := Dir ]} "ComplementaryShaders" Dir).
  - reflexivity.
  - reflexivity.
  - reflexivity.
Defined.

Lemma lower_ascii_idemp c : lower_ascii (lower_ascii c) = lower_ascii c.
Proof. by destruct c as [[] [] [] [] [] [] [] []]. Qed.

Lemma toLowerCase_idemp s : toLowerCase (toLowerCase s) = toLowerCase s.
Proof.
  induction s as [|c s IH]; [done|]. cbn [toLowerCase].
  by rewrite lower_ascii_idemp, IH.
Qed.

(** X21: the match of a file name against a slug ignores the case of both:
    lowering either of them first changes nothing. *)
Theorem modMatchesFilename_ignores_case (filename projectSlug : string) :
  modMatchesFilename (toLowerCase filename) projectSlug
  = modMatchesFilename filename projectSlug
  ∧ modMatchesFilename filename (toLowerCase projectSlug)
    = modMatchesFilename filename projectSlug.
Proof.
  unfold modMatchesFilename. cbv zeta. by rewrite !toLowerCase_idemp.
Qed.
